(** * Aktuell: the event plane of the change-stream fan-out server

    A shallow embedding of the Go packages [pkg/models], [pkg/server]
    (websocket.go), [pkg/sync] (database.go, manager.go) and [pkg/client]
    (client.go) and of [normalizeConfig] of the server command, and the
    properties of the hub, the subscription validator, the request handlers,
    the snapshot streamer, the origin check and the client library.

    Conventions.
    - Go [int] and [int64] counters are modelled by [Z] without wrap-around.
      The only arithmetic is in the loop of [StreamSnapshot]; with a store
      that honours [SetLimit] its counters stay between [0] and the total
      they start from, which is at most the limit, an [int]
      (see [loopCalls_bounds]).
    - A Go pointer to a client is a [ClientPtr]; the heap maps pointers to
      client objects.
    - [time.Now()] and [uuid.New()] are inputs of the handlers ([Clock]).
    - A goroutine is a sequence of atomic actions; the actions of the
      goroutines interleave in any order ([System.step]).
    - Logging has no effect on the state and is left out. *)

From Stdlib Require Import ZArith Lia Ascii.
From stdpp Require Import base option list gmap strings.

Local Open Scope string_scope.
Local Open Scope list_scope.
Local Open Scope Z_scope.

(** ** Outcome of Go code that may panic or (in the model) run out of fuel *)

Inductive Res (A : Type) : Type :=
| Ok (a : A)
| Panic (why : string)
| OutOfFuel.
Arguments Ok {A} a.
Arguments Panic {A} why.
Arguments OutOfFuel {A}.

Definition bindRes {A B} (r : Res A) (k : A → Res B) : Res B :=
  match r with
  | Ok a => k a
  | Panic why => Panic why
  | OutOfFuel => OutOfFuel
  end.

#[global] Instance Res_bind : MBind Res := λ A B k r, bindRes r k.
#[global] Instance Res_ret : MRet Res := λ A a, Ok a.

(** Go's [len], an [int]. *)
Definition len {A} (l : list A) : Z := Z.of_nat (length l).

(** ** pkg/models/types.go *)

(** [interface{}] values of documents: opaque payload for the event plane. *)
Inductive Value : Type :=
| VNull
| VBool (b : bool)
| VNum (z : Z)
| VStr (s : string).

(** [map[string]interface{}] *)
Abbreviation Document := (gmap string Value).

Module ChangeEvent.
Record t : Type := mk {
  ID : string;
  OperationType : string;
  Database : string;
  Collection : string;
  DocumentKey : Document;
  FullDocument : Document;
  UpdatedFields : Document;
  RemovedFields : list string;
  Timestamp : Z * Z;
  ClientTimestamp : Z
}.
End ChangeEvent.

Module SnapshotOptions.
Record t : Type := mk {
  IncludeSnapshot : bool;
  SnapshotLimit : Z;
  BatchSize : Z;
  SnapshotFilter : option Document;
  SnapshotSort : option Document
}.
End SnapshotOptions.

Module ClientMessage.
Record t : Type := mk {
  Type' : string;
  Database : string;
  Collection : string;
  Data : option Document;
  RequestID : string;
  SubscriptionID : string;
  SnapshotOptions : option SnapshotOptions.t
}.
End ClientMessage.

Module ServerMessage.
Record t : Type := mk {
  Type' : string;
  Change : option ChangeEvent.t;
  Error : string;
  ErrorCode : Z;
  RequestID : string;
  Success : bool;
  Data : option Document;
  SnapshotData : list Document;
  SnapshotBatch : Z;
  SnapshotTotal : Z;
  SnapshotRemaining : Z
}.

End ServerMessage.

Module Subscription.
Record t : Type := mk {
  ID : string;
  ClientID : string;
  Database : string;
  Collection : string;
  CreatedAt : Z;
  SnapshotOptions : option SnapshotOptions.t
}.
End Subscription.

Module DatabaseConfig.
Record t : Type := mk {
  Name : string;
  Collections : list string
}.
End DatabaseConfig.

Definition MessageTypeSubscribe := "subscribe".
Definition MessageTypeUnsubscribe := "unsubscribe".
Definition MessageTypeChange := "change".
Definition MessageTypeError := "error".
Definition MessageTypePing := "ping".
Definition MessageTypePong := "pong".
Definition MessageTypeHealth := "health".
Definition MessageTypeSnapshot := "snapshot".
Definition MessageTypeSnapshotStart := "snapshot_start".
Definition MessageTypeSnapshotEnd := "snapshot_end".

(** [strings.Contains] *)
Definition Contains (s sub : string) : Prop :=
  ∃ pre post : string, s = pre +:+ sub +:+ post.

(** ** Go channels with a buffer *)

Module Chan.
Record t (A : Type) : Type := mk {
  cap : nat;
  buf : list A;
  closed : bool
}.
Arguments mk {A} cap buf closed.
Arguments cap {A} _.
Arguments buf {A} _.
Arguments closed {A} _.

(** [make(chan A, n)] *)
Definition make {A} (n : nat) : t A := mk n [] false.

Inductive SendOutcome (A : Type) : Type :=
| Sent (ch : t A)
| WouldBlock
| SendOnClosed.
Arguments Sent {A} ch.
Arguments WouldBlock {A}.
Arguments SendOnClosed {A}.

(** [select { case ch <- x: ... default: ... }]: a send on a closed
    channel panics, a send on a channel whose buffer has room succeeds,
    otherwise the default branch runs. *)
Definition trySend {A} (ch : t A) (x : A) : SendOutcome A :=
  if closed ch then SendOnClosed
  else if bool_decide (length (buf ch) < cap ch)%nat
       then Sent (mk (cap ch) (buf ch ++ [x]) false)
       else WouldBlock.

(** [close(ch)]: closing a closed channel panics. *)
Definition close {A} (ch : t A) : Res (t A) :=
  if closed ch then Panic "close of closed channel"
  else Ok (mk (cap ch) (buf ch) true).

(** [x, ok := <-ch] when a value is buffered: values buffered before the
    close are still received. *)
Definition recv {A} (ch : t A) : option (A * t A) :=
  match buf ch with
  | [] => None
  | x :: rest => Some (x, mk (cap ch) rest (closed ch))
  end.
End Chan.


(** ** pkg/models/types.go: the two interfaces *)

(** interface [models.SubscriptionValidator]: an interface value is the record
    of its method closures. *)
Record SubscriptionValidator : Type := {
  IsValidSubscription : string → string → bool;
  GetConfiguredDatabases : list DatabaseConfig.t
}.

(** The callback type of [StreamSnapshot]: batch, batch number, remaining,
    error.  A Go callback returns nothing; its effect is on the world [W] of
    the goroutine that runs it. *)
Definition Callback (W : Type) : Type :=
  list Document → Z → Z → option string → W → Res W.

(** interface [models.SnapshotStreamer] *)
Record SnapshotStreamer : Type := {
  StreamSnapshot : ∀ W : Type,
    string → string → option SnapshotOptions.t → Callback W → W → Res W
}.

(** ** pkg/sync/database.go *)

Module Database.

(** What [coll.Find] followed by the decoding loop yields. *)
Inductive FindResult : Type :=
| FindError (err : string)
| DecodeError (err : string)
| Found (docs : list Document).

(** The store behind a [*Database]: [CountDocuments collection filter] and
    [Find collection filter skip limit sort]. *)
Record t : Type := mk {
  CountDocuments : string → Document → string + Z;
  Find : string → Document → Z → Z → option Document → FindResult
}.

Section StreamSnapshot.
Context {W : Type}.
Variable d : t.
Variable collection : string.
Variable callback : Callback W.
Variables (batchSize : Z) (filter : Document) (sort : option Document).

(** The loop [for remaining > 0 { ... }] of [StreamSnapshot]. *)
Fixpoint streamLoop (fuel : nat) (skip batchNum remaining : Z) (w : W) : Res W :=
  if bool_decide (remaining > 0) then
    match fuel with
    | O => OutOfFuel
    | S fuel' =>
        let currentBatchSize :=
          if bool_decide (remaining < batchSize) then remaining else batchSize in
        match Find d collection filter skip currentBatchSize sort with
        | FindError err =>
            callback [] batchNum remaining
              (Some ("failed to find documents: " +:+ err)) w
        | DecodeError err =>
            callback [] batchNum remaining
              (Some ("failed to decode document: " +:+ err)) w
        | Found batch =>
            w1 ← callback batch batchNum (remaining - len batch) None w;
            if bool_decide (len batch < currentBatchSize) then Ok w1
            else streamLoop fuel' (skip + len batch) (batchNum + 1)
                            (remaining - len batch) w1
        end
    end
  else Ok w.

End StreamSnapshot.

Definition effectiveBatchSize (snapOpts : SnapshotOptions.t) : Z :=
  if bool_decide (SnapshotOptions.BatchSize snapOpts ≤ 0) then 100
  else SnapshotOptions.BatchSize snapOpts.

Definition effectiveLimit (snapOpts : SnapshotOptions.t) : Z :=
  if bool_decide (SnapshotOptions.SnapshotLimit snapOpts ≤ 0) then 10000
  else SnapshotOptions.SnapshotLimit snapOpts.

Definition effectiveFilter (snapOpts : SnapshotOptions.t) : Document :=
  default ∅ (SnapshotOptions.SnapshotFilter snapOpts).

(** [func (d *Database) StreamSnapshot(collection, snapOpts, callback)].
    Every turn of the loop that does not leave it lowers [remaining] by at
    least one, so [actualTotal] turns are enough fuel
    (see [streamLoop_fuel]). *)
Definition StreamSnapshot (d : t) (W : Type) (collection : string)
    (snapOpts : option SnapshotOptions.t) (callback : Callback W) (w : W) : Res W :=
  match snapOpts with
  | None => callback [] 0 0 (Some "snapshot options are required") w
  | Some o =>
      let batchSize := effectiveBatchSize o in
      let limit := effectiveLimit o in
      let filter := effectiveFilter o in
      match CountDocuments d collection filter with
      | inl err => callback [] 0 0 (Some ("failed to count documents: " +:+ err)) w
      | inr totalCount =>
          let actualTotal := if bool_decide (totalCount > limit) then limit else totalCount in
          streamLoop d collection callback batchSize filter (SnapshotOptions.SnapshotSort o)
            (Z.to_nat actualTotal) 0 1 actualTotal w
      end
  end.

(** A store whose collections do not change: [docs collection] are the
    documents the query matches, in the order the query asks for. *)
Definition fixed (docs : string → list Document) : t :=
  mk (λ collection _, inr (len (docs collection)))
     (λ collection _ skip limit _,
        Found (take (Z.to_nat limit) (drop (Z.to_nat skip) (docs collection)))).

End Database.

(** ** pkg/sync/manager.go *)

Module Manager.
Record t : Type := mk {
  database : Database.t;
  collections : list string
}.
End Manager.

Module MultiDBManager.

Record t : Type := mk {
  dbConfigs : list DatabaseConfig.t;
  managers : gmap string Manager.t
}.

(** [NewMultiDBManager] *)
Definition new (dbConfigs : list DatabaseConfig.t) : t := mk dbConfigs ∅.

(** [func (m *MultiDBManager) Start()], where [connect name] is the database
    instance [NewDatabase(uri, name, logger)] opens. *)
Definition Start (connect : string → Database.t) (m : t) : t :=
  mk (dbConfigs m)
     (foldl (λ ms dbConfig,
               <[DatabaseConfig.Name dbConfig :=
                   Manager.mk (connect (DatabaseConfig.Name dbConfig))
                              (DatabaseConfig.Collections dbConfig)]> ms)
            (managers m) (dbConfigs m)).

(** The inner loop of [IsValidSubscription] over the configured collections. *)
Fixpoint collectionConfigured (collections : list string) (collection : string) : bool :=
  match collections with
  | [] => false
  | configuredCollection :: rest =>
      if bool_decide (configuredCollection = collection) then true
      else collectionConfigured rest collection
  end.

(** The outer loop: the first configuration whose name is the database
    decides. *)
Fixpoint validIn (configs : list DatabaseConfig.t) (database collection : string) : bool :=
  match configs with
  | [] => false
  | dbConfig :: rest =>
      if bool_decide (DatabaseConfig.Name dbConfig = database) then
        if bool_decide (length (DatabaseConfig.Collections dbConfig) = 0%nat) then true
        else collectionConfigured (DatabaseConfig.Collections dbConfig) collection
      else validIn rest database collection
  end.

(** [func (m *MultiDBManager) IsValidSubscription(database, collection string) bool] *)
Definition IsValidSubscription (m : t) (database collection : string) : bool :=
  validIn (dbConfigs m) database collection.

(** [func (m *MultiDBManager) GetConfiguredDatabases()] *)
Definition GetConfiguredDatabases (m : t) : list DatabaseConfig.t := dbConfigs m.

(** [func (m *MultiDBManager) StreamSnapshot(database, collection, snapOpts, callback)] *)
Definition StreamSnapshot (m : t) (W : Type) (database collection : string)
    (snapOpts : option SnapshotOptions.t) (callback : Callback W) (w : W) : Res W :=
  match managers m !! database with
  | None =>
      callback [] 0 0 (Some ("database '" +:+ database +:+ "' is not configured")) w
  | Some manager =>
      Database.StreamSnapshot (Manager.database manager) W collection snapOpts callback w
  end.

(** [wsServer.SetValidator(syncManager)] and
    [wsServer.SetSnapshotStreamer(syncManager)]: the manager behind the two
    interfaces. *)
Definition asValidator (m : t) : SubscriptionValidator :=
  Build_SubscriptionValidator (IsValidSubscription m) (GetConfiguredDatabases m).
Definition asStreamer (m : t) : SnapshotStreamer :=
  Build_SnapshotStreamer (StreamSnapshot m).

End MultiDBManager.

(** The whitelist in the words of the specification: [isAllowed(db, coll)] is
    true iff some config has [name == db] and either its collections list is
    empty or contains [coll]. *)
Definition isAllowed (databases : list DatabaseConfig.t) (db coll : string) : Prop :=
  ∃ cfg, cfg ∈ databases ∧ DatabaseConfig.Name cfg = db ∧
         (DatabaseConfig.Collections cfg = [] ∨ coll ∈ DatabaseConfig.Collections cfg).

(** ** pkg/server/websocket.go: clients and request handlers *)

Module Client.
Record t : Type := mk {
  ID : string;
  send : Chan.t ServerMessage.t;
  subscriptions : gmap string Subscription.t;
  closed : bool
}.

Definition with_send (c : t) (ch : Chan.t ServerMessage.t) : t :=
  mk (ID c) ch (subscriptions c) (closed c).
Definition with_subscriptions (c : t) (subs : gmap string Subscription.t) : t :=
  mk (ID c) (send c) subs (closed c).

(** The client built by [handleWebSocket]. *)
Definition new (id : string) : t :=
  mk id (Chan.make 1024) ∅ false.
End Client.

(** What a goroutine that enqueues on one client's outbound queue observes of
    it: [offer m w] is [select { case c.send <- m: default: }], and tells
    whether the message was enqueued.  Between two offers the writer and the
    hub act on the queue, so the outcome is a property of the world [W] the
    goroutine runs in. *)
Class Outbound (W : Type) := offer : ServerMessage.t → W → Res (bool * W).

(** No interference: the queue of the client itself. *)
#[global] Instance Client_Outbound : Outbound Client.t := λ m c,
  match Chan.trySend (Client.send c) m with
  | Chan.Sent ch => Ok (true, Client.with_send c ch)
  | Chan.WouldBlock => Ok (false, c)
  | Chan.SendOnClosed => Panic "send on closed channel"
  end.

Record WebSocketServer : Type := {
  validator : option SubscriptionValidator;
  snapshotStreamer : option SnapshotStreamer
}.

(** Inputs a handler reads from its environment. *)
Record Clock : Type := {
  uuid_New : string;
  time_Now : Z;
  time_Now_RFC3339 : string
}.

(** A goroutine started by [handleSnapshot]: the streamer and the
    subscription its closure captured. *)
Record SnapshotGoroutine : Type := {
  g_streamer : SnapshotStreamer;
  g_subscription : Subscription.t
}.

(** The messages the handlers and the snapshot callback build. *)
Definition batchMsg (batch : list Document) (batchNum remaining : Z) : ServerMessage.t :=
  ServerMessage.mk MessageTypeSnapshot None "" 0 "" false None batch batchNum 0 remaining.
Definition endMsg : ServerMessage.t :=
  ServerMessage.mk MessageTypeSnapshotEnd None "" 0 "" false None [] 0 0 0.
Definition startMsg : ServerMessage.t :=
  ServerMessage.mk MessageTypeSnapshotStart None "" 0 "" false None [] 0 0 0.
Definition snapshotErrorMsg (err : string) : ServerMessage.t :=
  ServerMessage.mk MessageTypeError None ("Snapshot error: " +:+ err) 0 "" false None [] 0 0 0.

(** [fmt.Sprintf("Invalid subscription: database '%s' collection '%s' is not
    configured on the server", database, collection)] *)
Definition invalidSubscriptionText (database collection : string) : string :=
  "Invalid subscription: database '" +:+ database +:+ "' collection '" +:+
  collection +:+ "' is not configured on the server".

Definition invalidSubscriptionMsg (message : ClientMessage.t) : ServerMessage.t :=
  ServerMessage.mk MessageTypeError None
    (invalidSubscriptionText (ClientMessage.Database message)
                             (ClientMessage.Collection message))
    1 (ClientMessage.RequestID message) false None [] 0 0 0.
Definition subscribeAck (message : ClientMessage.t) (subscriptionID : string) : ServerMessage.t :=
  ServerMessage.mk MessageTypeSubscribe None "" 0 (ClientMessage.RequestID message) true
    (Some {["subscription_id" := VStr subscriptionID]}) [] 0 0 0.
Definition unsubscribeAck (message : ClientMessage.t) (success : bool) (errorMsg : string)
    : ServerMessage.t :=
  ServerMessage.mk MessageTypeUnsubscribe None
    (if negb success && bool_decide (errorMsg ≠ "") then errorMsg else "")
    0 (ClientMessage.RequestID message) success None [] 0 0 0.
Definition pongMsg (message : ClientMessage.t) : ServerMessage.t :=
  ServerMessage.mk MessageTypePong None "" 0 (ClientMessage.RequestID message)
    false None [] 0 0 0.
Definition healthMsg (message : ClientMessage.t) (timestamp : string) : ServerMessage.t :=
  ServerMessage.mk MessageTypeHealth None "" 0 (ClientMessage.RequestID message) true
    (Some {["status" := VStr "ok"; "timestamp" := VStr timestamp]}) [] 0 0 0.

Section Handlers.
Variable wsServer : option WebSocketServer.

(** The callback built in [handleSnapshot]. *)
Definition snapshotCallback {W} `{Outbound W} : Callback W :=
  λ batch batchNum remaining err w,
  match err with
  | Some e =>
      '(_, w1) ← offer (snapshotErrorMsg e) w;
      Ok w1
  | None =>
      '(sent, w1) ←
        (if bool_decide (len batch > 0) then offer (batchMsg batch batchNum remaining) w
         else Ok (true, w));
      if sent : bool then
        if bool_decide (remaining = 0) then
          '(_, w2) ← offer endMsg w1;
          Ok w2
        else Ok w1
      else Ok w1
  end.

(** The body of the goroutine started by [handleSnapshot]. *)
Definition runSnapshot {W} `{Outbound W} (g : SnapshotGoroutine) : W → Res W :=
  StreamSnapshot (g_streamer g) W
    (Subscription.Database (g_subscription g))
    (Subscription.Collection (g_subscription g))
    (Subscription.SnapshotOptions (g_subscription g))
    snapshotCallback.

(** [func (c *Client) handleSnapshot(subscription *models.Subscription)] *)
Definition handleSnapshot (c : Client.t) (subscription : Subscription.t)
    : Res (Client.t * option SnapshotGoroutine) :=
  match wsServer ≫= snapshotStreamer with
  | None => Ok (c, None)
  | Some streamer =>
      '(sent, c1) ← offer startMsg c;
      if sent : bool then Ok (c1, Some {| g_streamer := streamer;
                                          g_subscription := subscription |})
      else Ok (c1, None)
  end.

(** The guard of [handleSubscribe]: a validator is available and refuses. *)
Definition refused (message : ClientMessage.t) : bool :=
  match wsServer ≫= validator with
  | Some v => negb (IsValidSubscription v (ClientMessage.Database message)
                                          (ClientMessage.Collection message))
  | None => false
  end.

Definition wantsSnapshot (subscription : Subscription.t) : bool :=
  match Subscription.SnapshotOptions subscription with
  | Some o => SnapshotOptions.IncludeSnapshot o
  | None => false
  end.

(** [func (c *Client) handleSubscribe(message *models.ClientMessage)] *)
Definition handleSubscribe (clock : Clock) (c : Client.t) (message : ClientMessage.t)
    : Res (Client.t * option SnapshotGoroutine) :=
  if refused message then
    '(_, c1) ← offer (invalidSubscriptionMsg message) c;
    Ok (c1, None)
  else
    let subscription := Subscription.mk (uuid_New clock) (Client.ID c)
          (ClientMessage.Database message) (ClientMessage.Collection message)
          (time_Now clock) (ClientMessage.SnapshotOptions message) in
    let c1 := Client.with_subscriptions c
                (<[Subscription.ID subscription := subscription]> (Client.subscriptions c)) in
    '(_, c2) ← offer (subscribeAck message (Subscription.ID subscription)) c1;
    if wantsSnapshot subscription then handleSnapshot c2 subscription
    else Ok (c2, None).

(** [func (c *Client) handleUnsubscribe(message *models.ClientMessage)] *)
Definition handleUnsubscribe (c : Client.t) (message : ClientMessage.t) : Res Client.t :=
  let '(subs, success, errorMsg) :=
    if bool_decide (ClientMessage.SubscriptionID message ≠ "") then
      match Client.subscriptions c !! ClientMessage.SubscriptionID message with
      | Some _ => (delete (ClientMessage.SubscriptionID message) (Client.subscriptions c),
                   true, "")
      | None => (Client.subscriptions c, false, "Subscription not found")
      end
    else (∅, true, "") in
  let c1 := Client.with_subscriptions c subs in
  '(_, c2) ← offer (unsubscribeAck message success errorMsg) c1;
  Ok c2.

(** [func (c *Client) handlePing(message *models.ClientMessage)] *)
Definition handlePing (c : Client.t) (message : ClientMessage.t) : Res Client.t :=
  '(_, c1) ← offer (pongMsg message) c;
  Ok c1.

(** [func (c *Client) handleHealthWS(message *models.ClientMessage)] *)
Definition handleHealthWS (clock : Clock) (c : Client.t) (message : ClientMessage.t)
    : Res Client.t :=
  '(_, c1) ← offer (healthMsg message (time_Now_RFC3339 clock)) c;
  Ok c1.

(** [func (c *Client) handleMessage(message *models.ClientMessage)] *)
Definition handleMessage (clock : Clock) (c : Client.t) (message : ClientMessage.t)
    : Res (Client.t * option SnapshotGoroutine) :=
  let ty := ClientMessage.Type' message in
  if bool_decide (ty = MessageTypeSubscribe) then handleSubscribe clock c message
  else if bool_decide (ty = MessageTypeUnsubscribe) then
    c1 ← handleUnsubscribe c message; Ok (c1, None)
  else if bool_decide (ty = MessageTypePing) then
    c1 ← handlePing c message; Ok (c1, None)
  else if bool_decide (ty = MessageTypeHealth) then
    c1 ← handleHealthWS clock c message; Ok (c1, None)
  else Ok (c, None).

End Handlers.

(** The reply [handleUnsubscribe] builds for a client with subscriptions as
    in [c]. *)
Definition unsubscribeReply (c : Client.t) (message : ClientMessage.t) : ServerMessage.t :=
  if bool_decide (ClientMessage.SubscriptionID message ≠ "") then
    match Client.subscriptions c !! ClientMessage.SubscriptionID message with
    | Some _ => unsubscribeAck message true ""
    | None => unsubscribeAck message false "Subscription not found"
    end
  else unsubscribeAck message true "".

(** The messages [handleMessage] offers to the queue of the client, in
    order; an offer that finds the queue full is dropped. *)
Definition handlerOffers (ws : option WebSocketServer) (clock : Clock) (c : Client.t)
    (message : ClientMessage.t) : list ServerMessage.t :=
  let ty := ClientMessage.Type' message in
  if bool_decide (ty = MessageTypeSubscribe) then
    if refused ws message then [invalidSubscriptionMsg message]
    else [subscribeAck message (uuid_New clock); startMsg]
  else if bool_decide (ty = MessageTypeUnsubscribe) then [unsubscribeReply c message]
  else if bool_decide (ty = MessageTypePing) then [pongMsg message]
  else if bool_decide (ty = MessageTypeHealth) then
    [healthMsg message (time_Now_RFC3339 clock)]
  else [].

(** [grows c c' l]: the queue of [c'] is the queue of [c] followed by [l]. *)
Definition grows (c c' : Client.t) (l : list ServerMessage.t) : Prop :=
  Chan.buf (Client.send c') = Chan.buf (Client.send c) ++ l.

(** ** The snapshot goroutine under interference *)

(** The outcome the interleaving with the writer and the hub gives to one
    offer: the queue has room, the queue is full, or the hub has closed it. *)
Inductive Verdict : Type :=
| Accept
| Reject
| ClosedChannel.

(** The world of a goroutine as an observer sees it: the verdicts of its
    next offers (after them the queue has room) and the messages enqueued so
    far, in order. *)
Record Observed : Type := {
  verdicts : list Verdict;
  accepted : list ServerMessage.t
}.

#[global] Instance Observed_Outbound : Outbound Observed := λ m w,
  match verdicts w with
  | [] => Ok (true, {| verdicts := []; accepted := accepted w ++ [m] |})
  | Accept :: vs => Ok (true, {| verdicts := vs; accepted := accepted w ++ [m] |})
  | Reject :: vs => Ok (false, {| verdicts := vs; accepted := accepted w |})
  | ClosedChannel :: _ => Panic "send on closed channel"
  end.

(** The verdict the queue of a client gives when nothing interferes. *)
Definition verdictOf (c : Client.t) : Verdict :=
  if Chan.closed (Client.send c) then ClosedChannel
  else if bool_decide (length (Chan.buf (Client.send c)) < Chan.cap (Client.send c))%nat
       then Accept else Reject.

(** One call of the callback by the streamer. *)
Record Invocation : Type := {
  i_batch : list Document;
  i_batchNum : Z;
  i_remaining : Z;
  i_err : option string
}.

(** The calls a streamer makes, in order; [None] marks the point where the
    model ran out of fuel. *)
Fixpoint runCalls {W} (callback : Callback W) (calls : list (option Invocation))
    (w : W) : Res W :=
  match calls with
  | [] => Ok w
  | None :: _ => OutOfFuel
  | Some i :: rest =>
      w1 ← callback (i_batch i) (i_batchNum i) (i_remaining i) (i_err i) w;
      runCalls callback rest w1
  end.

Section Calls.
Variable d : Database.t.
Variable collection : string.
Variables (batchSize : Z) (filter : Document) (sort : option Document).

(** The calls made by the loop of [Database.StreamSnapshot]: one per fetch. *)
Fixpoint loopCalls (fuel : nat) (skip batchNum remaining : Z) : list (option Invocation) :=
  if bool_decide (remaining > 0) then
    match fuel with
    | O => [None]
    | S fuel' =>
        let currentBatchSize :=
          if bool_decide (remaining < batchSize) then remaining else batchSize in
        match Database.Find d collection filter skip currentBatchSize sort with
        | Database.FindError err =>
            [Some (Build_Invocation [] batchNum remaining
                     (Some ("failed to find documents: " +:+ err)))]
        | Database.DecodeError err =>
            [Some (Build_Invocation [] batchNum remaining
                     (Some ("failed to decode document: " +:+ err)))]
        | Database.Found batch =>
            Some (Build_Invocation batch batchNum (remaining - len batch) None) ::
            (if bool_decide (len batch < currentBatchSize) then []
             else loopCalls fuel' (skip + len batch) (batchNum + 1) (remaining - len batch))
        end
    end
  else [].
End Calls.

(** The calls made by [Database.StreamSnapshot]. *)
Definition snapshotCalls (d : Database.t) (collection : string)
    (snapOpts : option SnapshotOptions.t) : list (option Invocation) :=
  match snapOpts with
  | None => [Some (Build_Invocation [] 0 0 (Some "snapshot options are required"))]
  | Some o =>
      match Database.CountDocuments d collection (Database.effectiveFilter o) with
      | inl err =>
          [Some (Build_Invocation [] 0 0 (Some ("failed to count documents: " +:+ err)))]
      | inr totalCount =>
          let limit := Database.effectiveLimit o in
          let actualTotal := if bool_decide (totalCount > limit) then limit else totalCount in
          loopCalls d collection (Database.effectiveBatchSize o)
            (Database.effectiveFilter o) (SnapshotOptions.SnapshotSort o)
            (Z.to_nat actualTotal) 0 1 actualTotal
      end
  end.

(** The calls made by [MultiDBManager.StreamSnapshot]. *)
Definition managerCalls (m : MultiDBManager.t) (database collection : string)
    (snapOpts : option SnapshotOptions.t) : list (option Invocation) :=
  match MultiDBManager.managers m !! database with
  | None =>
      [Some (Build_Invocation [] 0 0
               (Some ("database '" +:+ database +:+ "' is not configured")))]
  | Some manager => snapshotCalls (Manager.database manager) collection snapOpts
  end.


(** The messages the snapshot callback offers at one call, when every offer
    succeeds. *)
Definition callbackOffers (i : Invocation) : list ServerMessage.t :=
  match i_err i with
  | Some e => [snapshotErrorMsg e]
  | None =>
      (if bool_decide (len (i_batch i) > 0)
       then [batchMsg (i_batch i) (i_batchNum i) (i_remaining i)] else []) ++
      (if bool_decide (i_remaining i = 0) then [endMsg] else [])
  end.

Definition offers (calls : list (option Invocation)) : list ServerMessage.t :=
  concat (callbackOffers <$> omap id calls).

(** The number of documents carried by a list of batches. *)
Definition deliveredBy (batches : list ServerMessage.t) : Z :=
  len (concat (ServerMessage.SnapshotData <$> batches)).




(** The store honours [SetLimit]: a page is never longer than asked for. *)
Definition honoursLimit (d : Database.t) : Prop :=
  ∀ collection filter skip limit sort docs,
    0 < limit →
    Database.Find d collection filter skip limit sort = Database.Found docs →
    len docs ≤ limit.



(** The messages a handler or goroutine added at the back of a queue. *)
Definition enqueued (before after : Client.t) : list ServerMessage.t :=
  drop (length (Chan.buf (Client.send before))) (Chan.buf (Client.send after)).

(** ** pkg/server/websocket.go: the hub *)

(** A [*Client]. *)
Abbreviation ClientPtr := positive.

Module Hub.

(** [h.clients] (a [map[*Client]bool] whose values are all [true]) and the
    client objects the pointers refer to. *)
Record t : Type := mk {
  clients : gset ClientPtr;
  heap : gmap ClientPtr Client.t
}.

(** One subscription against one change event. *)
Definition subscriptionMatches (change : ChangeEvent.t) (sub : Subscription.t) : bool :=
  bool_decide (Subscription.Database sub = ChangeEvent.Database change) &&
  (bool_decide (Subscription.Collection sub = "") ||
   bool_decide (Subscription.Collection sub = ChangeEvent.Collection change)).

(** [func (h *Hub) isClientSubscribed(client *Client, message *models.ServerMessage) bool] *)
Definition isClientSubscribed (client : Client.t) (message : ServerMessage.t) : bool :=
  match ServerMessage.Change message with
  | None => true
  | Some change =>
      if bool_decide (size (Client.subscriptions client) = 0%nat) then false
      else existsb (subscriptionMatches change)
                   ((map_to_list (Client.subscriptions client)).*2)
  end.

(** The body of [for client := range h.clients] in the broadcast case. *)
Definition visit (message : ServerMessage.t) (h : t) (client : ClientPtr) : Res t :=
  match heap h !! client with
  | None => Panic "invalid memory address or nil pointer dereference"
  | Some c =>
      if isClientSubscribed c message then
        match Chan.trySend (Client.send c) message with
        | Chan.Sent ch => Ok (mk (clients h) (<[client := Client.with_send c ch]> (heap h)))
        | Chan.WouldBlock =>
            ch ← Chan.close (Client.send c);
            Ok (mk (clients h ∖ {[client]}) (<[client := Client.with_send c ch]> (heap h)))
        | Chan.SendOnClosed => Panic "send on closed channel"
        end
      else Ok h
  end.

(** [case message := <-h.broadcast]: the clients are visited in the order
    [order] the map iteration picks. *)
Fixpoint broadcast (order : list ClientPtr) (message : ServerMessage.t) (h : t) : Res t :=
  match order with
  | [] => Ok h
  | client :: rest => h1 ← visit message h client; broadcast rest message h1
  end.

(** [case client := <-h.register] *)
Definition register (client : ClientPtr) (h : t) : t :=
  mk (clients h ∪ {[client]}) (heap h).

(** [case client := <-h.unregister] *)
Definition unregister (client : ClientPtr) (h : t) : Res t :=
  if bool_decide (client ∈ clients h) then
    match heap h !! client with
    | None => Panic "invalid memory address or nil pointer dereference"
    | Some c =>
        ch ← Chan.close (Client.send c);
        Ok (mk (clients h ∖ {[client]}) (<[client := Client.with_send c ch]> (heap h)))
    end
  else Ok h.

(** Every registered client exists and its queue is open. *)
Definition wf (h : t) : Prop :=
  ∀ p, p ∈ clients h →
    ∃ c, heap h !! p = Some c ∧ Chan.closed (Client.send c) = false.

End Hub.

(** [func (ws *WebSocketServer) BroadcastChange(change *models.ChangeEvent)]:
    the message put on [h.broadcast]. *)
Definition BroadcastChange (change : option ChangeEvent.t) : ServerMessage.t :=
  ServerMessage.mk MessageTypeChange change "" 0 "" false None [] 0 0 0.

(** ** The server as a transition system *)

Module Ingestor.
(** One [*Database] with its [Manager]: the name of the database it watches
    ([client.Database(dbName)]) and the channel [changesCh] between
    [processChangeStream] and [processChangeEvents], with the history of the
    events parsed from the cursor and of the events handed to the hub. *)
Record t : Type := mk {
  database : string;
  changesCh : Chan.t ChangeEvent.t;
  produced : list ChangeEvent.t;
  forwarded : list ChangeEvent.t
}.

(** [NewDatabase(mongoURI, dbName, logger)]:
    [make(chan *models.ChangeEvent, 100)] *)
Definition new (dbName : string) : t := mk dbName (Chan.make 100) [] [].

(** One turn of [processChangeStream] with the parsed event [changeEvent]:
    the event is dropped when the channel is full. *)
Definition push (changeEvent : ChangeEvent.t) (i : t) : Res t :=
  match Chan.trySend (changesCh i) changeEvent with
  | Chan.Sent ch => Ok (mk (database i) ch (produced i ++ [changeEvent]) (forwarded i))
  | Chan.WouldBlock =>
      Ok (mk (database i) (changesCh i) (produced i ++ [changeEvent]) (forwarded i))
  | Chan.SendOnClosed => Panic "send on closed channel"
  end.
End Ingestor.

Module System.
(** [ingestors]: the [Database] instances that [MultiDBManager.Start] has
    created and started, in the order of the configuration entries. *)
Record t : Type := mk {
  hub : Hub.t;
  wire : gmap ClientPtr (list ServerMessage.t);
  ingestors : list Ingestor.t
}.

(** The server after [MultiDBManager.Start] and [WebSocketServer.Start].
    [databases] are the names of the configuration entries, in order:
    [Start] creates and starts one [Database] with its manager for each
    entry, also for an entry whose name an earlier entry has (the slot of
    [m.managers] is overwritten, the earlier manager keeps running). *)
Definition init (databases : list string) : t :=
  mk (Hub.mk ∅ ∅) ∅ (Ingestor.new <$> databases).

Definition with_hub (s : t) (h : Hub.t) : t := mk h (wire s) (ingestors s).
Definition with_client (s : t) (p : ClientPtr) (c : Client.t) : t :=
  mk (Hub.mk (Hub.clients (hub s)) (<[p := c]> (Hub.heap (hub s)))) (wire s) (ingestors s).

(** What the writer of client [p] has written to its connection. *)
Definition written (s : t) (p : ClientPtr) : list ServerMessage.t :=
  default [] (wire s !! p).

Section Step.
Variable wsServer : option WebSocketServer.

(** The atomic actions of the goroutines, interleaved in any order.  The
    hub serves one event of its three channels at a time, so a broadcast, from
    the receipt of the message on the unbuffered channel [h.broadcast] to the
    end of the iteration over [h.clients], is one action: the actions of the
    other goroutines on the clients it visits are ordered before or after it.
    The snapshot goroutines are represented by their offers, of any message
    without change event. *)
Inductive step : t → t → Prop :=
| step_connect s p id :
    (* handleWebSocket: a new client is allocated and registered *)
    Hub.heap (hub s) !! p = None →
    step s (with_hub s (Hub.register p
              (Hub.mk (Hub.clients (hub s)) (<[p := Client.new id]> (Hub.heap (hub s))))))
| step_unregister s p h' :
    (* readPump leaves its loop *)
    Hub.unregister p (hub s) = Ok h' →
    step s (with_hub s h')
| step_request s p c message clock c' g :
    (* readPump decodes one client message and dispatches it *)
    Hub.heap (hub s) !! p = Some c →
    handleMessage wsServer clock c message = Ok (c', g) →
    step s (with_client s p c')
| step_snapshot s p c m sent c' :
    (* a snapshot goroutine offers one of its messages *)
    Hub.heap (hub s) !! p = Some c →
    ServerMessage.Change m = None →
    offer m c = Ok (sent, c') →
    step s (with_client s p c')
| step_write s p c m ch :
    (* writePump takes a message from the queue and writes it *)
    Hub.heap (hub s) !! p = Some c →
    Chan.recv (Client.send c) = Some (m, ch) →
    step s (mk (Hub.mk (Hub.clients (hub s))
                       (<[p := Client.with_send c ch]> (Hub.heap (hub s))))
               (<[p := written s p ++ [m]]> (wire s)) (ingestors s))
| step_write_failed s p c m ch :
    (* writePump takes a message and the write fails *)
    Hub.heap (hub s) !! p = Some c →
    Chan.recv (Client.send c) = Some (m, ch) →
    step s (with_client s p (Client.with_send c ch))
| step_produce s k i changeEvent i' :
    (* processChangeStream of the k-th Database: its cursor, opened on the
       database it watches, yields an event of that database *)
    ingestors s !! k = Some i →
    ChangeEvent.Database changeEvent = Ingestor.database i →
    Ingestor.push changeEvent i = Ok i' →
    step s (mk (hub s) (wire s) (<[k := i']> (ingestors s)))
| step_forward s k i change ch order h' :
    (* processChangeEvents of the k-th manager takes an event and the hub
       broadcasts it *)
    ingestors s !! k = Some i →
    Chan.recv (Ingestor.changesCh i) = Some (change, ch) →
    order ≡ₚ elements (Hub.clients (hub s)) →
    Hub.broadcast order (BroadcastChange (Some change)) (hub s) = Ok h' →
    step s (mk h' (wire s)
               (<[k := Ingestor.mk (Ingestor.database i) ch (Ingestor.produced i)
                                   (Ingestor.forwarded i ++ [change])]> (ingestors s))).

(** Reachability. *)
Inductive steps : t → t → Prop :=
| steps_refl s : steps s s
| steps_step s1 s2 s3 : steps s1 s2 → step s2 s3 → steps s1 s3.

End Step.



(** The ingestors that watch database [db]: one when the names of the
    configuration entries are distinct. *)
Definition ingestorsOf (s : t) (db : string) : list Ingestor.t :=
  filter (λ i, Ingestor.database i = db) (ingestors s).

(** The events the ingestor of database [db] (the first, should there be
    more) has parsed from its cursor. *)
Definition producedBy (s : t) (db : string) : list ChangeEvent.t :=
  match ingestorsOf s db with
  | i :: _ => Ingestor.produced i
  | [] => []
  end.




End System.

(** ** The end-to-end scenarios of the specification *)

Module Scenario.

Definition doc (id : string) : Document := {["_id" := VStr id]}.

(** A store in which collection [x] holds [docs] and every other collection
    is empty. *)
Definition store (docs : list Document) : Database.t :=
  Database.fixed (λ collection, if bool_decide (collection = "x") then docs else []).

(** Three documents sorted by [_id]. *)
Definition three : list Document := [doc "d1"; doc "d2"; doc "d3"].

(** A store whose count fails. *)
Definition brokenStore : Database.t :=
  Database.mk (λ _ _, inl "connection reset") (λ _ _ _ _ _, Database.FindError "connection reset").

(** Validator config [[{"name":"A","collections":["x"]}]]. *)
Definition configs : list DatabaseConfig.t := [DatabaseConfig.mk "A" ["x"]].

Definition manager (d : Database.t) : MultiDBManager.t :=
  MultiDBManager.Start (λ _, d) (MultiDBManager.new configs).

Definition server (d : Database.t) : option WebSocketServer :=
  Some {| validator := Some (MultiDBManager.asValidator (manager d));
          snapshotStreamer := Some (MultiDBManager.asStreamer (manager d)) |}.

Definition clock : Clock :=
  {| uuid_New := "sub-1"; time_Now := 0; time_Now_RFC3339 := "2026-01-01T00:00:00Z" |}.

(** [{"type":"subscribe","database":db,"collection":coll,"requestId":rid,
      "snapshot_options":opts}] *)
Definition subscribe (db coll rid : string) (opts : option SnapshotOptions.t)
    : ClientMessage.t :=
  ClientMessage.mk MessageTypeSubscribe db coll None rid "" opts.

(** [{"include_snapshot":true,"snapshot_limit":limit,"batch_size":batchSize}] *)
Definition withSnapshot (limit batchSize : Z) : option SnapshotOptions.t :=
  Some (SnapshotOptions.mk true limit batchSize None None).

(** One request handled on a new client, followed by the snapshot goroutine
    it started, with nothing else running in between. *)
Definition session (d : Database.t) (message : ClientMessage.t) : Res Client.t :=
  '(c, g) ← handleMessage (server d) clock (Client.new "client-1") message;
  match g with
  | Some g => runSnapshot g c
  | None => Ok c
  end.

(** The messages in the queue of the client after the session. *)
Definition queued (r : Res Client.t) : list ServerMessage.t :=
  match r with
  | Ok c => Chan.buf (Client.send c)
  | _ => []
  end.

(** A change event: an insert of document [id] into [db.coll]. *)
Definition insert (db coll id : string) : ChangeEvent.t :=
  ChangeEvent.mk ("evt-" +:+ id) "insert" db coll (doc id) (doc id) ∅ [] (0, 0) 0.

(** A client subscribed to [A.x] whose queue holds [n] messages. *)
Definition subscriber (n : nat) : Client.t :=
  Client.mk "client-1" (Chan.mk 1024 (replicate n startMsg) false)
    {["sub-1" := Subscription.mk "sub-1" "client-1" "A" "x" 0 None]} false.

(** A hub with this one client registered. *)
Definition hubWith (c : Client.t) : Hub.t := Hub.mk {[1%positive]} {[1%positive := c]}.

End Scenario.

(** ** The claims that the code does not meet, as stated *)


(** The answer to a rejected subscribe request: the handler returns, no
    subscription is created and the client has been sent a message of type
    [error] with errorCode 1, the request id of the request and a text
    containing "Invalid subscription". *)
Definition rejectedWithError (ws : option WebSocketServer) (clock : Clock) (c : Client.t)
    (message : ClientMessage.t) : Prop :=
  ∃ c' g r,
    handleMessage ws clock c message = Ok (c', g) ∧
    Client.subscriptions c' = Client.subscriptions c ∧
    r ∈ enqueued c c' ∧
    ServerMessage.Type' r = "error" ∧
    ServerMessage.ErrorCode r = 1 ∧
    ServerMessage.RequestID r = ClientMessage.RequestID message ∧
    Contains (ServerMessage.Error r) "Invalid subscription".


(** Reply correlation: every ack, pong, health reply and error among [l]
    carries the request id of [message]. *)
Definition correlated (message : ClientMessage.t) (l : list ServerMessage.t) : Prop :=
  ∀ r, r ∈ l →
    ServerMessage.Type' r ∈ [MessageTypeSubscribe; MessageTypeUnsubscribe;
                             MessageTypePong; MessageTypeHealth; MessageTypeError] →
    ServerMessage.RequestID r = ClientMessage.RequestID message.

(** No snapshot batch among [l]. *)
Definition noBatches (l : list ServerMessage.t) : Prop :=
  ∀ r, r ∈ l → ServerMessage.Type' r ≠ MessageTypeSnapshot.

(** A snapshot task whose first offer finds the queue full emits an error
    message and delivers no batch afterwards. *)
Definition abortsOnOverflow (task : Observed → Res Observed) : Prop :=
  ∀ vs w', task {| verdicts := Reject :: vs; accepted := [] |} = Ok w' →
    (∃ r, r ∈ accepted w' ∧ ServerMessage.Type' r = MessageTypeError) ∧
    noBatches (accepted w').


(** ** Go's [strings] and [os] packages, as far as [checkOrigin] uses them *)

(** [strings.HasPrefix] *)
Fixpoint HasPrefix (s prefix : string) {struct prefix} : bool :=
  match prefix with
  | "" => true
  | String a prefix' =>
      match s with
      | "" => false
      | String b s' => bool_decide (a = b) && HasPrefix s' prefix'
      end
  end.

(** [strings.Contains], executable; [Contains] is its meaning. *)
Fixpoint strings_Contains (s substr : string) : bool :=
  HasPrefix s substr ||
  match s with
  | "" => false
  | String _ s' => strings_Contains s' substr
  end.

(** [strings.Split(s, sep)] for a separator of one byte. *)
Fixpoint Split (s : string) (sep : Ascii.ascii) : list string :=
  match s with
  | "" => [""]
  | String a s' =>
      if bool_decide (a = sep) then "" :: Split s' sep
      else match Split s' sep with
           | [] => [String a ""]
           | field :: fields => String a field :: fields
           end
  end.

(** [strings.Join(fields, sep)] for a separator of one byte. *)
Fixpoint Join (fields : list string) (sep : Ascii.ascii) : string :=
  match fields with
  | [] => ""
  | [field] => field
  | field :: rest => field +:+ String sep (Join rest sep)
  end.

(** The string of the given bytes. *)
Definition utf8 (bytes : list nat) : string :=
  foldr (λ b s, String (Ascii.ascii_of_nat b) s) "" bytes.

(** The UTF-8 encodings of the runes [unicode.IsSpace] accepts: tab, line
    feed, vertical tab, form feed, carriage return, space, U+0085, U+00A0,
    U+1680, U+2000 to U+200A, U+2028, U+2029, U+202F, U+205F and U+3000. *)
Definition whiteSpace : list string :=
  utf8 <$> [[9]; [10]; [11]; [12]; [13]; [32]; [194; 133]; [194; 160];
            [225; 154; 128];
            [226; 128; 128]; [226; 128; 129]; [226; 128; 130]; [226; 128; 131];
            [226; 128; 132]; [226; 128; 133]; [226; 128; 134]; [226; 128; 135];
            [226; 128; 136]; [226; 128; 137]; [226; 128; 138];
            [226; 128; 168]; [226; 128; 169]; [226; 128; 175];
            [226; 129; 159]; [227; 128; 128]]%nat.

(** [strings.CutPrefix] *)
Fixpoint CutPrefix (s prefix : string) {struct prefix} : option string :=
  match prefix with
  | "" => Some s
  | String a prefix' =>
      match s with
      | "" => None
      | String b s' => if bool_decide (a = b) then CutPrefix s' prefix' else None
      end
  end.

(** [s] without the first of [patterns] it starts with. *)
Definition cutAny (patterns : list string) (s : string) : option string :=
  foldr (λ p rest, match CutPrefix s p with Some s' => Some s' | None => rest end)
        None patterns.

(** [strings.TrimLeftFunc] for the runes encoded by [patterns]; every turn
    removes at least one byte, so the length of [s] is enough fuel. *)
Fixpoint trimLeft (patterns : list string) (fuel : nat) (s : string) : string :=
  match fuel with
  | O => s
  | S fuel' =>
      match cutAny patterns s with
      | Some s' => trimLeft patterns fuel' s'
      | None => s
      end
  end.

(** [strings.TrimSpace]: leading and trailing white space removed.  Go
    decodes the last rune of a string from its start byte, so that a string
    ends with a white space rune exactly when it ends with the encoding of
    one. *)
Definition TrimSpace (s : string) : string :=
  let s1 := trimLeft whiteSpace (String.length s) s in
  String.rev
    (trimLeft (String.rev <$> whiteSpace) (String.length s1) (String.rev s1)).

(** The process environment; [os.Getenv] is empty for an unset variable. *)
Definition Getenv (env : gmap string string) (key : string) : string :=
  default "" (env !! key).

(** ** pkg/server/websocket.go: the origin check of the upgrader *)

(** [func getDefaultAllowedOrigins() []string] *)
Definition getDefaultAllowedOrigins (env : gmap string string) : list string :=
  if bool_decide (Getenv env "AKTUELL_ENV" = "production") then []
  else ["http://localhost:3000"; "http://localhost:8080"; "https://localhost:3000"].

(** [func checkOrigin(r *http.Request) bool], where [origin] is
    [r.Header.Get("Origin")], empty when the request has no such header. *)
Definition checkOrigin (env : gmap string string) (origin : string) : bool :=
  let env' := Getenv env "AKTUELL_ENV" in
  if bool_decide (env' ≠ "production") &&
     (bool_decide (origin = "") ||
      (strings_Contains origin "localhost" || strings_Contains origin "127.0.0.1"))
  then true
  else
    let byDefault :=
      existsb (λ allowed, bool_decide (origin = allowed)) (getDefaultAllowedOrigins env) in
    let customOrigins := Getenv env "AKTUELL_ALLOWED_ORIGINS" in
    if bool_decide (customOrigins ≠ "") then
      if existsb (λ allowed, bool_decide (TrimSpace allowed = origin))
                 (Split customOrigins ",")
      then true
      else if bool_decide (env' = "production") then false
      else byDefault
    else byDefault.

(** The origins [AKTUELL_ALLOWED_ORIGINS] lists. *)
Definition customOrigins (env : gmap string string) : list string :=
  if bool_decide (Getenv env "AKTUELL_ALLOWED_ORIGINS" = "") then []
  else TrimSpace <$> Split (Getenv env "AKTUELL_ALLOWED_ORIGINS") ","%char.

(** ** Notions the further properties are stated with *)

(** The configurations that carry the name [database]. *)
Definition configsOf (dbConfigs : list DatabaseConfig.t) (database : string)
    : list DatabaseConfig.t :=
  filter (λ dbConfig, DatabaseConfig.Name dbConfig = database) dbConfigs.

(** The subscription [handleSubscribe] creates for [message]. *)
Definition subscriptionFor (clock : Clock) (c : Client.t) (message : ClientMessage.t)
    : Subscription.t :=
  Subscription.mk (uuid_New clock) (Client.ID c)
    (ClientMessage.Database message) (ClientMessage.Collection message)
    (time_Now clock) (ClientMessage.SnapshotOptions message).

(** [{"type":"unsubscribe","subscriptionId":id,"requestId":rid}] *)
Definition unsubscribeRequest (id rid : string) : ClientMessage.t :=
  ClientMessage.mk MessageTypeUnsubscribe "" "" None rid id None.

(** The messages that end a snapshot session. *)
Definition terminal (r : ServerMessage.t) : Prop :=
  ServerMessage.Type' r = MessageTypeSnapshotEnd ∨
  ServerMessage.Type' r = MessageTypeError.

(** Nothing follows a terminal message of [l]. *)
Definition endsAtTerminal (l : list ServerMessage.t) : Prop :=
  ∀ front r back, l = front ++ r :: back → terminal r → back = [].

(** [o] with another batch size. *)
Definition withBatchSize (o : SnapshotOptions.t) (batchSize : Z) : SnapshotOptions.t :=
  SnapshotOptions.mk (SnapshotOptions.IncludeSnapshot o) (SnapshotOptions.SnapshotLimit o)
    batchSize (SnapshotOptions.SnapshotFilter o) (SnapshotOptions.SnapshotSort o).

(** A channel holds no more than its capacity [n]. *)
Definition within {A} (n : nat) (ch : Chan.t A) : Prop :=
  Chan.cap ch = n ∧ (length (Chan.buf ch) ≤ n)%nat.

(** No queue of a client holds more than the 1024 messages [handleWebSocket]
    gives it room for, no change channel more than the 100 events
    [NewDatabase] gives it room for, and the change channels are open. *)
Definition bounded (s : System.t) : Prop :=
  (∀ p c, Hub.heap (System.hub s) !! p = Some c → within 1024 (Client.send c)) ∧
  (∀ k i, System.ingestors s !! k = Some i →
     within 100 (Ingestor.changesCh i) ∧ Chan.closed (Ingestor.changesCh i) = false).

(** A client the hub does not hold has its queue closed. *)
Definition droppedClosed (s : System.t) : Prop :=
  ∀ p c, Hub.heap (System.hub s) !! p = Some c →
    p ∉ Hub.clients (System.hub s) → Chan.closed (Client.send c) = true.

(** The change event falls under a pair the validator accepts: its database
    with its collection, or with the empty collection name that subscribes
    to every collection. *)
Definition covered (v : SubscriptionValidator) (change : ChangeEvent.t) : Prop :=
  IsValidSubscription v (ChangeEvent.Database change) (ChangeEvent.Collection change) = true ∨
  IsValidSubscription v (ChangeEvent.Database change) "" = true.

(** Every subscription of the client and every change event in its queue
    falls under the validator. *)
Definition clientWhitelisted (v : SubscriptionValidator) (c : Client.t) : Prop :=
  (∀ id sub, Client.subscriptions c !! id = Some sub →
     IsValidSubscription v (Subscription.Database sub) (Subscription.Collection sub) = true) ∧
  (∀ r change, r ∈ Chan.buf (Client.send c) → ServerMessage.Change r = Some change →
     covered v change).

(** So do all clients, and the change events written to them. *)
Definition whitelisted (v : SubscriptionValidator) (s : System.t) : Prop :=
  (∀ p c, Hub.heap (System.hub s) !! p = Some c → clientWhitelisted v c) ∧
  (∀ p r change, r ∈ System.written s p → ServerMessage.Change r = Some change →
     covered v change).

(** [{"type":"ping","requestId":rid}] *)
Definition pingRequest (rid : string) : ClientMessage.t :=
  ClientMessage.mk MessageTypePing "" "" None rid "" None.

(** ** The server command (main.go): the configuration *)

Module Config.
(** [Config], with the fields of its nested structs. *)
Record t : Type := mk {
  MongoDB_URI : string;
  MongoDB_Databases : list DatabaseConfig.t;
  MongoDB_Database : string;
  MongoDB_Collections : list string;
  Server_Host : string;
  Server_Port : Z;
  Logging_Level : string
}.
End Config.

(** [func normalizeConfig(config *Config) []models.DatabaseConfig] *)
Definition normalizeConfig (config : Config.t) : list DatabaseConfig.t :=
  if bool_decide (len (Config.MongoDB_Databases config) > 0)
  then Config.MongoDB_Databases config
  else if bool_decide (Config.MongoDB_Database config ≠ "")
  then [DatabaseConfig.mk (Config.MongoDB_Database config)
                          (Config.MongoDB_Collections config)]
  else [].

(** [mongodb: {database: aktuell, collections: [users]}], the legacy form. *)
Definition legacyConfig : Config.t :=
  Config.mk "mongodb://localhost:27017" [] "aktuell" ["users"] "localhost" 8080 "info".

(** ** pkg/client/client.go: the Go client library *)

Module AktuellClient.

Section Client.
(** The four handler types are function types; the library stores the
    handlers and starts a goroutine for each call.  [Conn] is a
    [*websocket.Conn], with what its [WriteJSON] and [Close] answer. *)
Variables ChangeHandler SnapshotHandler SnapshotCompleteHandler ErrorHandler Conn : Type.
Variable WriteJSON : Conn → ClientMessage.t → Conn * option string.
Variable Close : Conn → option string.

Record t : Type := mk {
  conn : option Conn;
  connected : bool;
  reconnecting : bool;
  handlers : gmap string ChangeHandler;
  snapshotHandlers : gmap string SnapshotHandler;
  snapshotCompleteHandlers : gmap string SnapshotCompleteHandler;
  errorHandlers : gmap string ErrorHandler;
  subscriptions : gmap string Subscription.t;
  doneCh : Chan.t ();
  reconnectCh : Chan.t ()
}.

(** A goroutine started for one call of a handler. *)
Inductive Call : Type :=
| CallChange (handler : ChangeHandler) (change : ChangeEvent.t)
| CallSnapshot (handler : SnapshotHandler) (documents : list Document)
    (batchNum remaining : Z)
| CallSnapshotComplete (handler : SnapshotCompleteHandler)
| CallError (handler : ErrorHandler) (err : string).

(** [NewClient] *)
Definition NewClient : t :=
  mk None false false ∅ ∅ ∅ ∅ ∅ (Chan.make 0) (Chan.make 1).

(** [ErrNotConnected] *)
Definition ErrNotConnected : string := "not connected to server".

(** [func (c *Client) Connect() error], where [dial] is what parsing the
    URL and dialling give. *)
Definition Connect (dial : string + Conn) (c : t) : t * option string :=
  match dial with
  | inl err => (c, Some err)
  | inr cn =>
      (mk (Some cn) true (reconnecting c) (handlers c) (snapshotHandlers c)
          (snapshotCompleteHandlers c) (errorHandlers c) (subscriptions c)
          (doneCh c) (reconnectCh c), None)
  end.

(** [func (c *Client) Disconnect() error] *)
Definition Disconnect (c : t) : Res (t * option string) :=
  if negb (connected c) then Ok (c, None)
  else
    done ← Chan.close (doneCh c);
    match conn c with
    | Some cn =>
        Ok (mk None false (reconnecting c) (handlers c) (snapshotHandlers c)
               (snapshotCompleteHandlers c) (errorHandlers c) (subscriptions c)
               done (reconnectCh c), Close cn)
    | None =>
        Ok (mk None false (reconnecting c) (handlers c) (snapshotHandlers c)
               (snapshotCompleteHandlers c) (errorHandlers c) (subscriptions c)
               done (reconnectCh c), None)
    end.

(** [func (c *Client) sendMessage(message *models.ClientMessage) error] *)
Definition sendMessage (message : ClientMessage.t) (c : t) : t * option string :=
  match connected c, conn c with
  | true, Some cn =>
      let '(cn', err) := WriteJSON cn message in
      (mk (Some cn') (connected c) (reconnecting c) (handlers c) (snapshotHandlers c)
          (snapshotCompleteHandlers c) (errorHandlers c) (subscriptions c)
          (doneCh c) (reconnectCh c), err)
  | _, _ => (c, Some ErrNotConnected)
  end.

(** [m[key] = value] when a value is given. *)
Definition setIf {V} (key : string) (value : option V) (m : gmap string V) : gmap string V :=
  match value with
  | Some v => <[key := v]> m
  | None => m
  end.

(** The message [SubscribeWithOptions] sends. *)
Definition subscribeMessage (database collection requestID : string)
    (snapOpts : option SnapshotOptions.t) : ClientMessage.t :=
  ClientMessage.mk MessageTypeSubscribe database collection None requestID "" snapOpts.

(** [func (c *Client) SubscribeWithOptions(...) error], where
    [subscriptionID] and [requestID] are the two [uuid.New()] and [now] is
    [time.Now()]. *)
Definition SubscribeWithOptions (subscriptionID requestID : string) (now : Z)
    (database collection : string) (snapOpts : option SnapshotOptions.t)
    (changeHandler : option ChangeHandler) (snapshotHandler : option SnapshotHandler)
    (snapshotCompleteHandler : option SnapshotCompleteHandler)
    (errorHandler : option ErrorHandler) (c : t) : t * option string :=
  let subscription := Subscription.mk subscriptionID "" database collection now snapOpts in
  let message := subscribeMessage database collection requestID snapOpts in
  sendMessage message
    (mk (conn c) (connected c) (reconnecting c)
        (setIf subscriptionID changeHandler (handlers c))
        (setIf subscriptionID snapshotHandler (snapshotHandlers c))
        (setIf subscriptionID snapshotCompleteHandler (snapshotCompleteHandlers c))
        (setIf subscriptionID errorHandler (errorHandlers c))
        (<[subscriptionID := subscription]> (subscriptions c))
        (doneCh c) (reconnectCh c)).

(** [func (c *Client) SubscribeWithHandler(database, collection, handler) error] *)
Definition SubscribeWithHandler (subscriptionID requestID : string) (now : Z)
    (database collection : string) (handler : option ChangeHandler) (c : t)
    : t * option string :=
  SubscribeWithOptions subscriptionID requestID now database collection None
    handler None None None c.

(** [func (c *Client) Subscribe(database, collection string) error] *)
Definition Subscribe (subscriptionID requestID : string) (now : Z)
    (database collection : string) (c : t) : t * option string :=
  SubscribeWithHandler subscriptionID requestID now database collection None c.

(** [func (c *Client) SubscribeWithSnapshot(database, collection, snapOpts) error] *)
Definition SubscribeWithSnapshot (subscriptionID requestID : string) (now : Z)
    (database collection : string) (snapOpts : option SnapshotOptions.t) (c : t)
    : t * option string :=
  SubscribeWithOptions subscriptionID requestID now database collection snapOpts
    None None None None c.

(** [func (c *Client) Unsubscribe() error] *)
Definition Unsubscribe (requestID : string) (c : t) : t * option string :=
  sendMessage (ClientMessage.mk MessageTypeUnsubscribe "" "" None requestID "" None)
    (mk (conn c) (connected c) (reconnecting c) ∅ ∅ ∅ ∅ ∅ (doneCh c) (reconnectCh c)).

(** [func (c *Client) OnChange(handler ChangeHandler)] *)
Definition OnChange (handler : ChangeHandler) (c : t) : t :=
  mk (conn c) (connected c) (reconnecting c) (<["global" := handler]> (handlers c))
     (snapshotHandlers c) (snapshotCompleteHandlers c) (errorHandlers c)
     (subscriptions c) (doneCh c) (reconnectCh c).

(** [func (c *Client) IsConnected() bool] *)
Definition IsConnected (c : t) : bool := connected c.

(** [func (c *Client) matchesSubscription(change, subscription) bool] *)
Definition matchesSubscription (change : ChangeEvent.t) (subscription : Subscription.t)
    : bool :=
  if bool_decide (Subscription.Database subscription ≠ "") &&
     bool_decide (Subscription.Database subscription ≠ ChangeEvent.Database change)
  then false
  else if bool_decide (Subscription.Collection subscription ≠ "") &&
          bool_decide (Subscription.Collection subscription ≠ ChangeEvent.Collection change)
  then false
  else true.

(** [func (c *Client) handleChangeEvent(change *models.ChangeEvent)]: the
    goroutines it starts; they run concurrently, so that the order of the
    list has no meaning. *)
Definition handleChangeEvent (change : option ChangeEvent.t) (c : t) : list Call :=
  match change with
  | None => []
  | Some change =>
      match handlers c !! "global" with
      | Some handler => [CallChange handler change]
      | None => []
      end ++
      omap (λ '(subscriptionID, subscription),
              if matchesSubscription change subscription
              then (λ handler, CallChange handler change) <$> handlers c !! subscriptionID
              else None)
           (map_to_list (subscriptions c))
  end.

(** [func (c *Client) handleSnapshotEnd(message *models.ServerMessage)] *)
Definition handleSnapshotEnd (c : t) : list Call :=
  (λ '(_, handler), CallSnapshotComplete handler)
    <$> map_to_list (snapshotCompleteHandlers c).

(** [func (c *Client) handleError(message *models.ServerMessage)] *)
Definition handleError (message : ServerMessage.t) (c : t) : list Call :=
  (λ '(_, handler), CallError handler ("server error: " +:+ ServerMessage.Error message))
    <$> map_to_list (errorHandlers c).

(** [func (c *Client) resubscribe()]: [order] is the order in which the
    subscriptions were collected from the map, and [supply k] holds the two
    [uuid.New()] and the [time.Now()] of the [k]-th call of [Subscribe]. *)
Fixpoint resubscribeEach (order : list Subscription.t) (supply : nat → string * string * Z)
    (k : nat) (c : t) : t :=
  match order with
  | [] => c
  | sub :: rest =>
      let '(subscriptionID, requestID, now) := supply k in
      resubscribeEach rest supply (S k)
        (Subscribe subscriptionID requestID now
           (Subscription.Database sub) (Subscription.Collection sub) c).1
  end.

Definition resubscribe (order : list Subscription.t) (supply : nat → string * string * Z)
    (c : t) : t :=
  resubscribeEach order supply 0 c.

End Client.

Arguments conn {_ _ _ _ _} _.
Arguments connected {_ _ _ _ _} _.
Arguments handlers {_ _ _ _ _} _.
Arguments snapshotHandlers {_ _ _ _ _} _.
Arguments snapshotCompleteHandlers {_ _ _ _ _} _.
Arguments errorHandlers {_ _ _ _ _} _.
Arguments subscriptions {_ _ _ _ _} _.
Arguments doneCh {_ _ _ _ _} _.
Arguments CallChange {_ _ _ _} _ _.
Arguments NewClient {_ _ _ _ _}.
Arguments Connect {_ _ _ _ _} _ _.
Arguments Disconnect {_ _ _ _ _} _ _.
Arguments sendMessage {_ _ _ _ _} _ _ _.
Arguments SubscribeWithOptions {_ _ _ _ _} _ _ _ _ _ _ _ _ _ _ _ _.
Arguments Subscribe {_ _ _ _ _} _ _ _ _ _ _ _.
Arguments Unsubscribe {_ _ _ _ _} _ _ _.
Arguments OnChange {_ _ _ _ _} _ _.
Arguments handleChangeEvent {_ _ _ _ _} _ _.
Arguments resubscribeEach {_ _ _ _ _} _ _ _ _ _.
Arguments resubscribe {_ _ _ _ _} _ _ _ _.

End AktuellClient.

(** The subscription ids the supply hands to the first [n] calls. *)
Definition suppliedIDs (supply : nat → string * string * Z) (k n : nat) : list string :=
  (λ i, (supply i).1.1) <$> seq k n.

(** A connection that records what is written to it and never fails. *)
Definition recording (cn : list ClientMessage.t) (message : ClientMessage.t)
    : list ClientMessage.t * option string :=
  (cn ++ [message], None).

(** A client connected over a recording connection, with one subscription
    to [A.x]; its handlers are named by strings. *)
Definition connectedClient : AktuellClient.t string () () () (list ClientMessage.t) :=
  AktuellClient.mk _ _ _ _ _ (Some []) true false ∅ ∅ ∅ ∅
    {["c-1" := Subscription.mk "c-1" "" "A" "x" 0 None]} (Chan.make 0) (Chan.make 1).

(** A client that was never connected. *)
Definition offlineClient : AktuellClient.t string () () () (list ClientMessage.t) :=
  AktuellClient.NewClient.

(** * Properties *)

(** ** Channels and offers *)

Lemma bindRes_Ok {A B} (r : Res A) (k : A → Res B) (b : B) :
  r ≫= k = Ok b → ∃ a, r = Ok a ∧ k a = Ok b.
Proof. destruct r; simpl; intros; [eauto | discriminate..]. Qed.

(** An offer on the client's own queue either appends the message or, when
    the queue is full, leaves the client as it is. *)
Lemma offer_client (m : ServerMessage.t) (c c' : Client.t) (sent : bool) :
  offer m c = Ok (sent, c') →
  Chan.closed (Client.send c) = false ∧
  Client.subscriptions c' = Client.subscriptions c ∧
  Client.ID c' = Client.ID c ∧
  Chan.cap (Client.send c') = Chan.cap (Client.send c) ∧
  Chan.closed (Client.send c') = false ∧
  ((sent = true ∧ (length (Chan.buf (Client.send c)) < Chan.cap (Client.send c))%nat ∧
    Chan.buf (Client.send c') = Chan.buf (Client.send c) ++ [m]) ∨
   (sent = false ∧ (Chan.cap (Client.send c) ≤ length (Chan.buf (Client.send c)))%nat ∧
    c' = c)).
Proof.
  unfold offer, Client_Outbound, Chan.trySend.
  destruct (Chan.closed (Client.send c)) eqn:Hcl; [discriminate|].
  case_bool_decide; intros [= <- <-]; simpl; repeat split; auto.
  right. repeat split; auto. lia.
Qed.

Lemma offer_client_room (m : ServerMessage.t) (c : Client.t) :
  Chan.closed (Client.send c) = false →
  (length (Chan.buf (Client.send c)) < Chan.cap (Client.send c))%nat →
  offer m c = Ok (true, Client.with_send c
                 (Chan.mk (Chan.cap (Client.send c)) (Chan.buf (Client.send c) ++ [m]) false)).
Proof.
  intros Hcl Hroom. unfold offer, Client_Outbound, Chan.trySend.
  rewrite Hcl. rewrite bool_decide_eq_true_2 by done. done.
Qed.

Lemma offer_client_full (m : ServerMessage.t) (c : Client.t) :
  Chan.closed (Client.send c) = false →
  (Chan.cap (Client.send c) ≤ length (Chan.buf (Client.send c)))%nat →
  offer m c = Ok (false, c).
Proof.
  intros Hcl Hfull. unfold offer, Client_Outbound, Chan.trySend.
  rewrite Hcl. rewrite bool_decide_eq_false_2 by lia. done.
Qed.

Lemma grows_enqueued c c' l : grows c c' l → enqueued c c' = l.
Proof. unfold grows, enqueued. intros ->. by rewrite drop_app_length. Qed.

Lemma grows_trans c1 c2 c3 l1 l2 :
  grows c1 c2 l1 → grows c2 c3 l2 → grows c1 c3 (l1 ++ l2).
Proof. unfold grows. intros H1 H2. by rewrite H2, H1, app_assoc. Qed.

Lemma offer_grows m c c' sent :
  offer m c = Ok (sent, c') → grows c c' (if sent then [m] else []).
Proof.
  intros H. apply offer_client in H as (_ & _ & _ & _ & _ & [(-> & _ & H)|(-> & _ & ->)]).
  - done.
  - unfold grows. by rewrite app_nil_r.
Qed.

(** ** The whitelist *)

Lemma collectionConfigured_elem (collections : list string) (collection : string) :
  MultiDBManager.collectionConfigured collections collection = true ↔
  collection ∈ collections.
Proof.
  induction collections as [|x l IH]; simpl.
  - split; [discriminate | by intros ?%elem_of_nil].
  - case_bool_decide; subst.
    + split; [intros _; apply list_elem_of_here | done].
    + rewrite IH. split; [apply list_elem_of_further|].
      intros [?|?]%elem_of_cons; congruence.
Qed.

(** What the code accepts, the whitelist of the specification allows. *)
Lemma validIn_isAllowed (configs : list DatabaseConfig.t) (db coll : string) :
  MultiDBManager.validIn configs db coll = true → isAllowed configs db coll.
Proof.
  induction configs as [|cfg rest IH]; simpl; [discriminate|].
  case_bool_decide as Hname.
  - intros H. exists cfg. split; [apply list_elem_of_here|]. split; [done|].
    case_bool_decide as Hlen.
    + left. by apply nil_length_inv.
    + right. by apply collectionConfigured_elem.
  - intros (cfg' & Hin & Hn & Hc)%IH. exists cfg'. split; [|done].
    by apply list_elem_of_further.
Qed.

(** With distinct database names in the configuration the two agree. *)
Lemma isAllowed_validIn (configs : list DatabaseConfig.t) (db coll : string) :
  NoDup (DatabaseConfig.Name <$> configs) →
  isAllowed configs db coll → MultiDBManager.validIn configs db coll = true.
Proof.
  induction configs as [|cfg rest IH]; simpl.
  - by intros _ (? & ?%elem_of_nil & _).
  - intros [Hnotin Hnd]%NoDup_cons (cfg' & Hin & Hn & Hc).
    apply elem_of_cons in Hin as [->|Hin].
    + rewrite bool_decide_eq_true_2 by done.
      destruct Hc as [->|Hc]; [done|].
      case_bool_decide; [done|]. by apply collectionConfigured_elem.
    + case_bool_decide as Hname.
      * exfalso. apply Hnotin. rewrite Hname, <- Hn.
        by apply list_elem_of_fmap_2.
      * apply IH; [done|]. by exists cfg'.
Qed.

(** ** Request handlers *)

Lemma invalidSubscriptionText_Contains (database collection : string) :
  Contains (invalidSubscriptionText database collection) "Invalid subscription".
Proof.
  exists "", (": database '" +:+ database +:+ "' collection '" +:+
              collection +:+ "' is not configured on the server").
  done.
Qed.

(** What one call of [handleSubscribe] does, by cases on the guard. *)
Lemma handleSubscribe_inv ws clock c message c' g :
  handleSubscribe ws clock c message = Ok (c', g) →
  (refused ws message = true ∧ g = None ∧
   Client.subscriptions c' = Client.subscriptions c ∧
   ∃ sent, grows c c' (if sent : bool then [invalidSubscriptionMsg message] else [])) ∨
  (refused ws message = false ∧
   Client.subscriptions c' =
     <[uuid_New clock := Subscription.mk (uuid_New clock) (Client.ID c)
          (ClientMessage.Database message) (ClientMessage.Collection message)
          (time_Now clock) (ClientMessage.SnapshotOptions message)]>
       (Client.subscriptions c) ∧
   ∃ sent1 sent2,
     grows c c' ((if sent1 : bool then [subscribeAck message (uuid_New clock)] else []) ++
                 (if sent2 : bool then [startMsg] else []))).
Proof.
  unfold handleSubscribe. destruct (refused ws message) eqn:Href.
  - intros ((sent & c1) & Hoff & [= <- <-])%bindRes_Ok. left.
    pose proof (offer_grows _ _ _ _ Hoff) as Hg.
    apply offer_client in Hoff as (_ & Hs & _). eauto 10.
  - simpl. intros ((sent & c2) & Hoff & Hrest)%bindRes_Ok. right. split; [done|].
    pose proof (offer_grows _ _ _ _ Hoff) as Hg.
    apply offer_client in Hoff as (_ & Hs & _). simpl in Hs.
    destruct (wantsSnapshot _).
    + unfold handleSnapshot in Hrest.
      destruct (ws ≫= snapshotStreamer).
      * apply bindRes_Ok in Hrest as ((sent2 & c3) & Hoff2 & Hrest).
        pose proof (offer_grows _ _ _ _ Hoff2) as Hg2.
        apply offer_client in Hoff2 as (_ & Hs2 & _).
        assert (c3 = c') as -> by (destruct sent2; congruence).
        split; [congruence|]. exists sent, sent2.
        by apply (grows_trans _ c2).
      * injection Hrest as <- <-. split; [done|]. exists sent, false.
        by rewrite app_nil_r.
    + injection Hrest as <- <-. split; [done|]. exists sent, false.
      by rewrite app_nil_r.
Qed.

Lemma handleUnsubscribe_inv c message c' :
  handleUnsubscribe c message = Ok c' →
  (∀ id sub, Client.subscriptions c' !! id = Some sub →
             Client.subscriptions c !! id = Some sub) ∧
  ∃ success errorMsg sent,
    grows c c' (if sent : bool then [unsubscribeAck message success errorMsg] else []).
Proof.
  unfold handleUnsubscribe.
  set (r := if bool_decide (ClientMessage.SubscriptionID message ≠ "") then _ else _).
  assert (∀ id sub, r.1.1 !! id = Some sub → Client.subscriptions c !! id = Some sub) as Hsub.
  { subst r. case_bool_decide; [|simpl; intros ??; by rewrite lookup_empty].
    destruct (Client.subscriptions c !! _); simpl; [|done].
    intros id sub [_ ?]%lookup_delete_Some. done. }
  destruct r as [[subs success] errorMsg]. simpl in Hsub.
  intros ((sent & c2) & Hoff & [= <-])%bindRes_Ok.
  pose proof (offer_grows _ _ _ _ Hoff) as Hg.
  apply offer_client in Hoff as (_ & Hs & _). simpl in Hs. split.
  - intros id sub. rewrite Hs. apply Hsub.
  - by exists success, errorMsg, sent.
Qed.

Lemma sublist_singleton_opt {A} (x : A) (sent : bool) :
  (if sent then [x] else []) `sublist_of` [x].
Proof. destruct sent; [done|apply sublist_nil_l]. Qed.

(** A handler enqueues, in order, some of the messages it offers. *)
Lemma handleMessage_offers ws clock c message c' g :
  handleMessage ws clock c message = Ok (c', g) →
  ∃ l, grows c c' l ∧ l `sublist_of` handlerOffers ws clock c message.
Proof.
  unfold handleMessage, handlerOffers. repeat case_bool_decide.
  - intros [(-> & _ & _ & sent & Hg)|(-> & _ & s1 & s2 & Hg)]%handleSubscribe_inv;
      eexists; (split; [exact Hg|]).
    + apply sublist_singleton_opt.
    + apply (sublist_app _ [_] _ [_]); apply sublist_singleton_opt.
  - unfold handleUnsubscribe, unsubscribeReply.
    intros (c1 & Hun & [= <- <-])%bindRes_Ok. revert Hun.
    case_bool_decide; [destruct (Client.subscriptions c !! _)|];
      intros ((sent & c2) & Hg%offer_grows & [= <-])%bindRes_Ok;
      eexists; (split; [exact Hg|]); apply sublist_singleton_opt.
  - unfold handlePing.
    intros (c1 & ((sent & c2) & Hg%offer_grows & [= <-])%bindRes_Ok & [= <- <-])%bindRes_Ok.
    eexists; (split; [exact Hg|]); apply sublist_singleton_opt.
  - unfold handleHealthWS.
    intros (c1 & ((sent & c2) & Hg%offer_grows & [= <-])%bindRes_Ok & [= <- <-])%bindRes_Ok.
    eexists; (split; [exact Hg|]); apply sublist_singleton_opt.
  - intros [= <- <-]. exists []. split; [unfold grows; by rewrite app_nil_r|done].
Qed.

(** No handler offers a message that carries a change event. *)
Lemma handlerOffers_no_change ws clock c message r :
  r ∈ handlerOffers ws clock c message → ServerMessage.Change r = None.
Proof.
  unfold handlerOffers, unsubscribeReply.
  repeat case_bool_decide; try destruct (refused ws message);
    try destruct (Client.subscriptions c !! _);
    rewrite ?elem_of_cons, ?elem_of_nil; intros Hin; intuition subst; done.
Qed.

(** The messages a handler offers, one by one. *)
Lemma handlerOffers_elem ws clock c message r :
  r ∈ handlerOffers ws clock c message →
  (r = startMsg ∧ refused ws message = false) ∨
  (r = invalidSubscriptionMsg message ∧ refused ws message = true) ∨
  (r = subscribeAck message (uuid_New clock) ∧ refused ws message = false) ∨
  (∃ success errorMsg, r = unsubscribeAck message success errorMsg) ∨
  r = pongMsg message ∨
  r = healthMsg message (time_Now_RFC3339 clock).
Proof.
  unfold handlerOffers, unsubscribeReply.
  destruct (bool_decide (ClientMessage.Type' message = MessageTypeSubscribe)).
  { destruct (refused ws message).
    - intros ->%list_elem_of_singleton. auto.
    - rewrite !elem_of_cons, elem_of_nil. intros [->|[->|[]]]; auto. }
  destruct (bool_decide (ClientMessage.Type' message = MessageTypeUnsubscribe)).
  { intros ->%list_elem_of_singleton. do 3 right; left.
    destruct (bool_decide _); [destruct (_ !! _)|]; eauto. }
  destruct (bool_decide (ClientMessage.Type' message = MessageTypePing)).
  { intros ->%list_elem_of_singleton. auto 10. }
  destruct (bool_decide (ClientMessage.Type' message = MessageTypeHealth)).
  { intros ->%list_elem_of_singleton. auto 10. }
  by intros ?%elem_of_nil.
Qed.

(** Handlers other than [handleSubscribe] add no subscription. *)
Lemma handleMessage_subscriptions ws clock c message c' g :
  handleMessage ws clock c message = Ok (c', g) →
  ∀ id sub, Client.subscriptions c' !! id = Some sub →
    Client.subscriptions c !! id = Some sub ∨
    (ClientMessage.Type' message = MessageTypeSubscribe ∧
     refused ws message = false ∧
     Subscription.Database sub = ClientMessage.Database message ∧
     Subscription.Collection sub = ClientMessage.Collection message).
Proof.
  unfold handleMessage. repeat case_bool_decide.
  - intros [(_ & _ & -> & _)|(Href & -> & _)]%handleSubscribe_inv id sub; [by left|].
    intros [[_ <-]|[_ ?]]%lookup_insert_Some; [right|left]; done.
  - intros (c1 & (Hs & _)%handleUnsubscribe_inv & [= <- <-])%bindRes_Ok id sub ?.
    left. by apply Hs.
  - unfold handlePing.
    intros (c1 & ((sent & c2) & (_ & Hs & _)%offer_client & [= <-])%bindRes_Ok & [= <- <-])%bindRes_Ok.
    intros id sub. rewrite Hs. by left.
  - unfold handleHealthWS.
    intros (c1 & ((sent & c2) & (_ & Hs & _)%offer_client & [= <-])%bindRes_Ok & [= <- <-])%bindRes_Ok.
    intros id sub. rewrite Hs. by left.
  - intros [= <- <-]. by left.
Qed.

(** C3. Whitelist enforcement: with a validator installed, a request that is
    answered by a successful subscribe ack names a pair the validator
    accepts, every subscription a request adds to the client is for such a
    pair, and when the validator is the multi-database manager the pair is in
    the configured whitelist. *)
Theorem whitelist_enforced (ws : option WebSocketServer) (v : SubscriptionValidator)
    (clock : Clock) (c c' : Client.t) (message : ClientMessage.t)
    (g : option SnapshotGoroutine) :
  ws ≫= validator = Some v →
  handleMessage ws clock c message = Ok (c', g) →
  (∀ r, r ∈ enqueued c c' →
        ServerMessage.Type' r = MessageTypeSubscribe →
        ServerMessage.Success r = true →
        IsValidSubscription v (ClientMessage.Database message)
                              (ClientMessage.Collection message) = true) ∧
  (∀ id sub, Client.subscriptions c' !! id = Some sub →
        Client.subscriptions c !! id = Some sub ∨
        IsValidSubscription v (Subscription.Database sub)
                              (Subscription.Collection sub) = true) ∧
  (∀ m db coll, v = MultiDBManager.asValidator m →
        IsValidSubscription v db coll = true →
        isAllowed (MultiDBManager.dbConfigs m) db coll).
Proof.
  intros Hv Hrun. split; [|split].
  - intros r Hr Hty Hsucc.
    destruct (handleMessage_offers _ _ _ _ _ _ Hrun) as (l & Hg & Hsub).
    rewrite (grows_enqueued _ _ _ Hg) in Hr.
    eapply elem_of_sublist in Hr; [|exact Hsub].
    apply handlerOffers_elem in Hr
      as [[-> _]|[[-> _]|[[-> Href]|[(su & e & ->)|[->| ->]]]]]; try discriminate.
    revert Href. unfold refused. rewrite Hv. by intros ?%negb_false_iff.
  - intros id sub Hsub.
    destruct (handleMessage_subscriptions _ _ _ _ _ _ Hrun id sub Hsub)
      as [?|(_ & Href & -> & ->)]; [by left|right].
    revert Href. unfold refused. rewrite Hv. by intros ?%negb_false_iff.
  - intros m db coll -> Hvalid. by apply validIn_isAllowed.
Qed.

(** The validator of scenario 3 accepts the pair of the acknowledged
    request. *)
Lemma whitelist_enforced_witness :
  IsValidSubscription (MultiDBManager.asValidator (Scenario.manager (Scenario.store Scenario.three)))
    "A" "x" = true.
Proof.
  refine (proj1 (whitelist_enforced (Scenario.server (Scenario.store Scenario.three))
            (MultiDBManager.asValidator (Scenario.manager (Scenario.store Scenario.three)))
            Scenario.clock (Client.new "client-1")
            (Client.with_send
               (Client.with_subscriptions (Client.new "client-1")
                  {["sub-1" := Subscription.mk "sub-1" "client-1" "A" "x" 0 None]})
               (Chan.mk 1024 [subscribeAck (Scenario.subscribe "A" "x" "r3" None) "sub-1"] false))
            (Scenario.subscribe "A" "x" "r3" None) None _ _)
            (subscribeAck (Scenario.subscribe "A" "x" "r3" None) "sub-1") _ _ _).
  - reflexivity.
  - vm_compute. reflexivity.
  - vm_compute. apply list_elem_of_here.
  - reflexivity.
  - reflexivity.
Defined.

(** C7, as stated, fails: a client whose queue is full asks for [B.y], which
    the whitelist does not hold; the handler returns and nothing has been
    added to the queue. *)
Lemma invalid_subscription_unanswered_counterexample :
  MultiDBManager.IsValidSubscription (Scenario.manager (Scenario.store Scenario.three))
    "B" "y" = false ∧
  ¬ rejectedWithError (Scenario.server (Scenario.store Scenario.three)) Scenario.clock
      (Scenario.subscriber 1024) (Scenario.subscribe "B" "y" "r2" None).
Proof.
  split; [done|]. intros (c' & g & r & Hrun & _ & Hr & _).
  assert (handleMessage (Scenario.server (Scenario.store Scenario.three)) Scenario.clock
            (Scenario.subscriber 1024) (Scenario.subscribe "B" "y" "r2" None)
          = Ok (Scenario.subscriber 1024, None)) as Hfull by by vm_compute.
  rewrite Hfull in Hrun. injection Hrun as <- <-.
  unfold enqueued in Hr. rewrite drop_all in Hr. by apply elem_of_nil in Hr.
Qed.

(** C7, amended. A subscribe request that the validator rejects creates no
    subscription, and the handler offers the client, with the non-blocking
    enqueue, an error message with errorCode 1, the request id of the request
    and a text containing "Invalid subscription": with an open queue that has
    room the message is enqueued, at the back; with an open queue that is full
    the message is dropped and the handler returns with the client as it
    was. *)
Theorem invalid_subscription_rejected (ws : option WebSocketServer)
    (v : SubscriptionValidator) (clock : Clock) (c : Client.t) (message : ClientMessage.t) :
  ws ≫= validator = Some v →
  ClientMessage.Type' message = MessageTypeSubscribe →
  IsValidSubscription v (ClientMessage.Database message)
                        (ClientMessage.Collection message) = false →
  (∀ c' g, handleMessage ws clock c message = Ok (c', g) →
           Client.subscriptions c' = Client.subscriptions c ∧ g = None) ∧
  (Chan.closed (Client.send c) = false →
   (length (Chan.buf (Client.send c)) < Chan.cap (Client.send c))%nat →
   ∃ c' r, handleMessage ws clock c message = Ok (c', None) ∧
           Client.subscriptions c' = Client.subscriptions c ∧
           Chan.buf (Client.send c') = Chan.buf (Client.send c) ++ [r] ∧
           ServerMessage.Type' r = "error" ∧
           ServerMessage.ErrorCode r = 1 ∧
           ServerMessage.RequestID r = ClientMessage.RequestID message ∧
           Contains (ServerMessage.Error r) "Invalid subscription") ∧
  (Chan.closed (Client.send c) = false →
   (Chan.cap (Client.send c) ≤ length (Chan.buf (Client.send c)))%nat →
   handleMessage ws clock c message = Ok (c, None)).
Proof.
  intros Hv Hty Hinvalid.
  assert (refused ws message = true) as Href.
  { unfold refused. by rewrite Hv, Hinvalid. }
  assert (handleMessage ws clock c message
          = ('(_, c1) ← offer (invalidSubscriptionMsg message) c; Ok (c1, None))) as Hrun.
  { unfold handleMessage, handleSubscribe.
    rewrite bool_decide_eq_true_2 by done. by rewrite Href. }
  split; [|split].
  - intros c' g. rewrite Hrun.
    intros ((sent & c1) & (_ & Hs & _)%offer_client & [= <- <-])%bindRes_Ok. done.
  - intros Hopen Hroom. rewrite Hrun.
    rewrite (offer_client_room _ c Hopen Hroom).
    eexists _, (invalidSubscriptionMsg message). split; [reflexivity|].
    repeat split. apply invalidSubscriptionText_Contains.
  - intros Hopen Hfull. rewrite Hrun.
    by rewrite (offer_client_full _ c Hopen Hfull).
Qed.

(** Scenario 2: the whitelist is [A.x] and the request names [B.y]. *)
Lemma invalid_subscription_rejected_witness :
  ∃ c' r, handleMessage (Scenario.server (Scenario.store Scenario.three)) Scenario.clock
            (Client.new "client-1") (Scenario.subscribe "B" "y" "r2" None) = Ok (c', None) ∧
          Client.subscriptions c' = ∅ ∧
          Chan.buf (Client.send c') = [] ++ [r] ∧
          ServerMessage.Type' r = "error" ∧
          ServerMessage.ErrorCode r = 1 ∧
          ServerMessage.RequestID r = "r2" ∧
          Contains (ServerMessage.Error r) "Invalid subscription".
Proof.
  refine (proj1 (proj2 (invalid_subscription_rejected
            (Scenario.server (Scenario.store Scenario.three))
            (MultiDBManager.asValidator (Scenario.manager (Scenario.store Scenario.three)))
            Scenario.clock (Client.new "client-1")
            (Scenario.subscribe "B" "y" "r2" None) _ _ _)) _ _).
  - reflexivity.
  - reflexivity.
  - reflexivity.
  - reflexivity.
  - simpl. lia.
Defined.

(** ** The snapshot streamer *)

Lemma bindRes_ret {A} (r : Res A) : r ≫= Ok = r.
Proof. by destruct r. Qed.

(** The streamer never looks at what the callback did: its calls are a
    function of the store and of the options alone. *)
Lemma streamLoop_runCalls {W} d collection (callback : Callback W) batchSize filter sort
    fuel skip batchNum remaining w :
  Database.streamLoop d collection callback batchSize filter sort
                      fuel skip batchNum remaining w
  = runCalls callback
      (loopCalls d collection batchSize filter sort fuel skip batchNum remaining) w.
Proof.
  revert skip batchNum remaining w.
  induction fuel as [|fuel IH]; intros skip batchNum remaining w; simpl.
  - by case_bool_decide.
  - case_bool_decide; [|done].
    destruct (Database.Find _ _ _ _ _ _) as [err|err|batch]; simpl.
    + by rewrite bindRes_ret.
    + by rewrite bindRes_ret.
    + destruct (callback batch batchNum _ None w) as [w1| |]; simpl; [|done..].
      case_bool_decide; [done|]. apply IH.
Qed.

Lemma StreamSnapshot_runCalls {W} d collection snapOpts (callback : Callback W) w :
  Database.StreamSnapshot d W collection snapOpts callback w
  = runCalls callback (snapshotCalls d collection snapOpts) w.
Proof.
  unfold Database.StreamSnapshot, snapshotCalls.
  destruct snapOpts as [o|]; simpl; [|by rewrite bindRes_ret].
  destruct (Database.CountDocuments _ _ _) as [err|totalCount]; simpl.
  - by rewrite bindRes_ret.
  - apply streamLoop_runCalls.
Qed.

Lemma manager_StreamSnapshot_runCalls {W} m database collection snapOpts
    (callback : Callback W) w :
  MultiDBManager.StreamSnapshot m W database collection snapOpts callback w
  = runCalls callback (managerCalls m database collection snapOpts) w.
Proof.
  unfold MultiDBManager.StreamSnapshot, managerCalls.
  destruct (MultiDBManager.managers m !! database); simpl.
  - apply StreamSnapshot_runCalls.
  - by rewrite bindRes_ret.
Qed.

(** Termination: a turn of the loop that goes on has fetched at least one
    document, so [remaining] turns are enough. *)
Lemma streamLoop_fuel d collection batchSize filter sort fuel skip batchNum remaining :
  0 < batchSize →
  (Z.to_nat remaining ≤ fuel)%nat →
  None ∉ loopCalls d collection batchSize filter sort fuel skip batchNum remaining.
Proof.
  intros Hb. revert skip batchNum remaining.
  induction fuel as [|fuel IH]; intros skip batchNum remaining Hfuel; simpl.
  - case_bool_decide; [lia|]. apply not_elem_of_nil.
  - case_bool_decide as Hpos; [|apply not_elem_of_nil].
    destruct (Database.Find _ _ _ _ _ _) as [err|err|batch].
    + by intros [=]%list_elem_of_singleton.
    + by intros [=]%list_elem_of_singleton.
    + intros [[=]|Hin]%elem_of_cons.
      case_bool_decide as Hshort; [by apply elem_of_nil in Hin|].
      revert Hin. apply IH. unfold len in *.
      repeat case_bool_decide; lia.
Qed.

(** The counters of the loop stay within the total they start from. *)
Lemma loopCalls_bounds d collection batchSize filter sort :
  honoursLimit d → 0 < batchSize →
  ∀ fuel skip batchNum remaining i,
    0 ≤ remaining →
    Some i ∈ loopCalls d collection batchSize filter sort fuel skip batchNum remaining →
    0 ≤ i_remaining i ≤ remaining ∧
    batchNum ≤ i_batchNum i < batchNum + remaining ∧
    len (i_batch i) ≤ remaining.
Proof.
  intros Hlimit Hb.
  induction fuel as [|fuel IH]; intros skip batchNum remaining i Hrem; simpl.
  - case_bool_decide; [by intros [=]%list_elem_of_singleton|by intros ?%elem_of_nil].
  - case_bool_decide as Hpos; [|by intros ?%elem_of_nil].
    set (cbs := if bool_decide (remaining < batchSize) then remaining else batchSize).
    assert (0 < cbs ≤ remaining) as Hcbs by (subst cbs; case_bool_decide; lia).
    clearbody cbs.
    destruct (Database.Find _ _ _ _ _ _) as [err|err|batch] eqn:Hfind.
    + intros [= ->]%list_elem_of_singleton. unfold len. simpl. lia.
    + intros [= ->]%list_elem_of_singleton. unfold len. simpl. lia.
    + apply Hlimit in Hfind; [|lia].
      assert (0 ≤ len batch) by (unfold len; lia).
      intros [[= ->]|Hin]%elem_of_cons; [simpl; lia|].
      revert Hin. case_bool_decide as Hshort; [by intros ?%elem_of_nil|].
      intros Hin. apply IH in Hin; lia.
Qed.

Lemma snapshotCalls_total d collection snapOpts :
  None ∉ snapshotCalls d collection snapOpts.
Proof.
  unfold snapshotCalls. destruct snapOpts as [o|].
  - destruct (Database.CountDocuments _ _ _).
    + by intros [=]%list_elem_of_singleton.
    + apply streamLoop_fuel; [|done].
      unfold Database.effectiveBatchSize. case_bool_decide; lia.
  - by intros [=]%list_elem_of_singleton.
Qed.

Lemma managerCalls_total m database collection snapOpts :
  None ∉ managerCalls m database collection snapOpts.
Proof.
  unfold managerCalls. destruct (MultiDBManager.managers m !! database).
  - apply snapshotCalls_total.
  - by intros [=]%list_elem_of_singleton.
Qed.

(** *** Offers under interference *)


(** An offer on the queue of a client is the observed offer under the
    verdict of that queue. *)
Lemma offer_client_observed (m : ServerMessage.t) (c : Client.t) :
  match offer m c, offer m {| verdicts := [verdictOf c];
                              accepted := Chan.buf (Client.send c) |} with
  | Ok (sent, c'), Ok (sent', w') =>
      sent = sent' ∧ accepted w' = Chan.buf (Client.send c')
  | Panic _, Panic _ => True
  | _, _ => False
  end.
Proof.
  unfold offer, Client_Outbound, Observed_Outbound, verdictOf, Chan.trySend. simpl.
  destruct (Chan.closed (Client.send c)); [done|]. by case_bool_decide.
Qed.

(** Whatever the interference, an offer enqueues the message or nothing. *)
Lemma offer_observed (m : ServerMessage.t) (w w' : Observed) (sent : bool) :
  offer m w = Ok (sent, w') →
  accepted w' = accepted w ++ (if sent then [m] else []).
Proof.
  unfold offer, Observed_Outbound. destruct w as [[|[| |] vs] acc]; simpl;
    intros [= <- <-]; simpl; by rewrite ?app_nil_r.
Qed.

(** One call of the callback enqueues a sublist of the messages it offers. *)
Lemma snapshotCallback_observed (i : Invocation) (w w' : Observed) :
  snapshotCallback (i_batch i) (i_batchNum i) (i_remaining i) (i_err i) w = Ok w' →
  ∃ l, accepted w' = accepted w ++ l ∧ l `sublist_of` callbackOffers i.
Proof.
  unfold snapshotCallback, callbackOffers. destruct (i_err i) as [e|].
  - intros ((sent & w1) & Hoff%offer_observed & [= <-])%bindRes_Ok.
    eexists. split; [exact Hoff|]. destruct sent; [done|]. apply sublist_nil_l.
  - intros ((sent & w1) & Hfirst & Hrest)%bindRes_Ok.
    assert (∃ l1, accepted w1 = accepted w ++ l1 ∧
       l1 `sublist_of` (if bool_decide (len (i_batch i) > 0)
                        then [batchMsg (i_batch i) (i_batchNum i) (i_remaining i)]
                        else []) ∧ (sent = false → l1 = [] )) as (l1 & Hacc1 & Hsub1 & Hno).
    { revert Hfirst. destruct (bool_decide (len (i_batch i) > 0)); intros Hfirst.
      - apply offer_observed in Hfirst. eexists. split; [exact Hfirst|].
        destruct sent; [done|]. split; [apply sublist_nil_l|done].
      - injection Hfirst as <- <-. exists []. by rewrite app_nil_r. }
    destruct sent.
    + destruct (bool_decide (i_remaining i = 0)).
      * apply bindRes_Ok in Hrest as ((sent2 & w2) & Hoff%offer_observed & [= <-]).
        eexists. split; [by rewrite Hoff, Hacc1, <- app_assoc|].
        apply sublist_app; [done|]. destruct sent2; [done|]. apply sublist_nil_l.
      * injection Hrest as <-. exists l1. split; [done|].
        rewrite app_nil_r. done.
    + injection Hrest as <-. exists l1. split; [done|].
      rewrite (Hno eq_refl). apply sublist_nil_l.
Qed.

Lemma offers_cons (i : Invocation) (calls : list (option Invocation)) :
  offers (Some i :: calls) = callbackOffers i ++ offers calls.
Proof. done. Qed.

(** A snapshot session enqueues, in order, some of the messages its calls
    offer. *)
Lemma runCalls_observed (calls : list (option Invocation)) (w w' : Observed) :
  runCalls snapshotCallback calls w = Ok w' →
  ∃ l, accepted w' = accepted w ++ l ∧ l `sublist_of` offers calls.
Proof.
  revert w. induction calls as [|[i|] calls IH]; intros w; simpl.
  - intros [= <-]. exists []. by rewrite app_nil_r.
  - intros (w1 & (l1 & Hacc1 & Hsub1)%snapshotCallback_observed &
            (l2 & Hacc2 & Hsub2)%IH)%bindRes_Ok.
    exists (l1 ++ l2). split; [by rewrite Hacc2, Hacc1, <- app_assoc|].
    rewrite offers_cons. by apply sublist_app.
  - discriminate.
Qed.

Lemma offer_observed_fuel (m : ServerMessage.t) (w : Observed) :
  offer m w ≠ OutOfFuel.
Proof. unfold offer, Observed_Outbound. by destruct w as [[|[| |] vs] acc]. Qed.

Lemma snapshotCallback_fuel (i : Invocation) (w : Observed) :
  snapshotCallback (i_batch i) (i_batchNum i) (i_remaining i) (i_err i) w ≠ OutOfFuel.
Proof.
  unfold snapshotCallback. destruct (i_err i) as [e|].
  - destruct (offer _ w) as [[s w1]| |] eqn:H; simpl; try done.
    by apply offer_observed_fuel in H.
  - assert (∀ (r : Res (bool * Observed)), r ≠ OutOfFuel →
       (r ≫= λ '(sent, w1),
          if sent : bool then
            if bool_decide (i_remaining i = 0) then offer endMsg w1 ≫= λ '(_, w2), Ok w2
            else Ok w1
          else Ok w1) ≠ OutOfFuel) as Hk.
    { intros [[[|] w1]| |] Hr; simpl; try done.
      destruct (bool_decide (i_remaining i = 0)); [|done].
      destruct (offer endMsg w1) as [[s w2]| |] eqn:H; simpl; try done.
      by apply offer_observed_fuel in H. }
    apply Hk. destruct (bool_decide (len (i_batch i) > 0)); [apply offer_observed_fuel|done].
Qed.

(** A session never runs out of fuel. *)
Lemma runCalls_terminates (calls : list (option Invocation)) (w : Observed) :
  None ∉ calls → runCalls snapshotCallback calls w ≠ OutOfFuel.
Proof.
  revert w. induction calls as [|[i|] calls IH]; intros w Hnone; simpl.
  - done.
  - destruct (snapshotCallback _ _ _ _ w) as [w1| |] eqn:Hcb; simpl.
    + apply IH. intros ?. apply Hnone. by apply list_elem_of_further.
    + done.
    + by apply snapshotCallback_fuel in Hcb.
  - exfalso. apply Hnone, list_elem_of_here.
Qed.

(** *** A store that serves an unchanging result set *)

Lemma loopCalls_done d collection batchSize filter sort fuel skip batchNum remaining :
  remaining ≤ 0 →
  loopCalls d collection batchSize filter sort fuel skip batchNum remaining = [].
Proof. intros H. destruct fuel; simpl; by rewrite bool_decide_eq_false_2 by lia. Qed.


Lemma loopCalls_S d collection batchSize filter sort fuel skip batchNum remaining :
  remaining > 0 →
  loopCalls d collection batchSize filter sort (S fuel) skip batchNum remaining =
  let currentBatchSize :=
    if bool_decide (remaining < batchSize) then remaining else batchSize in
  match Database.Find d collection filter skip currentBatchSize sort with
  | Database.FindError err =>
      [Some (Build_Invocation [] batchNum remaining
               (Some ("failed to find documents: " +:+ err)))]
  | Database.DecodeError err =>
      [Some (Build_Invocation [] batchNum remaining
               (Some ("failed to decode document: " +:+ err)))]
  | Database.Found batch =>
      Some (Build_Invocation batch batchNum (remaining - len batch) None) ::
      (if bool_decide (len batch < currentBatchSize) then []
       else loopCalls d collection batchSize filter sort fuel
              (skip + len batch) (batchNum + 1) (remaining - len batch))
  end.
Proof. intros H. simpl. by rewrite bool_decide_eq_true_2. Qed.








Lemma deliveredBy_cons (r : ServerMessage.t) (batches : list ServerMessage.t) :
  deliveredBy (r :: batches) = len (ServerMessage.SnapshotData r) + deliveredBy batches.
Proof. unfold deliveredBy, len. rewrite fmap_cons. simpl. rewrite length_app. lia. Qed.






(** C4. A snapshot over a collection with no matching document: the loop of
    [StreamSnapshot] is never entered, the callback is never called, and the
    client is left with [snapshot_start] and no [snapshot_end], whatever the
    interleaving with the writer and the hub. *)
Theorem empty_collection_no_snapshot_end :
  Scenario.queued (Scenario.session (Scenario.store [])
     (Scenario.subscribe "A" "x" "r4" (Scenario.withSnapshot 0 2)))
  = [subscribeAck (Scenario.subscribe "A" "x" "r4" (Scenario.withSnapshot 0 2)) "sub-1";
     startMsg] ∧
  managerCalls (Scenario.manager (Scenario.store [])) "A" "x" (Scenario.withSnapshot 0 2)
  = [] ∧
  ∀ w : Observed,
    MultiDBManager.StreamSnapshot (Scenario.manager (Scenario.store [])) Observed
      "A" "x" (Scenario.withSnapshot 0 2) snapshotCallback w = Ok w.
Proof.
  split; [by vm_compute|]. split; [by vm_compute|].
  intros w. rewrite manager_StreamSnapshot_runCalls.
  by replace (managerCalls _ _ _ _) with (@nil (option Invocation)) by by vm_compute.
Qed.




(** C8, as stated, fails: the error of a snapshot session whose count fails
    carries no request id. *)
Lemma snapshot_error_uncorrelated_counterexample :
  ¬ correlated (Scenario.subscribe "A" "x" "r1" (Scenario.withSnapshot 0 2))
      (Scenario.queued (Scenario.session Scenario.brokenStore
         (Scenario.subscribe "A" "x" "r1" (Scenario.withSnapshot 0 2)))).
Proof.
  intros H.
  specialize (H (snapshotErrorMsg "failed to count documents: connection reset")).
  discriminate H.
  - vm_compute. do 2 apply list_elem_of_further. apply list_elem_of_here.
  - vm_compute. do 4 apply list_elem_of_further. apply list_elem_of_here.
Qed.

Lemma callbackOffers_RequestID (i : Invocation) (r : ServerMessage.t) :
  r ∈ callbackOffers i → ServerMessage.RequestID r = "".
Proof.
  unfold callbackOffers. destruct (i_err i).
  - by intros ->%list_elem_of_singleton.
  - intros [Hr|Hr]%elem_of_app; revert Hr; case_bool_decide;
      try (by intros ?%elem_of_nil); by intros ->%list_elem_of_singleton.
Qed.

Lemma offers_elem (calls : list (option Invocation)) (r : ServerMessage.t) :
  r ∈ offers calls → ∃ i, Some i ∈ calls ∧ r ∈ callbackOffers i.
Proof.
  induction calls as [|[i|] calls IH].
  - by intros ?%elem_of_nil.
  - rewrite offers_cons. intros [Hr|Hr]%elem_of_app.
    + exists i. split; [apply list_elem_of_here|done].
    + destruct (IH Hr) as (j & Hj & Hrj). exists j. split; [|done].
      by apply list_elem_of_further.
  - intros Hr. destruct (IH Hr) as (j & Hj & Hrj). exists j. split; [|done].
    by apply list_elem_of_further.
Qed.

(** C8, amended. Every reply a request handler enqueues (subscribe and
    unsubscribe acks, pong, health reply, invalid-subscription error) carries
    the request id of the request; the messages of the snapshot session
    ([snapshot_start], the batches, [snapshot_end] and its error messages)
    carry an empty request id. *)
Theorem replies_carry_request_id :
  (∀ ws clock c message c' g,
     handleMessage ws clock c message = Ok (c', g) →
     ∀ r, r ∈ enqueued c c' →
       (r = startMsg ∧ ServerMessage.RequestID r = "") ∨
       (ServerMessage.Type' r ∈ [MessageTypeSubscribe; MessageTypeUnsubscribe;
                                 MessageTypePong; MessageTypeHealth; MessageTypeError] ∧
        ServerMessage.RequestID r = ClientMessage.RequestID message)) ∧
  (∀ m database collection snapOpts (w w' : Observed),
     MultiDBManager.StreamSnapshot m Observed database collection snapOpts
       snapshotCallback w = Ok w' →
     ∃ l, accepted w' = accepted w ++ l ∧
          ∀ r, r ∈ l → ServerMessage.RequestID r = "").
Proof.
  split.
  - intros ws clock c message c' g Hrun r Hr.
    destruct (handleMessage_offers _ _ _ _ _ _ Hrun) as (l & Hg & Hsub).
    rewrite (grows_enqueued _ _ _ Hg) in Hr.
    eapply elem_of_sublist in Hr; [|exact Hsub].
    apply handlerOffers_elem in Hr
      as [[-> _]|[[-> _]|[[-> _]|[(su & e & ->)|[->| ->]]]]];
      [by left|right..]; (split; [simpl; set_solver|done]).
  - intros m database collection snapOpts w w'.
    rewrite manager_StreamSnapshot_runCalls.
    intros (l & Hacc & Hsub)%runCalls_observed. exists l. split; [done|].
    intros r Hr. eapply elem_of_sublist in Hr; [|exact Hsub].
    apply offers_elem in Hr as (i & _ & Hr). by apply callbackOffers_RequestID in Hr.
Qed.

(** Scenario 1: the pong of a ping with request id [r1]. *)
Lemma replies_carry_request_id_witness :
  ServerMessage.RequestID (pongMsg (ClientMessage.mk MessageTypePing "" "" None "r1" "" None))
  = "r1".
Proof.
  destruct (proj1 replies_carry_request_id (Scenario.server (Scenario.store Scenario.three))
              Scenario.clock (Client.new "client-1")
              (ClientMessage.mk MessageTypePing "" "" None "r1" "" None)
              (Client.with_send (Client.new "client-1")
                 (Chan.mk 1024 [pongMsg (ClientMessage.mk MessageTypePing "" "" None "r1" "" None)]
                    false))
              None eq_refl
              (pongMsg (ClientMessage.mk MessageTypePing "" "" None "r1" "" None))
              ltac:(vm_compute; apply list_elem_of_here)) as [[H _]|[_ H]].
  - discriminate H.
  - exact H.
Defined.

(** C9, as stated, fails: the first batch finds the queue full, no error is
    enqueued, and the second batch and [snapshot_end] are delivered. *)
Lemma snapshot_overflow_counterexample :
  ¬ abortsOnOverflow
      (MultiDBManager.StreamSnapshot (Scenario.manager (Scenario.store Scenario.three))
         Observed "A" "x" (Scenario.withSnapshot 0 2) snapshotCallback).
Proof.
  intros H.
  destruct (H [] {| verdicts := []; accepted := [batchMsg [Scenario.doc "d3"] 2 0; endMsg] |})
    as [_ Hno]; [by vm_compute|].
  apply (Hno (batchMsg [Scenario.doc "d3"] 2 0)); [apply list_elem_of_here|done].
Qed.

Lemma callbackOffers_error (i : Invocation) (r : ServerMessage.t) :
  r ∈ callbackOffers i → ServerMessage.Type' r = MessageTypeError → is_Some (i_err i).
Proof.
  unfold callbackOffers. destruct (i_err i); [by eauto|].
  intros [Hr|Hr]%elem_of_app; revert Hr; case_bool_decide;
    try (by intros ?%elem_of_nil); by intros ->%list_elem_of_singleton.
Qed.

(** C9, amended. When the offer of [snapshot_start] finds the queue full no
    snapshot goroutine is started.  When the offer of a batch finds the queue
    full the callback enqueues nothing for it, neither an error nor a
    [snapshot_end], and returns; the streamer, whose calls are a function of
    the store and the options alone, goes on with the remaining pages.  An
    error message is enqueued only for a failure the streamer reports. *)
Theorem snapshot_overflow_drops_batch :
  (∀ ws c subscription,
     Chan.closed (Client.send c) = false →
     (Chan.cap (Client.send c) ≤ length (Chan.buf (Client.send c)))%nat →
     handleSnapshot ws c subscription = Ok (c, None)) ∧
  (∀ batch batchNum remaining vs acc,
     len batch > 0 →
     snapshotCallback batch batchNum remaining None
       {| verdicts := Reject :: vs; accepted := acc |}
     = Ok {| verdicts := vs; accepted := acc |}) ∧
  (∀ W m database collection snapOpts (callback : Callback W) w,
     MultiDBManager.StreamSnapshot m W database collection snapOpts callback w
     = runCalls callback (managerCalls m database collection snapOpts) w) ∧
  (∀ m database collection snapOpts (w w' : Observed),
     MultiDBManager.StreamSnapshot m Observed database collection snapOpts
       snapshotCallback w = Ok w' →
     ∃ l, accepted w' = accepted w ++ l ∧
          ∀ r, r ∈ l → ServerMessage.Type' r = MessageTypeError →
            ∃ i, Some i ∈ managerCalls m database collection snapOpts ∧
                 is_Some (i_err i)).
Proof.
  split; [|split; [|split]].
  - intros ws c subscription Hopen Hfull. unfold handleSnapshot.
    destruct (ws ≫= snapshotStreamer); [|done].
    by rewrite (offer_client_full startMsg c Hopen Hfull).
  - intros batch batchNum remaining vs acc Hlen. unfold snapshotCallback.
    by rewrite (bool_decide_eq_true_2 (len batch > 0)).
  - intros. apply manager_StreamSnapshot_runCalls.
  - intros m database collection snapOpts w w'.
    rewrite manager_StreamSnapshot_runCalls.
    intros (l & Hacc & Hsub)%runCalls_observed. exists l. split; [done|].
    intros r Hr Hty. eapply elem_of_sublist in Hr; [|exact Hsub].
    apply offers_elem in Hr as (i & Hi & Hr). exists i. split; [done|].
    by apply (callbackOffers_error i r).
Qed.

(** The first batch of scenario 4 offered to a full queue. *)
Lemma snapshot_overflow_drops_batch_witness :
  snapshotCallback [Scenario.doc "d1"; Scenario.doc "d2"] 1 1 None
    {| verdicts := [Reject]; accepted := [startMsg] |}
  = Ok {| verdicts := []; accepted := [startMsg] |}.
Proof.
  apply (proj1 (proj2 snapshot_overflow_drops_batch)
           [Scenario.doc "d1"; Scenario.doc "d2"] 1 1 [] [startMsg]).
  vm_compute. reflexivity.
Defined.

(** ** The hub *)

(** What one visit of the broadcast loop does to the visited client. *)
Lemma visit_inv (m : ServerMessage.t) (h h' : Hub.t) (p : ClientPtr) :
  Hub.visit m h p = Ok h' →
  ∃ c, Hub.heap h !! p = Some c ∧
    ((Hub.isClientSubscribed c m = false ∧ h' = h) ∨
     (Hub.isClientSubscribed c m = true ∧
      (length (Chan.buf (Client.send c)) < Chan.cap (Client.send c))%nat ∧
      h' = Hub.mk (Hub.clients h)
             (<[p := Client.with_send c
                       (Chan.mk (Chan.cap (Client.send c))
                                (Chan.buf (Client.send c) ++ [m]) false)]> (Hub.heap h))) ∨
     (Hub.isClientSubscribed c m = true ∧
      (Chan.cap (Client.send c) ≤ length (Chan.buf (Client.send c)))%nat ∧
      h' = Hub.mk (Hub.clients h ∖ {[p]})
             (<[p := Client.with_send c
                       (Chan.mk (Chan.cap (Client.send c))
                                (Chan.buf (Client.send c)) true)]> (Hub.heap h)))).
Proof.
  unfold Hub.visit. destruct (Hub.heap h !! p) as [c|]; [|done].
  intros H. exists c. split; [done|].
  destruct (Hub.isClientSubscribed c m); [|injection H as <-; by left].
  right. revert H. unfold Chan.trySend, Chan.close.
  destruct (Chan.closed (Client.send c)); [done|].
  case_bool_decide; simpl; intros [= <-]; [left|right]; repeat split; auto. lia.
Qed.

Lemma visit_other (m : ServerMessage.t) (h h' : Hub.t) (p q : ClientPtr) :
  Hub.visit m h p = Ok h' → q ≠ p →
  Hub.heap h' !! q = Hub.heap h !! q ∧ (q ∈ Hub.clients h' ↔ q ∈ Hub.clients h).
Proof.
  intros (c & Hc & [(_ & ->)|[(_ & _ & ->)|(_ & _ & ->)]])%visit_inv Hne; simpl;
    rewrite ?lookup_insert_ne by done; split; try done.
  rewrite elem_of_difference, elem_of_singleton. tauto.
Qed.

Lemma broadcast_other (order : list ClientPtr) (m : ServerMessage.t) (h h' : Hub.t)
    (q : ClientPtr) :
  Hub.broadcast order m h = Ok h' → q ∉ order →
  Hub.heap h' !! q = Hub.heap h !! q ∧ (q ∈ Hub.clients h' ↔ q ∈ Hub.clients h).
Proof.
  revert h. induction order as [|p rest IH]; intros h; simpl.
  - by intros [= <-].
  - intros (h1 & Hvisit & Hrest)%bindRes_Ok Hq.
    apply not_elem_of_cons in Hq as [Hne Hq].
    destruct (visit_other _ _ _ _ q Hvisit Hne) as [Hh Hc].
    destruct (IH _ Hrest Hq) as [Hh' Hc']. split; [congruence|]. by rewrite Hc', Hc.
Qed.

(** The effect of a broadcast on one client of the iteration: nothing, the
    message at the back of its queue, or eviction with the queue closed. *)
Lemma broadcast_at (order : list ClientPtr) (m : ServerMessage.t) (h h' : Hub.t)
    (p : ClientPtr) (c : Client.t) :
  NoDup order → p ∈ order →
  Hub.broadcast order m h = Ok h' →
  Hub.heap h !! p = Some c →
  (Hub.isClientSubscribed c m = false ∧ Hub.heap h' !! p = Some c ∧
   (p ∈ Hub.clients h' ↔ p ∈ Hub.clients h)) ∨
  (Hub.isClientSubscribed c m = true ∧
   (length (Chan.buf (Client.send c)) < Chan.cap (Client.send c))%nat ∧
   Hub.heap h' !! p = Some (Client.with_send c
      (Chan.mk (Chan.cap (Client.send c)) (Chan.buf (Client.send c) ++ [m]) false)) ∧
   (p ∈ Hub.clients h' ↔ p ∈ Hub.clients h)) ∨
  (Hub.isClientSubscribed c m = true ∧
   (Chan.cap (Client.send c) ≤ length (Chan.buf (Client.send c)))%nat ∧
   Hub.heap h' !! p = Some (Client.with_send c
      (Chan.mk (Chan.cap (Client.send c)) (Chan.buf (Client.send c)) true)) ∧
   p ∉ Hub.clients h').
Proof.
  revert h. induction order as [|q rest IH]; intros h Hnd Hin; simpl.
  - by apply elem_of_nil in Hin.
  - apply NoDup_cons in Hnd as [Hq Hnd].
    intros (h1 & Hvisit & Hrest)%bindRes_Ok Hc.
    destruct (decide (p = q)) as [->|Hne].
    + destruct (broadcast_other _ _ _ _ q Hrest Hq) as [Hh Hcl].
      apply visit_inv in Hvisit as (c' & Hc' & Hcases).
      assert (c' = c) as -> by congruence.
      destruct Hcases as [(Hs & ->)|[(Hs & Hroom & ->)|(Hs & Hfull & ->)]];
        simpl in *; rewrite ?lookup_insert_eq in Hh.
      * left. rewrite Hh. done.
      * right; left. done.
      * right; right. repeat split; auto. rewrite Hcl.
        rewrite elem_of_difference, elem_of_singleton. tauto.
    + apply elem_of_cons in Hin as [?|Hin]; [done|].
      destruct (visit_other _ _ _ _ p Hvisit Hne) as [Hh Hcl].
      rewrite <- Hh in Hc.
      destruct (IH _ Hnd Hin Hrest Hc) as [(?&?&?)|[(?&?&?&?)|(?&?&?&?)]].
      * left. repeat split; auto; tauto.
      * right; left. repeat split; auto; tauto.
      * right; right. done.
Qed.

Lemma order_NoDup (order : list ClientPtr) (h : Hub.t) :
  order ≡ₚ elements (Hub.clients h) →
  NoDup order ∧ ∀ p, p ∈ order ↔ p ∈ Hub.clients h.
Proof.
  intros Hperm. split.
  - rewrite Hperm. apply NoDup_elements.
  - intros p. rewrite Hperm. apply elem_of_elements.
Qed.

Lemma visit_wf (m : ServerMessage.t) (h : Hub.t) (p : ClientPtr) :
  Hub.wf h → p ∈ Hub.clients h →
  ∃ h', Hub.visit m h p = Ok h' ∧ Hub.wf h'.
Proof.
  intros Hwf Hp. destruct (Hwf p Hp) as (c & Hc & Hopen).
  unfold Hub.visit. rewrite Hc.
  destruct (Hub.isClientSubscribed c m); [|by eauto].
  unfold Chan.trySend, Chan.close. rewrite Hopen. case_bool_decide; simpl.
  - eexists. split; [done|]. intros q Hq. simpl in *.
    destruct (decide (q = p)) as [->|Hne].
    + rewrite lookup_insert_eq. by eexists.
    + rewrite lookup_insert_ne by done. by apply Hwf.
  - eexists. split; [done|]. intros q Hq. simpl in *.
    apply elem_of_difference in Hq as [Hq Hne%not_elem_of_singleton].
    rewrite lookup_insert_ne by done. by apply Hwf.
Qed.

(** On a well-formed hub the broadcast loop runs to its end. *)
Lemma broadcast_wf (order : list ClientPtr) (m : ServerMessage.t) (h : Hub.t) :
  Hub.wf h → NoDup order → (∀ p, p ∈ order → p ∈ Hub.clients h) →
  ∃ h', Hub.broadcast order m h = Ok h' ∧ Hub.wf h'.
Proof.
  revert h. induction order as [|p rest IH]; intros h Hwf Hnd Hin; simpl.
  - by eauto.
  - apply NoDup_cons in Hnd as [Hp Hnd].
    destruct (visit_wf m h p Hwf) as (h1 & Hvisit & Hwf1); [apply Hin, list_elem_of_here|].
    rewrite Hvisit. simpl. apply IH; [done..|].
    intros q Hq. destruct (visit_other _ _ _ _ q Hvisit) as [_ Hcl].
    { intros ->. done. }
    apply Hcl, Hin. by apply list_elem_of_further.
Qed.

Lemma isClientSubscribed_change (c : Client.t) (change : ChangeEvent.t) :
  Hub.isClientSubscribed c (BroadcastChange (Some change)) = true ↔
  ∃ id sub, Client.subscriptions c !! id = Some sub ∧
            Subscription.Database sub = ChangeEvent.Database change ∧
            (Subscription.Collection sub = "" ∨
             Subscription.Collection sub = ChangeEvent.Collection change).
Proof.
  unfold Hub.isClientSubscribed. simpl.
  assert (existsb (Hub.subscriptionMatches change) (map_to_list (Client.subscriptions c)).*2
          = true ↔
          ∃ id sub, Client.subscriptions c !! id = Some sub ∧
            Subscription.Database sub = ChangeEvent.Database change ∧
            (Subscription.Collection sub = "" ∨
             Subscription.Collection sub = ChangeEvent.Collection change)) as Hex.
  { rewrite existsb_exists. split.
    - intros (sub & Hin & Hm). apply list_elem_of_In in Hin.
      apply list_elem_of_fmap in Hin as ([id sub'] & -> & Hin).
      apply elem_of_map_to_list in Hin. exists id, sub'. split; [done|].
      unfold Hub.subscriptionMatches in Hm. simpl in Hm.
      apply andb_true_iff in Hm as [Hd%bool_decide_eq_true Hc%orb_true_iff].
      split; [done|]. destruct Hc as [?%bool_decide_eq_true|?%bool_decide_eq_true]; auto.
    - intros (id & sub & Hsub & Hd & Hc). exists sub. split.
      + apply list_elem_of_In. apply list_elem_of_fmap. exists (id, sub). split; [done|].
        by apply elem_of_map_to_list.
      + unfold Hub.subscriptionMatches. apply andb_true_iff. split.
        * by apply bool_decide_eq_true.
        * apply orb_true_iff. destruct Hc; [left|right]; by apply bool_decide_eq_true. }
  case_bool_decide as Hsize; [|done].
  split; [done|]. intros (id & sub & Hsub & _).
  apply map_size_empty_iff in Hsize. rewrite Hsize in Hsub. by rewrite lookup_empty in Hsub.
Qed.

Lemma visit_keeps (m : ServerMessage.t) (h h' : Hub.t) (p : ClientPtr) :
  Hub.visit m h p = Ok h' →
  Hub.clients h' ⊆ Hub.clients h ∧
  ∀ q, is_Some (Hub.heap h' !! q) ↔ is_Some (Hub.heap h !! q).
Proof.
  intros (c & Hc & [(_ & ->)|[(_ & _ & ->)|(_ & _ & ->)]])%visit_inv; simpl;
    (split; [apply elem_of_subseteq; intros x; rewrite ?elem_of_difference; tauto|]);
    intros q; try done;
    (destruct (decide (q = p)) as [->|Hne];
     [rewrite lookup_insert_eq, Hc; split; eauto
     |by rewrite lookup_insert_ne by done]).
Qed.

Lemma broadcast_keeps (order : list ClientPtr) (m : ServerMessage.t) (h h' : Hub.t) :
  Hub.broadcast order m h = Ok h' →
  Hub.clients h' ⊆ Hub.clients h ∧
  ∀ q, is_Some (Hub.heap h' !! q) ↔ is_Some (Hub.heap h !! q).
Proof.
  revert h. induction order as [|p rest IH]; intros h; simpl.
  - by intros [= <-].
  - intros (h1 & [Hc1 Hd1]%visit_keeps & [Hc2 Hd2]%IH)%bindRes_Ok.
    split; [by etrans|]. intros q. by rewrite Hd2, Hd1.
Qed.

Lemma unregister_inv (p : ClientPtr) (h h' : Hub.t) :
  Hub.unregister p h = Ok h' →
  h' = h ∨
  ∃ c, Hub.heap h !! p = Some c ∧
       h' = Hub.mk (Hub.clients h ∖ {[p]})
              (<[p := Client.with_send c
                        (Chan.mk (Chan.cap (Client.send c))
                                 (Chan.buf (Client.send c)) true)]> (Hub.heap h)).
Proof.
  unfold Hub.unregister. case_bool_decide; [|intros [= <-]; by left].
  destruct (Hub.heap h !! p) as [c|]; [|done].
  unfold Chan.close. destruct (Chan.closed (Client.send c)); [done|].
  simpl. intros [= <-]. right. by exists c.
Qed.

(** A client that exists and is not registered is never registered again:
    [handleWebSocket] registers only the client it has just allocated. *)
Lemma step_evicted ws (s s' : System.t) (p : ClientPtr) :
  System.step ws s s' →
  is_Some (Hub.heap (System.hub s) !! p) → p ∉ Hub.clients (System.hub s) →
  is_Some (Hub.heap (System.hub s') !! p) ∧ p ∉ Hub.clients (System.hub s').
Proof.
  assert (∀ (q : ClientPtr) (c : Client.t) (heap : gmap ClientPtr Client.t),
            is_Some (heap !! p) → is_Some (<[q := c]> heap !! p)) as Hins.
  { intros q c heap. destruct (decide (p = q)) as [->|];
      [rewrite lookup_insert_eq|rewrite lookup_insert_ne by done]; eauto. }
  intros Hstep Hsome Hout. destruct Hstep; simpl in *.
  - split; [by apply Hins|]. intros [?|Heq%elem_of_singleton]%elem_of_union; [done|].
    subst. rewrite H in Hsome. by destruct Hsome.
  - apply unregister_inv in H as [->|(c & Hc & ->)]; [done|]. simpl.
    split; [by apply Hins|]. rewrite elem_of_difference. tauto.
  - split; [by apply Hins|done].
  - split; [by apply Hins|done].
  - split; [by apply Hins|done].
  - split; [by apply Hins|done].
  - done.
  - apply broadcast_keeps in H2 as [Hc Hd]. split; [by apply Hd|].
    intros Hin. by apply Hout, Hc.
Qed.

Lemma steps_evicted ws (s s' : System.t) (p : ClientPtr) :
  System.steps ws s s' →
  is_Some (Hub.heap (System.hub s) !! p) → p ∉ Hub.clients (System.hub s) →
  is_Some (Hub.heap (System.hub s') !! p) ∧ p ∉ Hub.clients (System.hub s').
Proof.
  induction 1 as [|s1 s2 s3 _ IH Hstep]; [done|].
  intros Hsome Hout. destruct (IH Hsome Hout). by eapply step_evicted.
Qed.

(** ** Registered clients have open queues *)

Lemma offer_closed (m : ServerMessage.t) (c c' : Client.t) (sent : bool) :
  offer m c = Ok (sent, c') →
  Chan.closed (Client.send c') = Chan.closed (Client.send c).
Proof. intros (Hc & _ & _ & _ & Hc' & _)%offer_client. congruence. Qed.

(** Handlers neither open nor close the queue. *)
Lemma handleMessage_closed ws clock c message c' g :
  handleMessage ws clock c message = Ok (c', g) →
  Chan.closed (Client.send c') = Chan.closed (Client.send c).
Proof.
  unfold handleMessage. repeat case_bool_decide.
  - unfold handleSubscribe. destruct (refused ws message).
    + by intros ((sent & c1) & Hoff%offer_closed & [= <- <-])%bindRes_Ok.
    + intros ((sent & c2) & Hoff%offer_closed & Hrest)%bindRes_Ok. simpl in Hoff.
      destruct (wantsSnapshot _); [|by injection Hrest as <- <-].
      unfold handleSnapshot in Hrest.
      destruct (ws ≫= snapshotStreamer); [|by injection Hrest as <- <-].
      apply bindRes_Ok in Hrest as ((sent2 & c3) & Hoff2%offer_closed & Hrest).
      assert (c3 = c') as -> by (destruct sent2; congruence). congruence.
  - unfold handleUnsubscribe.
    intros (c1 & Hun & [= <- <-])%bindRes_Ok. revert Hun.
    destruct (if bool_decide (ClientMessage.SubscriptionID message ≠ "") then _ else _)
      as [[subs success] errorMsg].
    by intros ((sent & c2) & Hoff%offer_closed & [= <-])%bindRes_Ok.
  - unfold handlePing.
    by intros (c1 & ((sent & c2) & Hoff%offer_closed & [= <-])%bindRes_Ok & [= <- <-])%bindRes_Ok.
  - unfold handleHealthWS.
    by intros (c1 & ((sent & c2) & Hoff%offer_closed & [= <-])%bindRes_Ok & [= <- <-])%bindRes_Ok.
  - by intros [= <- <-].
Qed.

Lemma wf_update (h : Hub.t) (p : ClientPtr) (c c' : Client.t) :
  Hub.wf h → Hub.heap h !! p = Some c →
  Chan.closed (Client.send c') = Chan.closed (Client.send c) →
  Hub.wf (Hub.mk (Hub.clients h) (<[p := c']> (Hub.heap h))).
Proof.
  intros Hwf Hc Hclosed q Hq. simpl in *.
  destruct (Hwf q Hq) as (cq & Hcq & Hopen).
  destruct (decide (q = p)) as [->|Hne].
  - rewrite lookup_insert_eq. exists c'. split; [done|]. congruence.
  - rewrite lookup_insert_ne by done. by exists cq.
Qed.

Lemma wf_step ws (s s' : System.t) :
  System.step ws s s' → Hub.wf (System.hub s) → Hub.wf (System.hub s').
Proof.
  intros Hstep Hwf. destruct Hstep; simpl.
  - intros q Hq. simpl in *. destruct (decide (q = p)) as [->|Hne].
    + rewrite lookup_insert_eq. by eexists.
    + rewrite lookup_insert_ne by done. apply Hwf.
      apply elem_of_union in Hq as [?|?%elem_of_singleton]; done.
  - apply unregister_inv in H as [->|(c & Hc & ->)]; [done|].
    intros q Hq. simpl in *.
    apply elem_of_difference in Hq as [Hq Hne%not_elem_of_singleton].
    rewrite lookup_insert_ne by done. by apply Hwf.
  - eapply wf_update; [done..|]. by eapply handleMessage_closed.
  - eapply wf_update; [done..|]. by eapply offer_closed.
  - eapply wf_update; [done..|].
    unfold Chan.recv in H0. destruct (Chan.buf (Client.send c)); [done|].
    by injection H0 as <- <-.
  - eapply wf_update; [done..|].
    unfold Chan.recv in H0. destruct (Chan.buf (Client.send c)); [done|].
    by injection H0 as <- <-.
  - done.
  - destruct (order_NoDup _ _ H1) as [Hnd Hin].
    destruct (broadcast_wf order (BroadcastChange (Some change)) (System.hub s) Hwf Hnd)
      as (h'' & Hrun & Hwf''); [by intros q ?%Hin|].
    rewrite Hrun in H2. by injection H2 as <-.
Qed.

(** In every reachable state the hub is well formed, so that no broadcast
    panics. *)
Lemma wf_reachable ws (databases : list string) (s : System.t) :
  System.steps ws (System.init databases) s → Hub.wf (System.hub s).
Proof.
  assert (∀ s0, System.steps ws s0 s → Hub.wf (System.hub s0) → Hub.wf (System.hub s))
    as Hgen.
  { induction 1 as [|s1 s2 s3 _ IH Hstep]; [done|].
    intros Hwf. eapply wf_step; eauto. }
  intros Hsteps. apply (Hgen _ Hsteps). by intros q ?%elem_of_empty.
Qed.

(** C2. When the broadcast handler finds the queue of a subscribed client
    full, the broadcast ends with that client removed from [h.clients] and
    its queue closed, nothing having been enqueued; from then on the client
    is never in [h.clients] again, so no later broadcast visits it or touches
    its queue.  The hub is taken well formed, which every reachable state is
    ([wf_reachable]). *)
Theorem overflow_unregisters (h : Hub.t) (order : list ClientPtr)
    (m : ServerMessage.t) (p : ClientPtr) (c : Client.t) :
  Hub.wf h →
  order ≡ₚ elements (Hub.clients h) →
  p ∈ Hub.clients h →
  Hub.heap h !! p = Some c →
  Hub.isClientSubscribed c m = true →
  (Chan.cap (Client.send c) ≤ length (Chan.buf (Client.send c)))%nat →
  ∃ h', Hub.broadcast order m h = Ok h' ∧
        (p ∉ Hub.clients h') ∧
        Hub.heap h' !! p =
          Some (Client.with_send c
                  (Chan.mk (Chan.cap (Client.send c)) (Chan.buf (Client.send c)) true)) ∧
        (∀ ws s s', System.hub s = h' → System.steps ws s s' →
           (p ∉ Hub.clients (System.hub s')) ∧
           (∀ order' m' h'',
              order' ≡ₚ elements (Hub.clients (System.hub s')) →
              Hub.broadcast order' m' (System.hub s') = Ok h'' →
              Hub.heap h'' !! p = Hub.heap (System.hub s') !! p ∧
              p ∉ Hub.clients h'')).
Proof.
  intros Hwf Hperm Hp Hc Hsub Hfull.
  destruct (order_NoDup _ _ Hperm) as [Hnd Hin].
  destruct (broadcast_wf order m h Hwf Hnd) as (h' & Hrun & _); [by intros q ?%Hin|].
  exists h'. split; [done|].
  destruct (broadcast_at order m h h' p c Hnd (proj2 (Hin p) Hp) Hrun Hc)
    as [(Hs & _)|[(_ & Hroom & _)|(_ & _ & Hh' & Hout)]]; [congruence|lia|].
  split; [done|]. split; [done|].
  intros ws s s' Hs Hsteps.
  destruct (steps_evicted ws s s' p Hsteps) as [_ Hout']; [rewrite Hs, Hh'; eauto|by rewrite Hs|].
  split; [done|]. intros order' m' h'' Hperm' Hrun'.
  destruct (order_NoDup _ _ Hperm') as [_ Hin'].
  apply (broadcast_other _ _ _ _ p) in Hrun' as [Hheap Hcl]; [|by rewrite Hin'].
  split; [done|]. by rewrite Hcl.
Qed.

(** Scenario 6: the queue of the only subscriber holds 1024 messages when an
    insert into [A.x] is broadcast. *)
Lemma overflow_unregisters_witness :
  ∃ h', Hub.broadcast [1%positive] (BroadcastChange (Some (Scenario.insert "A" "x" "d1")))
          (Scenario.hubWith (Scenario.subscriber 1024)) = Ok h' ∧
        1%positive ∉ Hub.clients h'.
Proof.
  destruct (overflow_unregisters (Scenario.hubWith (Scenario.subscriber 1024))
              [1%positive] (BroadcastChange (Some (Scenario.insert "A" "x" "d1")))
              1%positive (Scenario.subscriber 1024)) as (h' & Hrun & Hout & _).
  - intros q Hq. unfold Scenario.hubWith in *. cbn [Hub.clients Hub.heap] in *.
    apply elem_of_singleton in Hq as ->.
    exists (Scenario.subscriber 1024). split; [apply lookup_singleton_eq|reflexivity].
  - unfold Scenario.hubWith. cbn [Hub.clients]. by rewrite elements_singleton.
  - unfold Scenario.hubWith. cbn [Hub.clients]. by apply elem_of_singleton.
  - apply lookup_singleton_eq.
  - vm_compute. reflexivity.
  - change (1024 ≤ length (replicate 1024 startMsg))%nat.
    rewrite length_replicate. lia.
  - exists h'. split; [exact Hrun|exact Hout].
Defined.

Lemma app_inv_nil {A} (l k : list A) : l = l ++ k → k = [].
Proof.
  intros H. apply (app_inv_head l). by rewrite app_nil_r.
Qed.

Lemma cons_app_absurd {A} (x : A) (l k : list A) : l = (x :: l) ++ k → False.
Proof.
  intros H. apply (f_equal length) in H. rewrite length_app in H. simpl in H. lia.
Qed.

(** What a broadcast of a change event does to one client: nothing, or, for
    a registered client with a matching subscription, the message at the back
    of its queue. *)
Lemma broadcast_delivers (h h' : Hub.t) (order : list ClientPtr) (change : ChangeEvent.t)
    (p : ClientPtr) (c' : Client.t) :
  order ≡ₚ elements (Hub.clients h) →
  Hub.broadcast order (BroadcastChange (Some change)) h = Ok h' →
  Hub.heap h' !! p = Some c' →
  ∃ c, Hub.heap h !! p = Some c ∧
    (Chan.buf (Client.send c') = Chan.buf (Client.send c) ∨
     (Chan.buf (Client.send c') =
        Chan.buf (Client.send c) ++ [BroadcastChange (Some change)] ∧
      p ∈ Hub.clients h ∧
      ∃ id sub, Client.subscriptions c !! id = Some sub ∧
        Subscription.Database sub = ChangeEvent.Database change ∧
        (Subscription.Collection sub = "" ∨
         Subscription.Collection sub = ChangeEvent.Collection change))).
Proof.
  intros Hperm Hrun Hc'.
  destruct (order_NoDup _ _ Hperm) as [Hnd Hin].
  destruct (broadcast_keeps _ _ _ _ Hrun) as [_ Hdom].
  destruct (proj1 (Hdom p)) as [c Hc]; [by eauto|]. exists c. split; [done|].
  destruct (decide (p ∈ order)) as [Hp|Hp].
  - destruct (broadcast_at order _ h h' p c Hnd Hp Hrun Hc)
      as [(_ & Hh & _)|[(Hs & _ & Hh & _)|(_ & _ & Hh & _)]];
      rewrite Hh in Hc'; injection Hc' as <-; simpl; auto.
    right. split; [done|]. split; [by apply Hin|].
    by apply isClientSubscribed_change.
  - destruct (broadcast_other _ _ _ _ p Hrun Hp) as [Hh _].
    left. congruence.
Qed.

(** C10. The broadcast path carries change events only, and only to clients
    with a matching subscription: the message [BroadcastChange] puts on the
    broadcast channel has type "change" and carries the event; the broadcast
    of it leaves every client's queue as it was or, for a registered client
    holding a subscription with the same database and the same collection or
    collection "", appends the message; and in any step of the server a
    message with a change event that is added to a client's queue is such a
    broadcast message for a matching subscription, the handlers and the
    snapshot tasks adding only messages without change event to the queue of
    their own client. *)
Theorem broadcast_only_changes_to_subscribers :
  (∀ change,
     ServerMessage.Type' (BroadcastChange (Some change)) = "change" ∧
     ServerMessage.Change (BroadcastChange (Some change)) = Some change) ∧
  (∀ h h' order change p c',
     order ≡ₚ elements (Hub.clients h) →
     Hub.broadcast order (BroadcastChange (Some change)) h = Ok h' →
     Hub.heap h' !! p = Some c' →
     ∃ c, Hub.heap h !! p = Some c ∧
       (Chan.buf (Client.send c') = Chan.buf (Client.send c) ∨
        (Chan.buf (Client.send c') =
           Chan.buf (Client.send c) ++ [BroadcastChange (Some change)] ∧
         p ∈ Hub.clients h ∧
         ∃ id sub, Client.subscriptions c !! id = Some sub ∧
           Subscription.Database sub = ChangeEvent.Database change ∧
           (Subscription.Collection sub = "" ∨
            Subscription.Collection sub = ChangeEvent.Collection change)))) ∧
  (∀ ws s s' p c c' l r change,
     System.step ws s s' →
     Hub.heap (System.hub s) !! p = Some c →
     Hub.heap (System.hub s') !! p = Some c' →
     Chan.buf (Client.send c') = Chan.buf (Client.send c) ++ l →
     r ∈ l → ServerMessage.Change r = Some change →
     r = BroadcastChange (Some change) ∧
     p ∈ Hub.clients (System.hub s) ∧
     ∃ id sub, Client.subscriptions c !! id = Some sub ∧
       Subscription.Database sub = ChangeEvent.Database change ∧
       (Subscription.Collection sub = "" ∨
        Subscription.Collection sub = ChangeEvent.Collection change)).
Proof.
  split; [done|]. split; [exact broadcast_delivers|].
  intros ws s s' p c c' l r change Hstep Hc Hc' Hl Hr Hchange.
  destruct Hstep; simpl in *.
  - (* connect *)
    assert (p ≠ p0) as Hne by (intros ->; congruence).
    rewrite lookup_insert_ne in Hc' by done.
    assert (c' = c) as -> by congruence.
    apply app_inv_nil in Hl as ->. by apply elem_of_nil in Hr.
  - (* unregister *)
    apply unregister_inv in H as [->|(c0 & Hc0 & ->)]; simpl in *.
    + assert (c' = c) as -> by congruence.
      apply app_inv_nil in Hl as ->. by apply elem_of_nil in Hr.
    + destruct (decide (p = p0)) as [->|Hne].
      * rewrite lookup_insert_eq in Hc'. injection Hc' as <-.
        assert (c0 = c) as -> by congruence. simpl in Hl.
        apply app_inv_nil in Hl as ->. by apply elem_of_nil in Hr.
      * rewrite lookup_insert_ne in Hc' by done.
        assert (c' = c) as -> by congruence.
        apply app_inv_nil in Hl as ->. by apply elem_of_nil in Hr.
  - (* request *)
    destruct (decide (p = p0)) as [->|Hne].
    + rewrite lookup_insert_eq in Hc'. injection Hc' as <-.
      assert (c0 = c) as -> by congruence.
      apply handleMessage_offers in H0 as (l0 & Hg & Hsub).
      unfold grows in Hg. rewrite Hg in Hl. apply app_inv_head in Hl as <-.
      eapply elem_of_sublist in Hr; [|exact Hsub].
      apply handlerOffers_no_change in Hr. congruence.
    + rewrite lookup_insert_ne in Hc' by done.
      assert (c' = c) as -> by congruence.
      apply app_inv_nil in Hl as ->. by apply elem_of_nil in Hr.
  - (* snapshot *)
    destruct (decide (p = p0)) as [->|Hne].
    + rewrite lookup_insert_eq in Hc'. injection Hc' as <-.
      assert (c0 = c) as -> by congruence.
      apply offer_grows in H1. unfold grows in H1. rewrite H1 in Hl.
      apply app_inv_head in Hl as <-.
      destruct sent; [|by apply elem_of_nil in Hr].
      apply list_elem_of_singleton in Hr as ->. congruence.
    + rewrite lookup_insert_ne in Hc' by done.
      assert (c' = c) as -> by congruence.
      apply app_inv_nil in Hl as ->. by apply elem_of_nil in Hr.
  - (* write *)
    destruct (decide (p = p0)) as [->|Hne].
    + rewrite lookup_insert_eq in Hc'. injection Hc' as <-.
      assert (c0 = c) as -> by congruence.
      unfold Chan.recv in H0. destruct (Chan.buf (Client.send c)) as [|x rest] eqn:Hbuf;
        [done|]. injection H0 as <- <-. simpl in Hl.
      by apply cons_app_absurd in Hl.
    + rewrite lookup_insert_ne in Hc' by done.
      assert (c' = c) as -> by congruence.
      apply app_inv_nil in Hl as ->. by apply elem_of_nil in Hr.
  - (* write failed *)
    destruct (decide (p = p0)) as [->|Hne].
    + rewrite lookup_insert_eq in Hc'. injection Hc' as <-.
      assert (c0 = c) as -> by congruence.
      unfold Chan.recv in H0. destruct (Chan.buf (Client.send c)) as [|x rest] eqn:Hbuf;
        [done|]. injection H0 as <- <-. simpl in Hl.
      by apply cons_app_absurd in Hl.
    + rewrite lookup_insert_ne in Hc' by done.
      assert (c' = c) as -> by congruence.
      apply app_inv_nil in Hl as ->. by apply elem_of_nil in Hr.
  - (* produce *)
    assert (c' = c) as -> by congruence.
    apply app_inv_nil in Hl as ->. by apply elem_of_nil in Hr.
  - (* forward *)
    destruct (broadcast_delivers _ _ _ _ p c' H1 H2 Hc') as (c0 & Hc0 & Hcases).
    assert (c0 = c) as -> by congruence.
    destruct Hcases as [Hsame|(Hmore & Hp & Hmatch)].
    + rewrite Hsame in Hl. apply app_inv_nil in Hl as ->. by apply elem_of_nil in Hr.
    + rewrite Hmore in Hl. apply app_inv_head in Hl as <-.
      apply list_elem_of_singleton in Hr as ->. simpl in Hchange.
      injection Hchange as <-. done.
Qed.

(** Scenario 3: the insert into [A.x] reaches the subscriber of [A.x]. *)
Lemma broadcast_only_changes_to_subscribers_witness :
  ∃ c, Hub.heap (Scenario.hubWith (Scenario.subscriber 0)) !! 1%positive = Some c ∧
    (Chan.buf (Client.send (Client.with_send (Scenario.subscriber 0)
        (Chan.mk 1024 [BroadcastChange (Some (Scenario.insert "A" "x" "d1"))] false)))
       = Chan.buf (Client.send c) ∨
     (Chan.buf (Client.send (Client.with_send (Scenario.subscriber 0)
        (Chan.mk 1024 [BroadcastChange (Some (Scenario.insert "A" "x" "d1"))] false)))
        = Chan.buf (Client.send c) ++ [BroadcastChange (Some (Scenario.insert "A" "x" "d1"))] ∧
      1%positive ∈ Hub.clients (Scenario.hubWith (Scenario.subscriber 0)) ∧
      ∃ id sub, Client.subscriptions c !! id = Some sub ∧
        Subscription.Database sub = "A" ∧
        (Subscription.Collection sub = "" ∨ Subscription.Collection sub = "x"))).
Proof.
  apply (proj1 (proj2 broadcast_only_changes_to_subscribers)
           (Scenario.hubWith (Scenario.subscriber 0))
           (Hub.mk {[1%positive]}
              {[1%positive := Client.with_send (Scenario.subscriber 0)
                  (Chan.mk 1024 [BroadcastChange (Some (Scenario.insert "A" "x" "d1"))] false)]})
           [1%positive] (Scenario.insert "A" "x" "d1") 1%positive).
  - unfold Scenario.hubWith. simpl. by rewrite elements_singleton.
  - by vm_compute.
  - done.
Defined.

(** ** Ordering of change events *)






















(** A run of the server: a client connects and subscribes to [A.x], the
    ingestor of [A] produces an insert, the hub broadcasts it and the writer
    writes the ack and the change. *)
Lemma scenario_run :
  ∃ s, System.steps (Scenario.server (Scenario.store Scenario.three))
         (System.init ["A"]) s ∧
       System.written s 1%positive
       = [subscribeAck (Scenario.subscribe "A" "x" "r3" None) "sub-1";
          BroadcastChange (Some (Scenario.insert "A" "x" "d1"))] ∧
       System.producedBy s "A" = [Scenario.insert "A" "x" "d1"].
Proof.
  eexists. split.
  { eapply System.steps_step; [eapply System.steps_step; [eapply System.steps_step;
      [eapply System.steps_step; [eapply System.steps_step; [eapply System.steps_step;
        [apply System.steps_refl|]|]|]|]|]|].
    - apply (System.step_connect _ _ 1%positive "client-1"). reflexivity.
    - eapply (System.step_request _ _ 1%positive (Client.new "client-1")
               (Scenario.subscribe "A" "x" "r3" None) Scenario.clock).
      + reflexivity.
      + reflexivity.
    - eapply (System.step_produce _ _ 0%nat (Ingestor.new "A")
               (Scenario.insert "A" "x" "d1")).
      + reflexivity.
      + reflexivity.
      + reflexivity.
    - eapply (System.step_forward _ _ 0%nat _ (Scenario.insert "A" "x" "d1") _
               [1%positive]).
      + reflexivity.
      + reflexivity.
      + by vm_compute.
      + reflexivity.
    - eapply (System.step_write _ _ 1%positive).
      + reflexivity.
      + reflexivity.
    - eapply (System.step_write _ _ 1%positive).
      + reflexivity.
      + reflexivity. }
  split; by vm_compute.
Qed.

(** The state a run has reached, evaluated. *)
Ltac evaluate_state H :=
  match type of H with
  | System.steps ?ws ?s0 ?s =>
      let s' := eval vm_compute in s in change (System.steps ws s0 s') in H
  end.

(** One more step of a run. *)
Tactic Notation "run_step" hyp(H) uconstr(step) :=
  eapply System.steps_step in H; [|eapply step; reflexivity]; evaluate_state H.





(** * Further properties *)

(** ** The origin check *)

Lemma HasPrefix_app (s prefix : string) :
  HasPrefix s prefix = true ↔ ∃ post, s = prefix +:+ post.
Proof.
  revert s. induction prefix as [|a prefix IH]; intros s; simpl.
  - split; [by exists s|done].
  - destruct s as [|b s].
    + split; [done|]. by intros [post ?].
    + rewrite andb_true_iff, bool_decide_eq_true, IH. split.
      * intros [-> [post ->]]. by exists post.
      * intros [post [= -> ->]]. eauto.
Qed.

(** The executable [strings.Contains] decides [Contains]. *)
Lemma strings_Contains_spec (s substr : string) :
  strings_Contains s substr = true ↔ Contains s substr.
Proof.
  unfold Contains. induction s as [|a s IH]; simpl.
  - rewrite orb_false_r, HasPrefix_app. split.
    + intros [post ->]. by exists "", post.
    + intros (pre & post & H). destruct pre; [by exists post|done].
  - rewrite orb_true_iff, HasPrefix_app, IH. split.
    + intros [[post ->]|(pre & post & ->)]; [by exists "", post|].
      by exists (String a pre), post.
    + intros (pre & post & H). destruct pre as [|b pre]; simpl in H.
      * left. by exists post.
      * right. injection H as -> ->. by exists pre, post.
Qed.

Lemma Split_nonempty (s : string) (sep : Ascii.ascii) : Split s sep ≠ [].
Proof.
  induction s as [|a s IH]; simpl; [done|].
  case_bool_decide; [done|]. by destruct (Split s sep).
Qed.

(** Joining the fields of a split gives the string back. *)
Lemma Join_Split (s : string) (sep : Ascii.ascii) : Join (Split s sep) sep = s.
Proof.
  induction s as [|a s IH]; simpl; [done|].
  pose proof (Split_nonempty s sep) as Hne.
  case_bool_decide as Ha.
  - subst a. simpl. destruct (Split s sep) as [|f fs] eqn:Hs; [done|].
    by rewrite IH.
  - destruct (Split s sep) as [|f fs] eqn:Hs; [done|].
    destruct fs as [|g fs]; simpl in *; by rewrite <- IH.
Qed.

(** No field of a split holds the separator. *)
Lemma Split_fields (s : string) (sep : Ascii.ascii) (field : string) :
  field ∈ Split s sep → ¬ Contains field (String sep "").
Proof.
  revert field. induction s as [|a s IH]; intros field; simpl.
  - intros ->%list_elem_of_singleton (pre & post & H). by destruct pre.
  - pose proof (Split_nonempty s sep) as Hne.
    case_bool_decide as Ha.
    + intros [->|Hin]%elem_of_cons; [|by apply IH].
      intros (pre & post & H). by destruct pre.
    + destruct (Split s sep) as [|f fs] eqn:Hs; [done|].
      intros [->|Hin]%elem_of_cons.
      * intros (pre & post & H). destruct pre as [|b pre]; simpl in H.
        -- by injection H as Hab _.
        -- injection H as _ Hf. apply (IH f); [left|]. by exists pre, post.
      * apply IH. by right.
Qed.

(** A string that ends with the separator has an empty last field. *)
Lemma Split_trailing (s : string) (sep : Ascii.ascii) :
  Split (s +:+ String sep "") sep = Split s sep ++ [""].
Proof.
  induction s as [|a s IH]; simpl.
  - by rewrite bool_decide_eq_true_2.
  - rewrite IH. case_bool_decide; [done|].
    pose proof (Split_nonempty s sep). by destruct (Split s sep).
Qed.

Lemma CutPrefix_length (s prefix s' : string) :
  CutPrefix s prefix = Some s' →
  (String.length s = String.length prefix + String.length s')%nat.
Proof.
  revert s. induction prefix as [|a prefix IH]; intros s; simpl.
  - by intros [= ->].
  - destruct s as [|b s]; [done|]. case_bool_decide; [|done].
    intros ?%IH. simpl. lia.
Qed.

Lemma cutAny_length (patterns : list string) (s s' : string) :
  Forall (λ p, p ≠ "") patterns →
  cutAny patterns s = Some s' → (String.length s' < String.length s)%nat.
Proof.
  induction 1 as [|p ps Hp _ IH]; simpl; [done|].
  destruct (CutPrefix s p) as [r|] eqn:Hc; [|done].
  intros [= ->]. apply CutPrefix_length in Hc. destruct p; [done|]. simpl in Hc. lia.
Qed.

(** The fuel of [trimLeft] is enough: nothing is left to cut. *)
Lemma trimLeft_done (patterns : list string) (fuel : nat) (s : string) :
  Forall (λ p, p ≠ "") patterns →
  (String.length s ≤ fuel)%nat →
  cutAny patterns (trimLeft patterns fuel s) = None.
Proof.
  intros Hps. revert s. induction fuel as [|fuel IH]; intros s Hlen; simpl.
  - destruct (cutAny patterns s) eqn:Hc; [|done].
    apply cutAny_length in Hc; [lia|done].
  - destruct (cutAny patterns s) as [s'|] eqn:Hc; [|done].
    apply IH. apply cutAny_length in Hc; [lia|done].
Qed.

Lemma whiteSpace_nonempty : Forall (λ p, p ≠ "") whiteSpace.
Proof. unfold whiteSpace. repeat (constructor; [done|]). constructor. Qed.

Lemma existsb_bool_decide {A} `{EqDecision A} (f : A → A) (x : A) (l : list A) :
  existsb (λ y, bool_decide (f y = x)) l = true ↔ x ∈ f <$> l.
Proof.
  rewrite existsb_exists, list_elem_of_fmap. split.
  - intros (y & Hy%list_elem_of_In & Heq%bool_decide_eq_true). eauto.
  - intros (y & -> & Hy). exists y. split; [by apply list_elem_of_In|].
    by apply bool_decide_eq_true.
Qed.

(** X1. In production an origin is accepted exactly when
    [AKTUELL_ALLOWED_ORIGINS] is set and lists it. *)
Theorem checkOrigin_production (env : gmap string string) (origin : string) :
  Getenv env "AKTUELL_ENV" = "production" →
  (checkOrigin env origin = true ↔ origin ∈ customOrigins env) ∧
  (Getenv env "AKTUELL_ALLOWED_ORIGINS" = "" → checkOrigin env origin = false).
Proof.
  intros Henv.
  assert (checkOrigin env origin = true ↔ origin ∈ customOrigins env) as Hiff.
  { unfold checkOrigin, customOrigins, getDefaultAllowedOrigins. rewrite Henv. simpl.
    destruct (decide (Getenv env "AKTUELL_ALLOWED_ORIGINS" = "")) as [He|He].
    - rewrite He. simpl. rewrite elem_of_nil. done.
    - rewrite (bool_decide_eq_true_2 _ He), (bool_decide_eq_false_2 _ He). simpl.
      rewrite <- existsb_bool_decide.
      destruct (existsb _ _); [done|]. simpl. done. }
  split; [exact Hiff|].
  intros He. apply not_true_is_false. rewrite Hiff. unfold customOrigins.
  rewrite bool_decide_eq_true_2 by done. apply not_elem_of_nil.
Qed.

Lemma checkOrigin_production_witness :
  checkOrigin {["AKTUELL_ENV" := "production";
                "AKTUELL_ALLOWED_ORIGINS" := " https://myapp.com , https://dashboard.myapp.com "]}
    "https://myapp.com" = true.
Proof.
  apply checkOrigin_production; [by vm_compute|].
  vm_compute. left.
Defined.

(** X2. Outside production an origin is accepted exactly when it is empty,
    holds [localhost] or [127.0.0.1] anywhere, or is listed by
    [AKTUELL_ALLOWED_ORIGINS]; the default origins add nothing. *)
Theorem checkOrigin_development (env : gmap string string) (origin : string) :
  Getenv env "AKTUELL_ENV" ≠ "production" →
  checkOrigin env origin = true ↔
    origin = "" ∨ Contains origin "localhost" ∨ Contains origin "127.0.0.1" ∨
    origin ∈ customOrigins env.
Proof.
  intros Henv. unfold checkOrigin, customOrigins, getDefaultAllowedOrigins.
  rewrite (bool_decide_eq_true_2 _ Henv), (bool_decide_eq_false_2 _ Henv).
  rewrite <- !strings_Contains_spec. simpl.
  destruct (bool_decide (origin = "")) eqn:He.
  { apply bool_decide_eq_true in He. simpl. tauto. }
  apply bool_decide_eq_false in He. simpl.
  destruct (strings_Contains origin "localhost") eqn:Hl; [simpl; tauto|].
  destruct (strings_Contains origin "127.0.0.1") eqn:Hi; [simpl; tauto|]. simpl.
  destruct (decide (Getenv env "AKTUELL_ALLOWED_ORIGINS" = "")) as [Hc|Hc].
  - rewrite Hc. simpl. rewrite elem_of_nil.
    repeat case_bool_decide; simplify_eq; try (vm_compute in Hl; discriminate);
      simpl; intuition discriminate.
  - rewrite (bool_decide_eq_true_2 _ Hc), (bool_decide_eq_false_2 _ Hc). simpl.
    rewrite <- existsb_bool_decide.
    destruct (existsb _ (Split _ _)); [tauto|].
    repeat case_bool_decide; simplify_eq; try (vm_compute in Hl; discriminate);
      simpl; intuition discriminate.
Qed.

Lemma checkOrigin_development_witness :
  checkOrigin ∅ "https://localhost.evil.com" = true.
Proof.
  apply (checkOrigin_development ∅ "https://localhost.evil.com"); [by vm_compute|].
  right; left. by exists "https://", ".evil.com".
Defined.

(** X3. In production a list that ends with a comma has an empty last
    entry, which accepts the requests that carry no [Origin] header. *)
Theorem checkOrigin_trailing_comma (env : gmap string string) (origins : string) :
  Getenv env "AKTUELL_ENV" = "production" →
  Getenv env "AKTUELL_ALLOWED_ORIGINS" = origins +:+ "," →
  checkOrigin env "" = true.
Proof.
  intros Henv Hc. apply (checkOrigin_production env "" Henv).
  unfold customOrigins. rewrite Hc.
  rewrite bool_decide_eq_false_2 by (by destruct origins).
  rewrite Split_trailing, fmap_app. apply elem_of_app. right.
  by apply list_elem_of_singleton.
Qed.

Lemma checkOrigin_trailing_comma_witness :
  checkOrigin {["AKTUELL_ENV" := "production";
                "AKTUELL_ALLOWED_ORIGINS" := "https://myapp.com,"]} "" = true.
Proof.
  apply (checkOrigin_trailing_comma _ "https://myapp.com"); by vm_compute.
Defined.

(** ** The validator and the managers *)

(** X4. [IsValidSubscription] is decided by the first configuration that
    carries the database name: a pair is valid exactly when that
    configuration lists no collection or lists the collection.  Later
    configurations of the same name are not consulted. *)
Theorem IsValidSubscription_first_config (m : MultiDBManager.t)
    (database collection : string) :
  MultiDBManager.IsValidSubscription m database collection = true ↔
  ∃ dbConfig, head (configsOf (MultiDBManager.dbConfigs m) database) = Some dbConfig ∧
    (DatabaseConfig.Collections dbConfig = [] ∨
     collection ∈ DatabaseConfig.Collections dbConfig).
Proof.
  unfold MultiDBManager.IsValidSubscription, configsOf.
  induction (MultiDBManager.dbConfigs m) as [|cfg configs IH]; simpl.
  - split; [done|]. by intros (? & [=] & _).
  - rewrite filter_cons. case_bool_decide as Hname.
    + rewrite decide_True by done. simpl.
      case_bool_decide as Hlen.
      * split; [|done]. intros _. exists cfg. split; [done|]. left.
        by apply length_zero_iff_nil.
      * rewrite collectionConfigured_elem. split.
        -- intros Hin. exists cfg. auto.
        -- intros (? & [= <-] & [Hnil|Hin]); [|done].
           rewrite Hnil in Hlen. done.
    + by rewrite decide_False by done.
Qed.

(** A valid pair names a configured database. *)
Lemma validIn_configured (configs : list DatabaseConfig.t) (database collection : string) :
  MultiDBManager.validIn configs database collection = true →
  configsOf configs database ≠ [].
Proof.
  unfold configsOf. induction configs as [|cfg configs IH]; simpl; [done|].
  rewrite filter_cons. case_bool_decide as Hname.
  - by rewrite decide_True by done.
  - by rewrite decide_False by done.
Qed.

(** A database that is valid with the empty collection name and is
    configured without that name is valid with every collection. *)
Lemma validIn_wildcard (configs : list DatabaseConfig.t) (database collection : string) :
  (∀ dbConfig, dbConfig ∈ configs → "" ∉ DatabaseConfig.Collections dbConfig) →
  MultiDBManager.validIn configs database "" = true →
  MultiDBManager.validIn configs database collection = true.
Proof.
  induction configs as [|cfg configs IH]; simpl; [done|]. intros Hnames.
  case_bool_decide as Hname.
  - case_bool_decide as Hlen; [done|].
    intros Hin%collectionConfigured_elem. exfalso.
    by apply (Hnames cfg); [left|].
  - apply IH. intros dbConfig Hin. apply Hnames. by right.
Qed.

Lemma Start_managers_foldl (connect : string → Database.t)
    (dbConfigs : list DatabaseConfig.t) (ms : gmap string Manager.t) (database : string) :
  foldl (λ ms dbConfig,
           <[DatabaseConfig.Name dbConfig :=
               Manager.mk (connect (DatabaseConfig.Name dbConfig))
                          (DatabaseConfig.Collections dbConfig)]> ms) ms dbConfigs
    !! database
  = match last (configsOf dbConfigs database) with
    | Some dbConfig =>
        Some (Manager.mk (connect database) (DatabaseConfig.Collections dbConfig))
    | None => ms !! database
    end.
Proof.
  revert ms. induction dbConfigs as [|cfg configs IH]; intros ms; simpl; [done|].
  rewrite IH. unfold configsOf. rewrite filter_cons.
  destruct (decide (DatabaseConfig.Name cfg = database)) as [Hname|Hname].
  - destruct (filter _ configs) as [|x xs] eqn:Hf; simpl.
    + by rewrite <- Hname, lookup_insert_eq.
    + destruct (last (x :: xs)) eqn:Hl; [done|]. by apply last_None in Hl.
  - destruct (last (filter _ configs)); [done|]. by rewrite lookup_insert_ne.
Qed.

(** X5. After [Start] a database has a manager exactly when some
    configuration carries its name; the manager works on the instance opened
    for that name and watches the collections of the last such
    configuration. *)
Theorem Start_managers (connect : string → Database.t)
    (dbConfigs : list DatabaseConfig.t) (database : string) :
  MultiDBManager.managers (MultiDBManager.Start connect (MultiDBManager.new dbConfigs))
    !! database
  = (λ dbConfig, Manager.mk (connect database) (DatabaseConfig.Collections dbConfig))
      <$> last (configsOf dbConfigs database).
Proof.
  unfold MultiDBManager.Start, MultiDBManager.new. simpl.
  rewrite Start_managers_foldl. by destruct (last _).
Qed.

(** X6. Once started, the manager streams the snapshot of every pair it
    accepts as a validator from the instance of that database, and answers
    a database no configuration names with the one error call. *)
Theorem valid_subscription_has_manager {W} (connect : string → Database.t)
    (dbConfigs : list DatabaseConfig.t) (database collection : string)
    (snapOpts : option SnapshotOptions.t) (callback : Callback W) (w : W) :
  let m := MultiDBManager.Start connect (MultiDBManager.new dbConfigs) in
  (MultiDBManager.IsValidSubscription m database collection = true →
   MultiDBManager.StreamSnapshot m W database collection snapOpts callback w
   = Database.StreamSnapshot (connect database) W collection snapOpts callback w) ∧
  (configsOf dbConfigs database = [] →
   MultiDBManager.IsValidSubscription m database collection = false ∧
   MultiDBManager.StreamSnapshot m W database collection snapOpts callback w
   = callback [] 0 0 (Some ("database '" +:+ database +:+ "' is not configured")) w).
Proof.
  intros m. split.
  - intros Hconf%validIn_configured.
    unfold MultiDBManager.StreamSnapshot. subst m. simpl in *.
    rewrite Start_managers_foldl.
    destruct (configsOf dbConfigs database) as [|x xs] eqn:Hc; [done|].
    destruct (last (x :: xs)) eqn:Hl; [done|].
    by apply last_None in Hl.
  - intros Hnone. split.
    + apply not_true_is_false. by intros Hconf%validIn_configured.
    + unfold MultiDBManager.StreamSnapshot. subst m. simpl.
      by rewrite Start_managers_foldl, Hnone.
Qed.

Lemma valid_subscription_has_manager_witness :
  MultiDBManager.StreamSnapshot (Scenario.manager (Scenario.store Scenario.three))
    Observed "A" "x" (Scenario.withSnapshot 0 2) snapshotCallback
    {| verdicts := []; accepted := [] |}
  = Database.StreamSnapshot (Scenario.store Scenario.three) Observed "x"
      (Scenario.withSnapshot 0 2) snapshotCallback {| verdicts := []; accepted := [] |}.
Proof.
  apply (proj1 (valid_subscription_has_manager (λ _, Scenario.store Scenario.three)
                  Scenario.configs "A" "x" (Scenario.withSnapshot 0 2) snapshotCallback
                  {| verdicts := []; accepted := [] |})).
  reflexivity.
Defined.

(** ** The request handlers *)

Lemma handleSnapshot_inv ws c subscription c' g :
  handleSnapshot ws c subscription = Ok (c', Some g) →
  ws ≫= snapshotStreamer = Some (g_streamer g) ∧
  g_subscription g = subscription ∧
  Client.subscriptions c' = Client.subscriptions c ∧
  Chan.buf (Client.send c') = Chan.buf (Client.send c) ++ [startMsg].
Proof.
  unfold handleSnapshot. destruct (ws ≫= snapshotStreamer) as [streamer|]; [|done].
  intros ((sent & c1) & Hoffer & Hrest)%bindRes_Ok.
  destruct sent; [|done]. injection Hrest as <- <-.
  apply offer_client in Hoffer as (_ & Hsubs & _ & _ & _ & [(_ & _ & Hbuf)|(? & _)]);
    [done|discriminate].
Qed.

(** X7. A snapshot goroutine is started only by a subscribe request that was
    accepted, asks for a snapshot and found a streamer installed; it is
    started for the subscription just recorded, with the options of the
    request (never without options), and after [snapshot_start] was
    enqueued as the last message of the queue. *)
Theorem snapshot_started_only_when_requested (ws : option WebSocketServer) (clock : Clock)
    (c c' : Client.t) (message : ClientMessage.t) (g : SnapshotGoroutine) :
  handleMessage ws clock c message = Ok (c', Some g) →
  ClientMessage.Type' message = MessageTypeSubscribe ∧
  refused ws message = false ∧
  (∃ o, ClientMessage.SnapshotOptions message = Some o ∧
        SnapshotOptions.IncludeSnapshot o = true) ∧
  ws ≫= snapshotStreamer = Some (g_streamer g) ∧
  g_subscription g = subscriptionFor clock c message ∧
  Client.subscriptions c' !! uuid_New clock = Some (g_subscription g) ∧
  ∃ front, Chan.buf (Client.send c') = front ++ [startMsg].
Proof.
  unfold handleMessage.
  case_bool_decide as Hty.
  2:{ repeat case_bool_decide; try done;
      by intros (? & _ & [=])%bindRes_Ok. }
  unfold handleSubscribe.
  destruct (refused ws message) eqn:Href.
  { by intros ((? & ?) & _ & [=])%bindRes_Ok. }
  intros ((sent & c2) & Hoffer & Hrest)%bindRes_Ok.
  unfold wantsSnapshot in Hrest. simpl in Hrest.
  destruct (ClientMessage.SnapshotOptions message) as [o|] eqn:Ho; [|done].
  destruct (SnapshotOptions.IncludeSnapshot o) eqn:Hinc; [|done].
  apply handleSnapshot_inv in Hrest as (Hstr & Hsub & Hsubs & Hbuf).
  apply offer_client in Hoffer as (_ & Hsubs2 & Hid & _).
  simpl in Hsubs2.
  repeat split; try done.
  - by exists o.
  - rewrite Hsub. unfold subscriptionFor. by rewrite Ho.
  - rewrite Hsubs, Hsubs2, Hsub. by rewrite lookup_insert_eq.
  - eauto.
Qed.

Lemma snapshot_started_only_when_requested_witness :
  ∃ front, Chan.buf (Client.send
    (Client.mk "client-1"
       (Chan.mk 1024 [subscribeAck (Scenario.subscribe "A" "x" "r4" (Scenario.withSnapshot 0 2))
                        "sub-1"; startMsg] false)
       {["sub-1" := Subscription.mk "sub-1" "client-1" "A" "x" 0 (Scenario.withSnapshot 0 2)]}
       false)) = front ++ [startMsg].
Proof.
  eapply (snapshot_started_only_when_requested
            (Scenario.server (Scenario.store Scenario.three)) Scenario.clock
            (Client.new "client-1") _
            (Scenario.subscribe "A" "x" "r4" (Scenario.withSnapshot 0 2))
            {| g_streamer := MultiDBManager.asStreamer
                               (Scenario.manager (Scenario.store Scenario.three));
               g_subscription := Subscription.mk "sub-1" "client-1" "A" "x" 0
                                   (Scenario.withSnapshot 0 2) |}).
  reflexivity.
Defined.

(** An offer on an open queue does not panic. *)
Lemma offer_open (m : ServerMessage.t) (c : Client.t) :
  Chan.closed (Client.send c) = false →
  ∃ sent c', offer m c = Ok (sent, c').
Proof.
  intros Hopen.
  destruct (decide (length (Chan.buf (Client.send c)) < Chan.cap (Client.send c))%nat).
  - rewrite offer_client_room by done. eauto.
  - rewrite offer_client_full by (done || lia). eauto.
Qed.

(** An offer on a closed queue panics. *)
Lemma offer_on_closed (m : ServerMessage.t) (c : Client.t) :
  Chan.closed (Client.send c) = true →
  offer m c = Panic "send on closed channel".
Proof. intros Hcl. unfold offer, Client_Outbound, Chan.trySend. by rewrite Hcl. Qed.

(** What holds of the queue before a handler runs and is kept by every
    successful send holds after it. *)
Lemma handleMessage_send_ind (P : Chan.t ServerMessage.t → Prop) ws clock c message c' g :
  (∀ ch m ch', P ch → Chan.trySend ch m = Chan.Sent ch' → P ch') →
  handleMessage ws clock c message = Ok (c', g) →
  P (Client.send c) → P (Client.send c').
Proof.
  intros Hsend.
  assert (∀ m (c1 c2 : Client.t) sent, offer m c1 = Ok (sent, c2) →
            P (Client.send c1) → P (Client.send c2)) as Hoffer.
  { intros m c1 c2 sent. unfold offer, Client_Outbound.
    destruct (Chan.trySend (Client.send c1) m) as [ch| |] eqn:Hs; [| |done].
    - intros [= <- <-] HP. simpl. eauto.
    - by intros [= <- <-]. }
  unfold handleMessage. repeat case_bool_decide.
  - unfold handleSubscribe. destruct (refused ws message).
    + intros ((sent & c1) & Hoff & [= <- <-])%bindRes_Ok. eauto.
    + intros ((sent & c2) & Hoff & Hrest)%bindRes_Ok HP.
      apply Hoffer in Hoff; [|done].
      destruct (wantsSnapshot _); [|by injection Hrest as <- <-].
      unfold handleSnapshot in Hrest.
      destruct (ws ≫= snapshotStreamer); [|by injection Hrest as <- <-].
      apply bindRes_Ok in Hrest as ((sent2 & c3) & Hoff2 & Hrest).
      assert (c3 = c') as -> by (destruct sent2; congruence). eauto.
  - unfold handleUnsubscribe.
    intros (c1 & Hun & [= <- <-])%bindRes_Ok. revert Hun.
    destruct (if bool_decide (ClientMessage.SubscriptionID message ≠ "") then _ else _)
      as [[subs success] errorMsg].
    intros ((sent & c2) & Hoff & [= <-])%bindRes_Ok. eauto.
  - unfold handlePing.
    intros (c1 & ((sent & c2) & Hoff & [= <-])%bindRes_Ok & [= <- <-])%bindRes_Ok. eauto.
  - unfold handleHealthWS.
    intros (c1 & ((sent & c2) & Hoff & [= <-])%bindRes_Ok & [= <- <-])%bindRes_Ok. eauto.
  - by intros [= <- <-].
Qed.

(** A handler on an open queue does not panic. *)
Lemma handleMessage_open ws clock c message :
  Chan.closed (Client.send c) = false →
  ∃ c' g, handleMessage ws clock c message = Ok (c', g).
Proof.
  intros Hopen. unfold handleMessage. repeat case_bool_decide.
  - unfold handleSubscribe. destruct (refused ws message).
    + destruct (offer_open (invalidSubscriptionMsg message) c Hopen) as (sent & c1 & ->).
      simpl. eauto.
    + match goal with |- context [offer ?m ?c0] =>
        destruct (offer_open m c0) as (sent & c2 & Hoff); [done|] end.
      rewrite Hoff. simpl.
      destruct (wantsSnapshot _); [|eauto].
      unfold handleSnapshot. destruct (ws ≫= snapshotStreamer); [|eauto].
      destruct (offer_open startMsg c2) as (sent2 & c3 & ->).
      { by rewrite (offer_closed _ _ _ _ Hoff). }
      simpl. destruct sent2; eauto.
  - unfold handleUnsubscribe.
    destruct (if bool_decide (ClientMessage.SubscriptionID message ≠ "") then _ else _)
      as [[subs success] errorMsg].
    match goal with |- context [offer ?m ?c0] =>
      destruct (offer_open m c0) as (sent & c2 & ->); [done|] end.
    simpl. eauto.
  - unfold handlePing.
    destruct (offer_open (pongMsg message) c Hopen) as (sent & c1 & ->). simpl. eauto.
  - unfold handleHealthWS.
    match goal with |- context [offer ?m ?c0] =>
      destruct (offer_open m c0) as (sent & c2 & ->); [done|] end.
    simpl. eauto.
  - eauto.
Qed.

(** X8. With no validator installed every subscribe request is accepted,
    whatever database and collection it names. *)
Theorem no_validator_accepts_everything (ws : option WebSocketServer) (clock : Clock)
    (c : Client.t) (message : ClientMessage.t) :
  ws ≫= validator = None →
  ClientMessage.Type' message = MessageTypeSubscribe →
  Chan.closed (Client.send c) = false →
  ∃ c' g, handleMessage ws clock c message = Ok (c', g) ∧
    Client.subscriptions c'
    = <[uuid_New clock := subscriptionFor clock c message]> (Client.subscriptions c).
Proof.
  intros Hv Hty Hopen.
  destruct (handleMessage_open ws clock c message Hopen) as (c' & g & Hrun).
  exists c', g. split; [done|].
  unfold handleMessage in Hrun. rewrite bool_decide_eq_true_2 in Hrun by done.
  apply handleSubscribe_inv in Hrun as [(Href & _)|(_ & Hsubs & _)]; [|done].
  unfold refused in Href. by rewrite Hv in Href.
Qed.

Lemma no_validator_accepts_everything_witness :
  ∃ c' g, handleMessage None Scenario.clock (Client.new "client-1")
            (Scenario.subscribe "B" "y" "r2" None) = Ok (c', g) ∧
    Client.subscriptions c'
    = <[ "sub-1" := subscriptionFor Scenario.clock (Client.new "client-1")
                      (Scenario.subscribe "B" "y" "r2" None)]> ∅.
Proof.
  apply (no_validator_accepts_everything None Scenario.clock (Client.new "client-1")
           (Scenario.subscribe "B" "y" "r2" None)); reflexivity.
Defined.

(** X9. A subscribe request handled while the queue is full: an accepted
    subscription is recorded although its ack is dropped, and no snapshot is
    started; the error of a refused one is dropped. *)
Theorem subscribe_on_full_queue (ws : option WebSocketServer) (clock : Clock)
    (c : Client.t) (message : ClientMessage.t) :
  ClientMessage.Type' message = MessageTypeSubscribe →
  Chan.closed (Client.send c) = false →
  (Chan.cap (Client.send c) ≤ length (Chan.buf (Client.send c)))%nat →
  handleMessage ws clock c message
  = Ok (if refused ws message then c
        else Client.with_subscriptions c
               (<[uuid_New clock := subscriptionFor clock c message]>
                  (Client.subscriptions c)),
        None).
Proof.
  intros Hty Hopen Hfull. unfold handleMessage.
  rewrite bool_decide_eq_true_2 by done. unfold handleSubscribe.
  destruct (refused ws message).
  - by rewrite offer_client_full.
  - rewrite offer_client_full by done. simpl.
    destruct (wantsSnapshot _); [|done].
    unfold handleSnapshot. destruct (ws ≫= snapshotStreamer); [|done].
    by rewrite offer_client_full.
Qed.

Lemma subscribe_on_full_queue_witness :
  handleMessage (Scenario.server (Scenario.store Scenario.three)) Scenario.clock
    (Client.mk "client-1" (Chan.mk 1 [startMsg] false) ∅ false)
    (Scenario.subscribe "A" "x" "r4" (Scenario.withSnapshot 0 2))
  = Ok (Client.mk "client-1" (Chan.mk 1 [startMsg] false)
          {["sub-1" := Subscription.mk "sub-1" "client-1" "A" "x" 0
                         (Scenario.withSnapshot 0 2)]} false, None).
Proof.
  apply (subscribe_on_full_queue (Scenario.server (Scenario.store Scenario.three))
           Scenario.clock (Client.mk "client-1" (Chan.mk 1 [startMsg] false) ∅ false)
           (Scenario.subscribe "A" "x" "r4" (Scenario.withSnapshot 0 2)));
    [reflexivity|reflexivity|simpl; lia].
Defined.

Lemma handleUnsubscribe_subscriptions c message c' :
  handleUnsubscribe c message = Ok c' →
  Client.subscriptions c'
  = if bool_decide (ClientMessage.SubscriptionID message ≠ "")
    then delete (ClientMessage.SubscriptionID message) (Client.subscriptions c)
    else ∅.
Proof.
  unfold handleUnsubscribe. case_bool_decide.
  - destruct (Client.subscriptions c !! _) eqn:Hl.
    + intros ((sent & c2) & (_ & Hsubs & _)%offer_client & [= <-])%bindRes_Ok. done.
    + intros ((sent & c2) & (_ & Hsubs & _)%offer_client & [= <-])%bindRes_Ok.
      rewrite Hsubs. simpl. by rewrite delete_id.
  - intros ((sent & c2) & (_ & Hsubs & _)%offer_client & [= <-])%bindRes_Ok. done.
Qed.

Lemma handleMessage_unsubscribe ws clock c message c' g :
  ClientMessage.Type' message = MessageTypeUnsubscribe →
  handleMessage ws clock c message = Ok (c', g) →
  g = None ∧
  Client.subscriptions c'
  = if bool_decide (ClientMessage.SubscriptionID message ≠ "")
    then delete (ClientMessage.SubscriptionID message) (Client.subscriptions c)
    else ∅.
Proof.
  intros Hty Hrun. unfold handleMessage in Hrun.
  assert (ClientMessage.Type' message ≠ MessageTypeSubscribe) as Hns by (by rewrite Hty).
  rewrite (bool_decide_eq_false_2 _ Hns), (bool_decide_eq_true_2 _ Hty) in Hrun.
  apply bindRes_Ok in Hrun as (c1 & Hun & [= <- <-]).
  split; [done|]. by apply handleUnsubscribe_subscriptions.
Qed.

(** X10. An unsubscribe request that names a subscription removes that
    subscription and no other; its reply reports success exactly when the
    subscription existed and otherwise says [Subscription not found]. *)
Theorem unsubscribe_one (ws : option WebSocketServer) (clock : Clock)
    (c c' : Client.t) (message : ClientMessage.t) (g : option SnapshotGoroutine) :
  ClientMessage.Type' message = MessageTypeUnsubscribe →
  ClientMessage.SubscriptionID message ≠ "" →
  handleMessage ws clock c message = Ok (c', g) →
  g = None ∧
  Client.subscriptions c'
  = delete (ClientMessage.SubscriptionID message) (Client.subscriptions c) ∧
  ∀ r, r ∈ enqueued c c' →
    ServerMessage.Type' r = MessageTypeUnsubscribe ∧
    ServerMessage.RequestID r = ClientMessage.RequestID message ∧
    ServerMessage.Success r
    = bool_decide (is_Some (Client.subscriptions c !! ClientMessage.SubscriptionID message)) ∧
    ServerMessage.Error r
    = if ServerMessage.Success r then "" else "Subscription not found".
Proof.
  intros Hty Hid Hrun.
  pose proof (handleMessage_offers _ _ _ _ _ _ Hrun) as (l & Hg & Hsub).
  assert (ClientMessage.Type' message ≠ MessageTypeSubscribe) as Hns by (by rewrite Hty).
  destruct (handleMessage_unsubscribe _ _ _ _ _ _ Hty Hrun) as (-> & Hsubs).
  split; [done|]. split.
  - by rewrite Hsubs, bool_decide_eq_true_2.
  - intros r Hr. rewrite (grows_enqueued _ _ _ Hg) in Hr.
    eapply elem_of_sublist in Hr; [|exact Hsub].
    unfold handlerOffers in Hr.
    rewrite (bool_decide_eq_false_2 _ Hns), (bool_decide_eq_true_2 _ Hty) in Hr.
    apply list_elem_of_singleton in Hr as ->.
    unfold unsubscribeReply. rewrite bool_decide_eq_true_2 by done.
    by destruct (Client.subscriptions c !! _).
Qed.

Lemma unsubscribe_one_witness :
  Client.subscriptions
    (Client.mk "client-1" (Chan.mk 1024 [unsubscribeAck (unsubscribeRequest "sub-1" "r9") true ""] false)
       ∅ false)
  = delete "sub-1" (Client.subscriptions (Scenario.subscriber 0)).
Proof.
  eapply (unsubscribe_one None Scenario.clock (Scenario.subscriber 0) _
            (unsubscribeRequest "sub-1" "r9") None);
    [reflexivity|done|reflexivity].
Defined.

(** X11. Subscribing and then unsubscribing with the subscription id of the
    ack restores the subscriptions of the client, when the id is new. *)
Theorem subscribe_unsubscribe_round_trip (ws : option WebSocketServer)
    (clock clock' : Clock) (c c1 : Client.t) (message : ClientMessage.t)
    (g : option SnapshotGoroutine) (rid : string) :
  ClientMessage.Type' message = MessageTypeSubscribe →
  uuid_New clock ≠ "" →
  Client.subscriptions c !! uuid_New clock = None →
  handleMessage ws clock c message = Ok (c1, g) →
  ∃ c2, handleMessage ws clock' c1 (unsubscribeRequest (uuid_New clock) rid) = Ok (c2, None) ∧
        Client.subscriptions c2 = Client.subscriptions c.
Proof.
  intros Hty Hne Hfresh Hrun.
  assert (Chan.closed (Client.send c1) = false) as Hopen.
  { rewrite (handleMessage_closed _ _ _ _ _ _ Hrun).
    unfold handleMessage in Hrun. rewrite bool_decide_eq_true_2 in Hrun by done.
    unfold handleSubscribe in Hrun. destruct (refused ws message).
    - by apply bindRes_Ok in Hrun as ((? & ?) & (Ho & _)%offer_client & _).
    - by apply bindRes_Ok in Hrun as ((? & ?) & (Ho & _)%offer_client & _). }
  destruct (handleMessage_open ws clock' c1 (unsubscribeRequest (uuid_New clock) rid) Hopen)
    as (c2 & g2 & Hrun2).
  destruct (handleMessage_unsubscribe ws clock' c1 (unsubscribeRequest (uuid_New clock) rid)
              c2 g2 eq_refl Hrun2) as (-> & Hsubs).
  exists c2. split; [done|]. rewrite Hsubs. simpl.
  rewrite bool_decide_eq_true_2 by done.
  unfold handleMessage in Hrun. rewrite bool_decide_eq_true_2 in Hrun by done.
  apply handleSubscribe_inv in Hrun as [(_ & _ & -> & _)|(_ & -> & _)].
  - by apply delete_id.
  - by rewrite delete_insert_id.
Qed.

Lemma subscribe_unsubscribe_round_trip_witness :
  ∃ c2, handleMessage None Scenario.clock
          (Client.mk "client-1"
             (Chan.mk 1024 [subscribeAck (Scenario.subscribe "A" "x" "r3" None) "sub-1"] false)
             {["sub-1" := Subscription.mk "sub-1" "client-1" "A" "x" 0 None]} false)
          (unsubscribeRequest "sub-1" "r9") = Ok (c2, None) ∧
        Client.subscriptions c2 = ∅.
Proof.
  apply (subscribe_unsubscribe_round_trip None Scenario.clock Scenario.clock
           (Client.new "client-1") _ (Scenario.subscribe "A" "x" "r3" None) None "r9");
    [reflexivity|done|reflexivity|reflexivity].
Defined.

Lemma isClientSubscribed_none (c : Client.t) (change : ChangeEvent.t) :
  Client.subscriptions c = ∅ →
  Hub.isClientSubscribed c (BroadcastChange (Some change)) = false.
Proof.
  intros Hsubs. apply not_true_is_false.
  intros (id & sub & Hl & _)%isClientSubscribed_change.
  by rewrite Hsubs in Hl.
Qed.

(** A broadcast leaves a client that is not subscribed to the message as it
    is. *)
Lemma broadcast_not_subscribed (order : list ClientPtr) (m : ServerMessage.t)
    (h h' : Hub.t) (p : ClientPtr) (c : Client.t) :
  NoDup order →
  Hub.broadcast order m h = Ok h' →
  Hub.heap h !! p = Some c →
  Hub.isClientSubscribed c m = false →
  Hub.heap h' !! p = Some c ∧ (p ∈ Hub.clients h' ↔ p ∈ Hub.clients h).
Proof.
  intros Hnd Hrun Hc Hns.
  destruct (decide (p ∈ order)) as [Hin|Hout].
  - destruct (broadcast_at _ _ _ _ _ _ Hnd Hin Hrun Hc)
      as [(_ & ? & ?)|[(Hs & _)|(Hs & _)]]; [done|congruence..].
  - destruct (broadcast_other _ _ _ _ _ Hrun Hout) as [Hheap Hcl].
    by rewrite Hheap.
Qed.

(** X12. An unsubscribe request that names no subscription removes them all;
    from then on no broadcast of a change event enqueues anything for the
    client or drops it, until it subscribes again. *)
Theorem unsubscribe_all_stops_changes (ws : option WebSocketServer) (clock : Clock)
    (c c' : Client.t) (message : ClientMessage.t) (g : option SnapshotGoroutine) :
  ClientMessage.Type' message = MessageTypeUnsubscribe →
  ClientMessage.SubscriptionID message = "" →
  handleMessage ws clock c message = Ok (c', g) →
  Client.subscriptions c' = ∅ ∧
  ∀ h h' order p change,
    order ≡ₚ elements (Hub.clients h) →
    Hub.heap h !! p = Some c' →
    Hub.broadcast order (BroadcastChange (Some change)) h = Ok h' →
    Hub.heap h' !! p = Some c' ∧ (p ∈ Hub.clients h' ↔ p ∈ Hub.clients h).
Proof.
  intros Hty Hid Hrun.
  destruct (handleMessage_unsubscribe _ _ _ _ _ _ Hty Hrun) as (-> & Hsubs).
  rewrite bool_decide_eq_false_2 in Hsubs by (by rewrite Hid; intros ?).
  split; [done|].
  intros h h' order p change Hperm Hc Hb.
  eapply broadcast_not_subscribed; [by apply (order_NoDup _ _ Hperm)|done..|].
  by apply isClientSubscribed_none.
Qed.

Lemma unsubscribe_all_stops_changes_witness :
  Client.subscriptions
    (Client.mk "client-1" (Chan.mk 1024 [unsubscribeAck (unsubscribeRequest "" "r9") true ""] false)
       ∅ false) = ∅.
Proof.
  eapply (unsubscribe_all_stops_changes None Scenario.clock (Scenario.subscriber 0) _
            (unsubscribeRequest "" "r9") None); reflexivity.
Defined.

(** ** Snapshot sessions over any store *)

Lemma endsAtTerminal_nil : endsAtTerminal [].
Proof. intros front r back H. by destruct front. Qed.

Lemma endsAtTerminal_singleton (r : ServerMessage.t) : endsAtTerminal [r].
Proof.
  intros front r' back H _. destruct front as [|x front].
  - by injection H as _ <-.
  - injection H as _ H. by destruct front.
Qed.

Lemma endsAtTerminal_cons (r : ServerMessage.t) (l : list ServerMessage.t) :
  ¬ terminal r → endsAtTerminal l → endsAtTerminal (r :: l).
Proof.
  intros Hr Hl front r' back H Ht. destruct front as [|x front].
  - injection H as <- _. done.
  - injection H as _ H. by eapply Hl.
Qed.

Lemma endsAtTerminal_sublist (l k : list ServerMessage.t) :
  l `sublist_of` k → endsAtTerminal k → endsAtTerminal l.
Proof.
  intros Hsub Hk front r back -> Ht.
  apply sublist_app_l in Hsub as (k1 & k2 & -> & _ & Hsub).
  apply sublist_cons_l in Hsub as (k3 & k4 & -> & Hsub).
  rewrite (Hk (k1 ++ k3) r k4) in Hsub; [|by rewrite <- app_assoc|done].
  by apply sublist_nil_r.
Qed.

Lemma callbackOffers_terminal (i : Invocation) :
  endsAtTerminal (callbackOffers i) ∧
  (i_err i = None → i_remaining i ≠ 0 →
   ∀ r, r ∈ callbackOffers i → ¬ terminal r).
Proof.
  unfold callbackOffers. destruct (i_err i) as [e|].
  - split; [apply endsAtTerminal_singleton|done].
  - split.
    + repeat case_bool_decide; simpl;
        [apply endsAtTerminal_cons; [by intros [?|?]|]|..];
        auto using endsAtTerminal_singleton, endsAtTerminal_nil.
    + intros _ Hrem. rewrite (bool_decide_eq_false_2 _ Hrem), app_nil_r.
      case_bool_decide; [|by intros r ?%elem_of_nil].
      intros r ->%list_elem_of_singleton. by intros [?|?].
Qed.

Lemma endsAtTerminal_app (l1 l2 : list ServerMessage.t) :
  (∀ r, r ∈ l1 → ¬ terminal r) → endsAtTerminal l2 → endsAtTerminal (l1 ++ l2).
Proof.
  induction l1 as [|x l1 IH]; intros H1 H2; [done|]. simpl.
  apply endsAtTerminal_cons; [apply H1; left|].
  apply IH; [|done]. intros r Hr. apply H1. by right.
Qed.

Lemma loop_endsAtTerminal d collection batchSize filter sort fuel skip batchNum remaining :
  endsAtTerminal
    (offers (loopCalls d collection batchSize filter sort fuel skip batchNum remaining)).
Proof.
  revert skip batchNum remaining.
  induction fuel as [|fuel IH]; intros skip batchNum remaining.
  - simpl. case_bool_decide; apply endsAtTerminal_nil.
  - destruct (decide (remaining > 0)) as [Hpos|Hneg].
    2:{ rewrite loopCalls_done by lia. apply endsAtTerminal_nil. }
    rewrite loopCalls_S by done. cbv zeta.
    destruct (Database.Find _ _ _ _ _ _) as [err|err|batch].
    + apply endsAtTerminal_singleton.
    + apply endsAtTerminal_singleton.
    + rewrite offers_cons.
      set (i := Build_Invocation batch batchNum (remaining - len batch) None).
      destruct (callbackOffers_terminal i) as [Hend Hnon].
      case_bool_decide as Hshort.
      { unfold offers. simpl. by rewrite app_nil_r. }
      destruct (decide (remaining - len batch > 0)) as [Hmore|Hdone].
      * apply endsAtTerminal_app; [|apply IH]. apply Hnon; [done|]. simpl. lia.
      * rewrite loopCalls_done by lia. unfold offers. simpl. by rewrite app_nil_r.
Qed.

Lemma managerCalls_endsAtTerminal m database collection snapOpts :
  endsAtTerminal (offers (managerCalls m database collection snapOpts)).
Proof.
  unfold managerCalls. destruct (MultiDBManager.managers m !! database) as [manager|].
  2:{ apply endsAtTerminal_singleton. }
  unfold snapshotCalls. destruct snapOpts as [o|]; [|apply endsAtTerminal_singleton].
  destruct (Database.CountDocuments _ _ _); [apply endsAtTerminal_singleton|].
  apply loop_endsAtTerminal.
Qed.

(** X13. Whatever the store answers and however the queue behaves, the
    messages a snapshot session enqueues hold at most one [snapshot_end] or
    error message, and nothing of the session follows it. *)
Theorem snapshot_terminal_is_last (m : MultiDBManager.t) (database collection : string)
    (snapOpts : option SnapshotOptions.t) (w w' : Observed) :
  MultiDBManager.StreamSnapshot m Observed database collection snapOpts
    snapshotCallback w = Ok w' →
  ∃ l, accepted w' = accepted w ++ l ∧
    ∀ front r back, l = front ++ r :: back →
      ServerMessage.Type' r = MessageTypeSnapshotEnd ∨
      ServerMessage.Type' r = MessageTypeError →
      back = [].
Proof.
  rewrite manager_StreamSnapshot_runCalls.
  intros (l & Hacc & Hsub)%runCalls_observed. exists l. split; [done|].
  eapply endsAtTerminal_sublist; [done|]. apply managerCalls_endsAtTerminal.
Qed.

Lemma snapshot_terminal_is_last_witness :
  ∃ l, accepted {| verdicts := [];
                   accepted := [batchMsg [Scenario.doc "d1"; Scenario.doc "d2"] 1 1;
                                batchMsg [Scenario.doc "d3"] 2 0; endMsg] |}
       = [] ++ l ∧
    ∀ front r back, l = front ++ r :: back →
      ServerMessage.Type' r = MessageTypeSnapshotEnd ∨
      ServerMessage.Type' r = MessageTypeError →
      back = [].
Proof.
  apply (snapshot_terminal_is_last (Scenario.manager (Scenario.store Scenario.three))
           "A" "x" (Scenario.withSnapshot 0 2) {| verdicts := []; accepted := [] |}).
  reflexivity.
Defined.

Lemma deliveredBy_app (l1 l2 : list ServerMessage.t) :
  deliveredBy (l1 ++ l2) = deliveredBy l1 + deliveredBy l2.
Proof.
  unfold deliveredBy, len. rewrite fmap_app, concat_app, length_app. lia.
Qed.

Lemma deliveredBy_sublist (l k : list ServerMessage.t) :
  l `sublist_of` k → deliveredBy l ≤ deliveredBy k.
Proof.
  induction 1 as [|x l k _ IH|x l k _ IH]; [done|..].
  - rewrite !deliveredBy_cons. lia.
  - rewrite deliveredBy_cons. unfold len. lia.
Qed.

Lemma deliveredBy_callbackOffers (i : Invocation) :
  i_err i = None → deliveredBy (callbackOffers i) = len (i_batch i).
Proof.
  unfold callbackOffers. intros ->.
  rewrite deliveredBy_app.
  assert (deliveredBy (if bool_decide (i_remaining i = 0) then [endMsg] else []) = 0) as ->.
  { by case_bool_decide. }
  case_bool_decide as Hlen.
  - unfold deliveredBy. simpl. rewrite app_nil_r. lia.
  - unfold deliveredBy. unfold len in *. simpl. lia.
Qed.

Lemma loop_delivered d collection batchSize filter sort :
  honoursLimit d → 0 < batchSize →
  ∀ fuel skip batchNum remaining,
    0 ≤ remaining →
    deliveredBy (offers (loopCalls d collection batchSize filter sort
                           fuel skip batchNum remaining)) ≤ remaining ∧
    ∀ r, r ∈ offers (loopCalls d collection batchSize filter sort
                       fuel skip batchNum remaining) →
      len (ServerMessage.SnapshotData r) ≤ batchSize.
Proof.
  intros Hd Hb. induction fuel as [|fuel IH]; intros skip batchNum remaining Hrem.
  - simpl. case_bool_decide; (split; [done|by intros r ?%elem_of_nil]).
  - destruct (decide (remaining > 0)) as [Hpos|Hneg].
    2:{ rewrite loopCalls_done by lia. split; [done|by intros r ?%elem_of_nil]. }
    rewrite loopCalls_S by done. cbv zeta.
    set (currentBatchSize := if bool_decide (remaining < batchSize) then remaining
                             else batchSize).
    assert (0 < currentBatchSize ≤ remaining ∧ currentBatchSize ≤ batchSize) as Hcbs.
    { subst currentBatchSize. case_bool_decide; lia. }
    destruct (Database.Find _ _ _ _ _ _) as [err|err|batch] eqn:Hfind.
    + split; [unfold offers, deliveredBy, len; simpl; lia|].
      intros r ->%list_elem_of_singleton. simpl. unfold len. simpl. lia.
    + split; [unfold offers, deliveredBy, len; simpl; lia|].
      intros r ->%list_elem_of_singleton. simpl. unfold len. simpl. lia.
    + apply Hd in Hfind; [|lia].
      rewrite offers_cons, deliveredBy_app, deliveredBy_callbackOffers by done.
      simpl.
      assert (∀ r, r ∈ callbackOffers
                (Build_Invocation batch batchNum (remaining - len batch) None) →
              len (ServerMessage.SnapshotData r) ≤ batchSize) as Hhere.
      { unfold callbackOffers. simpl. intros r [Hr|Hr]%elem_of_app.
        - revert Hr. case_bool_decide; [|by intros ?%elem_of_nil].
          intros ->%list_elem_of_singleton. simpl. lia.
        - revert Hr. case_bool_decide; [|by intros ?%elem_of_nil].
          intros ->%list_elem_of_singleton. simpl. unfold len. simpl. lia. }
      case_bool_decide as Hshort.
      * split; [unfold offers, deliveredBy, len in *; simpl; lia|].
        intros r [Hr|Hr]%elem_of_app; [by apply Hhere|].
        by apply elem_of_nil in Hr.
      * destruct (IH (skip + len batch) (batchNum + 1) (remaining - len batch))
          as [Hsum Hall]; [lia|].
        split; [lia|].
        intros r [Hr|Hr]%elem_of_app; [by apply Hhere|by apply Hall].
Qed.

(** X14. Over a store that honours [SetLimit], whatever else it answers and
    however the queue behaves, a snapshot session delivers at most
    [snapshot_limit] documents (10000 when the option is not positive) and
    no batch holds more than [batch_size] documents (100 when the option is
    not positive). *)
Theorem snapshot_within_limit (d : Database.t) (collection : string)
    (o : SnapshotOptions.t) (w w' : Observed) :
  honoursLimit d →
  Database.StreamSnapshot d Observed collection (Some o) snapshotCallback w = Ok w' →
  ∃ l, accepted w' = accepted w ++ l ∧
    deliveredBy l ≤ Database.effectiveLimit o ∧
    ∀ r, r ∈ l → len (ServerMessage.SnapshotData r) ≤ Database.effectiveBatchSize o.
Proof.
  intros Hd. rewrite StreamSnapshot_runCalls.
  intros (l & Hacc & Hsub)%runCalls_observed. exists l. split; [done|].
  assert (0 < Database.effectiveBatchSize o) as Hb.
  { unfold Database.effectiveBatchSize. case_bool_decide; lia. }
  assert (0 < Database.effectiveLimit o) as Hl.
  { unfold Database.effectiveLimit. case_bool_decide; lia. }
  unfold snapshotCalls in Hsub.
  destruct (Database.CountDocuments _ _ _) as [err|totalCount].
  { split.
    - apply deliveredBy_sublist in Hsub. etrans; [exact Hsub|].
      unfold offers, deliveredBy, len. simpl. lia.
    - intros r Hr. eapply elem_of_sublist in Hr; [|done].
      apply list_elem_of_singleton in Hr as ->. unfold len. simpl. lia. }
  set (actualTotal := if bool_decide (totalCount > Database.effectiveLimit o)
                      then Database.effectiveLimit o else totalCount) in *.
  assert (actualTotal ≤ Database.effectiveLimit o) as Hle.
  { subst actualTotal. case_bool_decide; lia. }
  destruct (decide (0 ≤ actualTotal)) as [Hnn|Hneg].
  - destruct (loop_delivered d collection (Database.effectiveBatchSize o)
                (Database.effectiveFilter o) (SnapshotOptions.SnapshotSort o) Hd Hb
                (Z.to_nat actualTotal) 0 1 actualTotal Hnn) as [Hsum Hall].
    split.
    + apply deliveredBy_sublist in Hsub. lia.
    + intros r Hr. apply Hall. by eapply elem_of_sublist.
  - rewrite loopCalls_done in Hsub by lia.
    apply sublist_nil_r in Hsub as ->.
    split; [unfold deliveredBy, len; simpl; lia|by intros r ?%elem_of_nil].
Qed.

Lemma fixed_honoursLimit (docs : string → list Document) :
  honoursLimit (Database.fixed docs).
Proof.
  intros collection filter skip limit sort found Hpos [= <-].
  unfold len. rewrite length_take. lia.
Qed.

Lemma snapshot_within_limit_witness :
  ∃ l, accepted {| verdicts := [];
                   accepted := [batchMsg [Scenario.doc "d1"; Scenario.doc "d2"] 1 0; endMsg] |}
       = [] ++ l ∧
    deliveredBy l ≤ 2 ∧
    ∀ r, r ∈ l → len (ServerMessage.SnapshotData r) ≤ 2.
Proof.
  apply (snapshot_within_limit (Scenario.store Scenario.three) "x"
           (SnapshotOptions.mk true 2 2 None None) {| verdicts := []; accepted := [] |}).
  - apply fixed_honoursLimit.
  - reflexivity.
Defined.

(** X15. A [batch_size] that is not positive, as when the option is left out,
    is replaced by the default of 100 documents for each batch. *)
Theorem snapshot_batch_size_default {W} (d : Database.t) (collection : string)
    (o : SnapshotOptions.t) (callback : Callback W) (w : W) :
  SnapshotOptions.BatchSize o ≤ 0 →
  Database.effectiveBatchSize o = 100 ∧
  Database.StreamSnapshot d W collection (Some o) callback w
  = Database.StreamSnapshot d W collection (Some (withBatchSize o 100)) callback w.
Proof.
  intros Hb.
  assert (Database.effectiveBatchSize o = 100) as He.
  { unfold Database.effectiveBatchSize. by rewrite bool_decide_eq_true_2. }
  split; [done|].
  unfold Database.StreamSnapshot. rewrite He. done.
Qed.

Lemma snapshot_batch_size_default_witness :
  Database.effectiveBatchSize (SnapshotOptions.mk true 0 0 None None) = 100.
Proof.
  apply (snapshot_batch_size_default (W:=Observed) (Scenario.store Scenario.three) "x"
           (SnapshotOptions.mk true 0 0 None None) snapshotCallback
           {| verdicts := []; accepted := [] |}).
  simpl. lia.
Defined.

(** X16. When the count of the documents that match is not positive the
    streamer returns without a call of the callback: after [snapshot_start]
    the session enqueues nothing, no [snapshot_end] either. *)
Theorem empty_result_no_callback {W} (d : Database.t) (collection : string)
    (o : SnapshotOptions.t) (totalCount : Z) (callback : Callback W) (w : W) :
  Database.CountDocuments d collection (Database.effectiveFilter o) = inr totalCount →
  totalCount ≤ 0 →
  Database.StreamSnapshot d W collection (Some o) callback w = Ok w.
Proof.
  intros Hcount Hle. rewrite StreamSnapshot_runCalls. unfold snapshotCalls.
  rewrite Hcount.
  assert (0 < Database.effectiveLimit o) as Hl.
  { unfold Database.effectiveLimit. case_bool_decide; lia. }
  rewrite bool_decide_eq_false_2 by lia.
  by rewrite loopCalls_done.
Qed.

Lemma empty_result_no_callback_witness :
  Database.StreamSnapshot (Scenario.store []) Observed "x" (Scenario.withSnapshot 0 2)
    snapshotCallback {| verdicts := []; accepted := [startMsg] |}
  = Ok {| verdicts := []; accepted := [startMsg] |}.
Proof.
  apply (empty_result_no_callback (Scenario.store []) "x"
           (SnapshotOptions.mk true 0 2 None None) 0); [reflexivity|lia].
Defined.

(** ** The server as a whole *)

(** The cases of a step, with names for what each of them binds. *)
Ltac step_cases Hstep :=
  destruct Hstep as
    [s p id Hnew
    |s p h' Hun
    |s p c message clock c' g Hc Hrun
    |s p c m sent c' Hc Hm Hoff
    |s p c m ch Hc Hrecv
    |s p c m ch Hc Hrecv
    |s k i changeEvent i' Hi Hdb Hpush
    |s k i change ch order h' Hi Hrecv Hperm Hb].

Lemma steps_ind_from ws (P : System.t → Prop) (s0 s : System.t) :
  System.steps ws s0 s → P s0 →
  (∀ s1 s2, P s1 → System.step ws s1 s2 → P s2) → P s.
Proof. induction 1; eauto. Qed.

Lemma steps_trans ws (s1 s2 s3 : System.t) :
  System.steps ws s1 s2 → System.steps ws s2 s3 → System.steps ws s1 s3.
Proof.
  intros H12 H23. induction H23 as [|sa sb sc _ IH Hstep]; [done|].
  eapply System.steps_step; [by apply IH|done].
Qed.

Lemma recv_inv {A} (ch ch' : Chan.t A) (x : A) :
  Chan.recv ch = Some (x, ch') →
  Chan.buf ch = x :: Chan.buf ch' ∧ Chan.cap ch' = Chan.cap ch ∧
  Chan.closed ch' = Chan.closed ch.
Proof.
  unfold Chan.recv. destruct (Chan.buf ch) eqn:Hbuf; [done|].
  by intros [= <- <-].
Qed.

(** What a broadcast does to one client. *)
Lemma broadcast_result (order : list ClientPtr) (m : ServerMessage.t) (h h' : Hub.t)
    (p : ClientPtr) (c' : Client.t) :
  NoDup order →
  Hub.broadcast order m h = Ok h' →
  Hub.heap h' !! p = Some c' →
  ∃ c, Hub.heap h !! p = Some c ∧
    ((c' = c ∧ (p ∈ Hub.clients h' ↔ p ∈ Hub.clients h)) ∨
     (Hub.isClientSubscribed c m = true ∧ p ∈ order ∧
      (length (Chan.buf (Client.send c)) < Chan.cap (Client.send c))%nat ∧
      c' = Client.with_send c
             (Chan.mk (Chan.cap (Client.send c)) (Chan.buf (Client.send c) ++ [m]) false) ∧
      (p ∈ Hub.clients h' ↔ p ∈ Hub.clients h)) ∨
     (Hub.isClientSubscribed c m = true ∧ p ∈ order ∧
      (Chan.cap (Client.send c) ≤ length (Chan.buf (Client.send c)))%nat ∧
      c' = Client.with_send c
             (Chan.mk (Chan.cap (Client.send c)) (Chan.buf (Client.send c)) true) ∧
      p ∉ Hub.clients h')).
Proof.
  intros Hnd Hrun Hc'.
  destruct (broadcast_keeps _ _ _ _ Hrun) as [_ Hsome].
  destruct (proj1 (Hsome p) (mk_is_Some _ _ Hc')) as [c Hc].
  exists c. split; [done|].
  destruct (decide (p ∈ order)) as [Hin|Hout].
  - destruct (broadcast_at _ _ _ _ _ _ Hnd Hin Hrun Hc)
      as [(_ & Heq & Hiff)|[(Hs & Hroom & Heq & Hiff)|(Hs & Hfull & Heq & Hout)]];
      rewrite Hc' in Heq; injection Heq as ->; auto 10.
  - destruct (broadcast_other _ _ _ _ _ Hrun Hout) as [Heq Hiff].
    rewrite Hc', Hc in Heq. injection Heq as ->. auto.
Qed.

(** X17. In every reachable state the hub goroutine can serve its next event
    without a panic: a broadcast sends on no closed queue and closes no
    queue twice, and so does an unregistration, of a client registered or
    not. *)
Theorem hub_never_panics (ws : option WebSocketServer) (databases : list string)
    (s : System.t) :
  System.steps ws (System.init databases) s →
  (∀ order m, order ≡ₚ elements (Hub.clients (System.hub s)) →
     ∃ h', Hub.broadcast order m (System.hub s) = Ok h') ∧
  (∀ p, ∃ h', Hub.unregister p (System.hub s) = Ok h').
Proof.
  intros Hwf%wf_reachable. split.
  - intros order m Hperm. destruct (order_NoDup _ _ Hperm) as [Hnd Hin].
    destruct (broadcast_wf order m _ Hwf Hnd) as (h' & Hrun & _); [by intros q ?%Hin|].
    eauto.
  - intros p. unfold Hub.unregister. case_bool_decide as Hp; [|eauto].
    destruct (Hwf p Hp) as (c & -> & Hopen).
    unfold Chan.close. rewrite Hopen. simpl. eauto.
Qed.

Lemma hub_never_panics_witness :
  ∃ s h', System.steps (Scenario.server (Scenario.store Scenario.three))
            (System.init ["A"]) s ∧
          Hub.unregister 1%positive (System.hub s) = Ok h'.
Proof.
  destruct scenario_run as (s & Hsteps & _).
  destruct (proj2 (hub_never_panics _ _ _ Hsteps) 1%positive) as [h' Hun].
  by exists s, h'.
Defined.

Lemma within_send {A} (n : nat) (ch ch' : Chan.t A) (x : A) :
  within n ch → Chan.trySend ch x = Chan.Sent ch' → within n ch'.
Proof.
  unfold within, Chan.trySend. intros [Hcap Hlen].
  destruct (Chan.closed ch); [done|]. case_bool_decide as Hroom; [|done].
  intros [= <-]. simpl. rewrite length_app. simpl. split; [done|lia].
Qed.

Lemma within_recv {A} (n : nat) (ch ch' : Chan.t A) (x : A) :
  within n ch → Chan.recv ch = Some (x, ch') → within n ch'.
Proof.
  unfold within. intros [Hcap Hlen] (Hbuf & Hcap' & _)%recv_inv.
  rewrite Hbuf in Hlen. simpl in Hlen. split; [congruence|lia].
Qed.

Lemma offer_within (n : nat) (m : ServerMessage.t) (c c' : Client.t) (sent : bool) :
  offer m c = Ok (sent, c') → within n (Client.send c) → within n (Client.send c').
Proof.
  unfold offer, Client_Outbound.
  destruct (Chan.trySend (Client.send c) m) as [ch| |] eqn:Hs; [| |done].
  - intros [= <- <-] Hw. simpl. by eapply within_send.
  - by intros [= <- <-].
Qed.

Lemma bounded_step ws (s s' : System.t) :
  System.step ws s s' → bounded s → bounded s'.
Proof.
  intros Hstep [Hcl Hin]. unfold bounded.
  assert (∀ p c c', Hub.heap (System.hub s) !! p = Some c →
            within 1024 (Client.send c') →
            ∀ q cq, <[p := c']> (Hub.heap (System.hub s)) !! q = Some cq →
              within 1024 (Client.send cq)) as Hupd.
  { intros p c c' Hc Hw q cq. destruct (decide (q = p)) as [->|Hne].
    - rewrite lookup_insert_eq. by intros [= <-].
    - rewrite lookup_insert_ne by done. apply Hcl. }
  step_cases Hstep; simpl.
  - split; [|done]. intros q cq. destruct (decide (q = p)) as [->|Hne].
    + rewrite lookup_insert_eq. intros [= <-]. split; [done|simpl; lia].
    + rewrite lookup_insert_ne by done. apply Hcl.
  - split; [|done].
    apply unregister_inv in Hun as [->|(c & Hc & ->)]; [done|]. simpl.
    eapply Hupd; [done|]. apply (Hcl _ _ Hc).
  - split; [|done]. eapply Hupd; [done|].
    eapply (handleMessage_send_ind (within 1024)); [|done|by eapply Hcl].
    intros ch m ch'. apply within_send.
  - split; [|done]. eapply Hupd; [done|].
    eapply offer_within; [done|by eapply Hcl].
  - split; [|done]. eapply Hupd; [done|].
    simpl. eapply within_recv; [|done]. by eapply Hcl.
  - split; [|done]. eapply Hupd; [done|].
    simpl. eapply within_recv; [|done]. by eapply Hcl.
  - split; [done|]. intros k' i''. destruct (decide (k' = k)) as [->|Hne].
    + rewrite list_lookup_insert_eq by by eapply lookup_lt_Some. intros [= <-].
      destruct (Hin _ _ Hi) as [Hw Hopen].
      unfold Ingestor.push in Hpush.
      destruct (Chan.trySend (Ingestor.changesCh i) changeEvent) as [ch| |] eqn:Hs;
        [| |done]; injection Hpush as <-; simpl; [|done].
      split; [by eapply within_send|].
      unfold Chan.trySend in Hs. rewrite Hopen in Hs.
      case_bool_decide; [|done]. by injection Hs as <-.
    + rewrite list_lookup_insert_ne by done. apply Hin.
  - split.
    + intros q cq Hq. destruct (order_NoDup _ _ Hperm) as [Hnd _].
      destruct (broadcast_result _ _ _ _ _ _ Hnd Hb Hq)
        as (c & Hc & [(-> & _)|[(_ & _ & Hroom & -> & _)|(_ & _ & _ & -> & _)]]).
      * by eapply Hcl.
      * destruct (Hcl _ _ Hc) as [Hcap Hlen]. split; [done|]. simpl.
        rewrite length_app. simpl. lia.
      * destruct (Hcl _ _ Hc) as [Hcap Hlen]. by split.
    + intros k' i''. destruct (decide (k' = k)) as [->|Hne].
      * rewrite list_lookup_insert_eq by by eapply lookup_lt_Some. intros [= <-]. simpl.
        destruct (Hin _ _ Hi) as [Hw Hopen]. split; [by eapply within_recv|].
        apply recv_inv in Hrecv as (_ & _ & ->). done.
      * rewrite list_lookup_insert_ne by done. apply Hin.
Qed.

(** X18. In every reachable state the queue of a client holds at most 1024
    messages and the change channel of an ingestor (there is one for every
    configuration entry) at most 100 events, and the change channel is open,
    so that pushing an event does not panic. *)
Theorem queues_bounded (ws : option WebSocketServer) (databases : list string)
    (s : System.t) :
  System.steps ws (System.init databases) s →
  (∀ p c, Hub.heap (System.hub s) !! p = Some c →
     Chan.cap (Client.send c) = 1024%nat ∧
     (length (Chan.buf (Client.send c)) ≤ 1024)%nat) ∧
  (∀ k i, System.ingestors s !! k = Some i →
     Chan.cap (Ingestor.changesCh i) = 100%nat ∧
     (length (Chan.buf (Ingestor.changesCh i)) ≤ 100)%nat ∧
     ∀ changeEvent, ∃ i', Ingestor.push changeEvent i = Ok i').
Proof.
  intros Hsteps.
  assert (bounded s) as [Hcl Hin].
  { apply (steps_ind_from ws bounded _ _ Hsteps).
    - split; [by intros p c ?|]. intros k i. unfold System.init.
      cbn [System.ingestors]. intros (db & -> & _)%list_lookup_fmap_Some_1.
      split; [split; [done|simpl; lia]|done].
    - intros s1 s2 IH Hstep. by eapply bounded_step. }
  split; [exact Hcl|].
  intros k i Hi. destruct (Hin _ _ Hi) as [[Hcap Hlen] Hopen].
  split; [done|]. split; [done|].
  intros changeEvent. unfold Ingestor.push, Chan.trySend. rewrite Hopen.
  case_bool_decide; eauto.
Qed.

Lemma queues_bounded_witness :
  ∃ s, System.steps (Scenario.server (Scenario.store Scenario.three))
         (System.init ["A"]) s ∧
       ∀ p c, Hub.heap (System.hub s) !! p = Some c →
         Chan.cap (Client.send c) = 1024%nat ∧
         (length (Chan.buf (Client.send c)) ≤ 1024)%nat.
Proof.
  destruct scenario_run as (s & Hsteps & _).
  exists s. split; [done|]. exact (proj1 (queues_bounded _ _ _ Hsteps)).
Defined.

(** A client in the heap that the hub does not hold was dropped: its queue
    is closed. *)
Lemma dropped_step ws (s s' : System.t) :
  System.step ws s s' → droppedClosed s → droppedClosed s'.
Proof.
  intros Hstep Hinv. unfold droppedClosed in *.
  assert (∀ p c c', Hub.heap (System.hub s) !! p = Some c →
            Chan.closed (Client.send c') = Chan.closed (Client.send c) →
            ∀ q cq, <[p := c']> (Hub.heap (System.hub s)) !! q = Some cq →
              q ∉ Hub.clients (System.hub s) → Chan.closed (Client.send cq) = true) as Hupd.
  { intros p c c' Hc Heq q cq. destruct (decide (q = p)) as [->|Hne].
    - rewrite lookup_insert_eq. intros [= <-] Hq. rewrite Heq. by eapply Hinv.
    - rewrite lookup_insert_ne by done. apply Hinv. }
  step_cases Hstep; simpl.
  - intros q cq. destruct (decide (q = p)) as [->|Hne].
    + intros _ Hq. exfalso. apply Hq. apply elem_of_union. right.
      by apply elem_of_singleton.
    + rewrite lookup_insert_ne by done. intros Hq Hout. eapply Hinv; [done|].
      intros Hin. apply Hout. apply elem_of_union. by left.
  - apply unregister_inv in Hun as [->|(c & Hc & ->)]; [done|]. simpl.
    intros q cq. destruct (decide (q = p)) as [->|Hne].
    + rewrite lookup_insert_eq. by intros [= <-] _.
    + rewrite lookup_insert_ne by done. intros Hq Hout. eapply Hinv; [done|].
      intros Hin. apply Hout. apply elem_of_difference. split; [done|].
      by apply not_elem_of_singleton.
  - eapply Hupd; [done|]. by eapply handleMessage_closed.
  - eapply Hupd; [done|]. by eapply offer_closed.
  - eapply Hupd; [done|]. simpl. by apply recv_inv in Hrecv as (_ & _ & ->).
  - eapply Hupd; [done|]. simpl. by apply recv_inv in Hrecv as (_ & _ & ->).
  - done.
  - intros q cq Hq Hout. destruct (order_NoDup _ _ Hperm) as [Hnd _].
    destruct (broadcast_result _ _ _ _ _ _ Hnd Hb Hq)
      as (c & Hc & [(-> & Hiff)|[(_ & Hqo & _ & -> & Hiff)|(_ & _ & _ & -> & _)]]).
    + eapply Hinv; [done|]. by rewrite <- Hiff.
    + exfalso. apply Hout, Hiff. by apply (order_NoDup _ _ Hperm).
    + done.
Qed.

Lemma snapshotCallback_on_closed (c : Client.t) (batch : list Document)
    (batchNum remaining : Z) (err : option string) :
  Chan.closed (Client.send c) = true →
  callbackOffers (Build_Invocation batch batchNum remaining err) ≠ [] →
  snapshotCallback batch batchNum remaining err c = Panic "send on closed channel".
Proof.
  intros Hcl. unfold callbackOffers, snapshotCallback. simpl.
  destruct err as [e|].
  - intros _. by rewrite offer_on_closed.
  - case_bool_decide.
    + intros _. by rewrite offer_on_closed.
    + simpl. case_bool_decide; [|done]. intros _. by rewrite offer_on_closed.
Qed.

Lemma handleMessage_on_closed ws clock (c : Client.t) (message : ClientMessage.t) :
  Chan.closed (Client.send c) = true →
  ClientMessage.Type' message ∈ [MessageTypeSubscribe; MessageTypeUnsubscribe;
                                 MessageTypePing; MessageTypeHealth] →
  handleMessage ws clock c message = Panic "send on closed channel".
Proof.
  intros Hcl Hty. unfold handleMessage. repeat case_bool_decide.
  - unfold handleSubscribe. destruct (refused ws message); by rewrite offer_on_closed.
  - unfold handleUnsubscribe.
    destruct (if bool_decide (ClientMessage.SubscriptionID message ≠ "") then _ else _)
      as [[subs success] errorMsg].
    by rewrite offer_on_closed.
  - unfold handlePing. by rewrite offer_on_closed.
  - unfold handleHealthWS. by rewrite offer_on_closed.
  - rewrite !elem_of_cons, elem_of_nil in Hty. tauto.
Qed.

(** X19. A client the hub has dropped, by unregistration or because its
    queue was full, stays dropped with its queue closed; a request of it
    that is still handled and a call of the callback of its snapshot that
    has something to send panic with a send on the closed queue. *)
Theorem dropped_client_panics (ws : option WebSocketServer) (databases : list string)
    (s : System.t) (p : ClientPtr) (c : Client.t) :
  System.steps ws (System.init databases) s →
  Hub.heap (System.hub s) !! p = Some c →
  p ∉ Hub.clients (System.hub s) →
  Chan.closed (Client.send c) = true ∧
  (∀ clock message,
     ClientMessage.Type' message ∈ [MessageTypeSubscribe; MessageTypeUnsubscribe;
                                    MessageTypePing; MessageTypeHealth] →
     handleMessage ws clock c message = Panic "send on closed channel") ∧
  (∀ batch batchNum remaining err,
     callbackOffers (Build_Invocation batch batchNum remaining err) ≠ [] →
     snapshotCallback batch batchNum remaining err c = Panic "send on closed channel") ∧
  (∀ s', System.steps ws s s' →
     (p ∉ Hub.clients (System.hub s')) ∧
     ∃ c', Hub.heap (System.hub s') !! p = Some c' ∧
           Chan.closed (Client.send c') = true).
Proof.
  intros Hsteps Hc Hout.
  assert (∀ s', System.steps ws (System.init databases) s' → droppedClosed s')
    as Hdropped.
  { intros s' Hs'. apply (steps_ind_from ws droppedClosed _ _ Hs').
    - by intros q cq ?.
    - intros s1 s2 IH Hstep. by eapply dropped_step. }
  assert (Chan.closed (Client.send c) = true) as Hcl by (by eapply Hdropped).
  split; [done|]. split; [|split].
  - intros clock message Hty. by apply handleMessage_on_closed.
  - intros batch batchNum remaining err Hne. by apply snapshotCallback_on_closed.
  - intros s' Hs'.
    destruct (steps_evicted _ _ _ p Hs' (mk_is_Some _ _ Hc) Hout) as [[c' Hc'] Hout'].
    split; [done|]. exists c'. split; [done|].
    eapply Hdropped; [|done..]. by eapply steps_trans.
Qed.

(** A client connects and its connection is lost: the hub unregisters it. *)
Lemma scenario_disconnect :
  ∃ s, System.steps (Scenario.server (Scenario.store Scenario.three))
         (System.init ["A"]) s ∧
       Hub.heap (System.hub s) !! 1%positive
       = Some (Client.mk "client-1" (Chan.mk 1024 [] true) ∅ false) ∧
       1%positive ∉ Hub.clients (System.hub s).
Proof.
  eexists. split.
  { eapply System.steps_step; [eapply System.steps_step; [apply System.steps_refl|]|].
    - apply (System.step_connect _ _ 1%positive "client-1"). reflexivity.
    - eapply (System.step_unregister _ _ 1%positive). by vm_compute. }
  split; [by vm_compute|]. vm_compute. set_solver.
Qed.

Lemma dropped_client_panics_witness :
  ∃ c, handleMessage (Scenario.server (Scenario.store Scenario.three)) Scenario.clock c
         (pingRequest "r1") = Panic "send on closed channel".
Proof.
  destruct scenario_disconnect as (s & Hsteps & Hc & Hout).
  eexists.
  apply (proj1 (proj2 (dropped_client_panics _ _ _ _ _ Hsteps Hc Hout))).
  unfold pingRequest. simpl. right; right; left.
Defined.

Lemma covered_subscription (v : SubscriptionValidator) (sub : Subscription.t)
    (change : ChangeEvent.t) :
  IsValidSubscription v (Subscription.Database sub) (Subscription.Collection sub) = true →
  Subscription.Database sub = ChangeEvent.Database change →
  Subscription.Collection sub = "" ∨
  Subscription.Collection sub = ChangeEvent.Collection change →
  covered v change.
Proof.
  unfold covered. intros Hv <- [Hc|Hc]; rewrite Hc in Hv; auto.
Qed.

Lemma whitelisted_step ws v (s s' : System.t) :
  ws ≫= validator = Some v →
  System.step ws s s' → whitelisted v s → whitelisted v s'.
Proof.
  intros Hv Hstep (Hcl & Hwire).
  assert (∀ p c', clientWhitelisted v c' →
            ∀ q cq, <[p := c']> (Hub.heap (System.hub s)) !! q = Some cq →
              clientWhitelisted v cq) as Hupd.
  { intros p c' Hc' q cq. destruct (decide (q = p)) as [->|Hne].
    - rewrite lookup_insert_eq. by intros [= <-].
    - rewrite lookup_insert_ne by done. apply Hcl. }
  unfold whitelisted.
  step_cases Hstep; simpl.
  - split; [|done]. apply Hupd. split; [done|]. by intros r change ?%elem_of_nil.
  - split; [|done].
    apply unregister_inv in Hun as [->|(c & Hc & ->)]; [done|]. simpl.
    apply Hupd. exact (Hcl p c Hc).
  - split; [|done]. apply Hupd. destruct (Hcl p c Hc) as [Hsubs Hbuf]. split.
    + intros id sub Hl.
      destruct (handleMessage_subscriptions _ _ _ _ _ _ Hrun _ _ Hl)
        as [Hold|(_ & Href & -> & ->)]; [by eapply Hsubs|].
      unfold refused in Href. rewrite Hv in Href. by apply negb_false_iff in Href.
    + intros r change Hr Hch.
      destruct (handleMessage_offers _ _ _ _ _ _ Hrun) as (l & Hg & Hsub).
      rewrite Hg in Hr. apply elem_of_app in Hr as [Hr|Hr]; [by eapply Hbuf|].
      eapply elem_of_sublist in Hr; [|exact Hsub].
      apply handlerOffers_no_change in Hr. congruence.
  - split; [|done]. apply Hupd. destruct (Hcl p c Hc) as [Hsubs Hbuf].
    apply offer_client in Hoff as (_ & Hs & _ & _ & _ & Hcase). split.
    + by rewrite Hs.
    + intros r change Hr Hch.
      destruct Hcase as [(_ & _ & Hb)|(_ & _ & ->)]; [|by eapply Hbuf].
      rewrite Hb in Hr. apply elem_of_app in Hr as [Hr|Hr]; [by eapply Hbuf|].
      apply list_elem_of_singleton in Hr as ->. congruence.
  - apply recv_inv in Hrecv as (Hb & _ & _).
    destruct (Hcl p c Hc) as [Hsubs Hbuf]. split.
    + apply Hupd. split; [done|]. simpl.
      intros r change Hr. apply Hbuf. rewrite Hb. by right.
    + intros q r change. unfold System.written. simpl.
      destruct (decide (q = p)) as [->|Hne].
      * rewrite lookup_insert_eq. simpl.
        intros [Hr|Hr]%elem_of_app; [by apply (Hwire p)|].
        apply list_elem_of_singleton in Hr as ->.
        apply Hbuf. rewrite Hb. by left.
      * rewrite lookup_insert_ne by done. apply Hwire.
  - split; [|done]. apply Hupd.
    apply recv_inv in Hrecv as (Hb & _ & _).
    destruct (Hcl p c Hc) as [Hsubs Hbuf]. split; [done|]. simpl.
    intros r change' Hr. apply Hbuf. rewrite Hb. by right.
  - done.
  - split; [|done]. intros q cq Hq.
    destruct (order_NoDup _ _ Hperm) as [Hnd _].
    destruct (broadcast_result _ _ _ _ _ _ Hnd Hb Hq)
      as (c & Hc & [(-> & _)|[(Hs & _ & _ & -> & _)|(_ & _ & _ & -> & _)]]);
      destruct (Hcl q c Hc) as [Hsubs Hbuf]; [done| |done].
    split; [done|]. simpl.
    intros r change' [Hr|Hr]%elem_of_app Hch; [by eapply Hbuf|].
    apply list_elem_of_singleton in Hr as ->. injection Hch as <-.
    apply isClientSubscribed_change in Hs as (id & sub & Hl & Hdb & Hcoll).
    eapply covered_subscription; [by eapply Hsubs|done..].
Qed.

(** X20. With a validator installed, every change event written to a client
    falls under a pair the validator accepts: its database with its
    collection or with the empty collection name.  When the validator is the
    manager and no configuration lists the empty name, the pair of the
    event itself is accepted: a client is sent changes of allowed
    collections only. *)
Theorem delivered_changes_whitelisted (ws : option WebSocketServer)
    (v : SubscriptionValidator) (databases : list string) (s : System.t)
    (p : ClientPtr) (r : ServerMessage.t) (change : ChangeEvent.t) :
  ws ≫= validator = Some v →
  System.steps ws (System.init databases) s →
  r ∈ System.written s p →
  ServerMessage.Change r = Some change →
  covered v change ∧
  (∀ m, v = MultiDBManager.asValidator m →
     (∀ dbConfig, dbConfig ∈ MultiDBManager.dbConfigs m →
                  "" ∉ DatabaseConfig.Collections dbConfig) →
     MultiDBManager.IsValidSubscription m (ChangeEvent.Database change)
                                          (ChangeEvent.Collection change) = true).
Proof.
  intros Hv Hsteps Hr Hch.
  assert (whitelisted v s) as (_ & Hwire).
  { apply (steps_ind_from ws (whitelisted v) _ _ Hsteps).
    - split; [by intros ? ? ?|]. by intros q r' change' ?%elem_of_nil.
    - intros s1 s2 IH Hstep. by eapply whitelisted_step. }
  pose proof (Hwire _ _ _ Hr Hch) as Hcov.
  split; [done|].
  intros m -> Hnames. destruct Hcov as [Hok|Hany]; [done|].
  by apply validIn_wildcard.
Qed.

Lemma delivered_changes_whitelisted_witness :
  MultiDBManager.IsValidSubscription (Scenario.manager (Scenario.store Scenario.three))
    "A" "x" = true.
Proof.
  destruct scenario_run as (s & Hsteps & Hwritten & _).
  apply (proj2 (delivered_changes_whitelisted
                  (Scenario.server (Scenario.store Scenario.three))
                  (MultiDBManager.asValidator (Scenario.manager (Scenario.store Scenario.three)))
                  ["A"] s 1%positive
                  (BroadcastChange (Some (Scenario.insert "A" "x" "d1")))
                  (Scenario.insert "A" "x" "d1") eq_refl Hsteps
                  ltac:(rewrite Hwritten; right; left) eq_refl)
               (Scenario.manager (Scenario.store Scenario.three)) eq_refl).
  intros dbConfig ->%list_elem_of_singleton. simpl. by intros ?%list_elem_of_singleton.
Defined.

(** ** The configuration *)

(** X21. A configuration in the legacy form, with no list of databases,
    allows the one database it names, with every collection when it lists
    none and with the listed collections otherwise; with no database named
    either, nothing is allowed.  When a list of databases is given the
    legacy fields are not read. *)
Theorem normalizeConfig_legacy (config : Config.t) (database collection : string) :
  (Config.MongoDB_Databases config = [] →
   MultiDBManager.IsValidSubscription (MultiDBManager.new (normalizeConfig config))
     database collection = true ↔
   Config.MongoDB_Database config ≠ "" ∧
   database = Config.MongoDB_Database config ∧
   (Config.MongoDB_Collections config = [] ∨
    collection ∈ Config.MongoDB_Collections config)) ∧
  (Config.MongoDB_Databases config ≠ [] →
   normalizeConfig config = Config.MongoDB_Databases config).
Proof.
  unfold normalizeConfig, MultiDBManager.IsValidSubscription. split.
  - intros ->. simpl. case_bool_decide as Hdb; simpl.
    + case_bool_decide as Hname.
      * case_bool_decide as Hlen.
        -- apply length_zero_iff_nil in Hlen. split; [by auto|done].
        -- rewrite collectionConfigured_elem. split.
           ++ intros Hin. auto.
           ++ intros (_ & _ & [Hnil|Hin]); [|done]. by rewrite Hnil in Hlen.
      * split; [done|]. intros (_ & -> & _). done.
    + split; [done|]. intros (Hne & _). done.
  - intros Hne. rewrite bool_decide_eq_true_2; [done|].
    destruct (Config.MongoDB_Databases config); [done|]. unfold len. simpl. lia.
Qed.

Lemma normalizeConfig_legacy_witness :
  MultiDBManager.IsValidSubscription (MultiDBManager.new (normalizeConfig legacyConfig))
    "aktuell" "users" = true ↔
  "aktuell" ≠ "" ∧ "aktuell" = "aktuell" ∧ (["users"] = [] ∨ "users" ∈ ["users"]).
Proof.
  apply (proj1 (normalizeConfig_legacy legacyConfig "aktuell" "users")). reflexivity.
Defined.

(** ** The Go client library *)

Section ClientProperties.
Context {CH SH SCH EH Conn : Type}.
Variable WriteJSON : Conn → ClientMessage.t → Conn * option string.
Variable Close : Conn → option string.
Implicit Types c : AktuellClient.t CH SH SCH EH Conn.

(** Sending changes the connection only. *)
Lemma sendMessage_keeps (message : ClientMessage.t) c :
  let c' := (AktuellClient.sendMessage WriteJSON message c).1 in
  AktuellClient.subscriptions c' = AktuellClient.subscriptions c ∧
  AktuellClient.handlers c' = AktuellClient.handlers c.
Proof.
  unfold AktuellClient.sendMessage. cbv zeta.
  destruct (AktuellClient.connected c); [|done].
  destruct (AktuellClient.conn c) as [cn|]; [|done].
  by destruct (WriteJSON cn message).
Qed.

(** X22. A subscription asked for while the client is not connected fails
    with [ErrNotConnected] and writes nothing, yet the subscription and its
    handler stay recorded in the client. *)
Theorem subscribe_offline_is_recorded (subscriptionID requestID : string) (now : Z)
    (database collection : string) (snapOpts : option SnapshotOptions.t)
    (changeHandler : CH) c :
  AktuellClient.connected c = false →
  ∃ c', AktuellClient.SubscribeWithOptions WriteJSON subscriptionID requestID now
          database collection snapOpts (Some changeHandler) None None None c
        = (c', Some AktuellClient.ErrNotConnected) ∧
    AktuellClient.conn c' = AktuellClient.conn c ∧
    AktuellClient.subscriptions c' !! subscriptionID
    = Some (Subscription.mk subscriptionID "" database collection now snapOpts) ∧
    AktuellClient.handlers c' !! subscriptionID = Some changeHandler.
Proof.
  intros Hoff. unfold AktuellClient.SubscribeWithOptions, AktuellClient.sendMessage.
  simpl. rewrite Hoff. eexists. split; [done|]. simpl.
  by rewrite !lookup_insert_eq.
Qed.

(** X23. [Unsubscribe] empties the handlers with the subscriptions, the
    handler set by [OnChange] among them: a change event received
    afterwards starts no handler. *)
Theorem unsubscribe_drops_global_handler (handler : CH) (requestID : string)
    (change : ChangeEvent.t) c :
  AktuellClient.CallChange handler change
    ∈ AktuellClient.handleChangeEvent (Some change) (AktuellClient.OnChange handler c) ∧
  AktuellClient.handleChangeEvent (Some change)
    (AktuellClient.Unsubscribe WriteJSON requestID (AktuellClient.OnChange handler c)).1
  = [].
Proof.
  split.
  - unfold AktuellClient.handleChangeEvent, AktuellClient.OnChange. simpl.
    rewrite lookup_insert_eq. by left.
  - unfold AktuellClient.Unsubscribe.
    match goal with |- context [AktuellClient.sendMessage _ ?m ?c0] =>
      destruct (sendMessage_keeps m c0) as (Hs & Hh) end.
    unfold AktuellClient.handleChangeEvent. rewrite Hs, Hh. simpl.
    by rewrite lookup_empty, map_to_list_empty.
Qed.

(** What the hub matches the client matches. *)
Lemma matchesSubscription_server (change : ChangeEvent.t) (server sub : Subscription.t) :
  Subscription.Database sub = Subscription.Database server →
  Subscription.Collection sub = Subscription.Collection server →
  Hub.subscriptionMatches change server = true →
  AktuellClient.matchesSubscription change sub = true.
Proof.
  unfold Hub.subscriptionMatches, AktuellClient.matchesSubscription.
  intros -> ->. rewrite andb_true_iff, orb_true_iff, !bool_decide_eq_true.
  intros [Hdb Hcoll].
  rewrite (bool_decide_eq_false_2 (_ ≠ ChangeEvent.Database change)) by (by intros ?).
  rewrite andb_false_r.
  destruct Hcoll as [Hc|Hc].
  - rewrite (bool_decide_eq_false_2 (_ ≠ "")) by (by intros ?). done.
  - rewrite (bool_decide_eq_false_2 (_ ≠ ChangeEvent.Collection change)) by (by intros ?).
    by rewrite andb_false_r.
Qed.

(** X24. A change event that the hub delivers for the subscription the
    server made of the request of [SubscribeWithOptions] starts the change
    handler given with that subscription. *)
Theorem delivered_change_reaches_handler (subscriptionID requestID : string) (now : Z)
    (database collection : string) (snapOpts : option SnapshotOptions.t)
    (changeHandler : CH) c (clock : Clock) (peer : Client.t) (change : ChangeEvent.t) :
  let c' := (AktuellClient.SubscribeWithOptions WriteJSON subscriptionID requestID now
               database collection snapOpts (Some changeHandler) None None None c).1 in
  let message := AktuellClient.subscribeMessage database collection requestID snapOpts in
  Hub.subscriptionMatches change (subscriptionFor clock peer message) = true →
  AktuellClient.CallChange changeHandler change
    ∈ AktuellClient.handleChangeEvent (Some change) c'.
Proof.
  intros c' message Hmatch. subst c'. unfold AktuellClient.SubscribeWithOptions.
  match goal with |- context [AktuellClient.sendMessage _ ?m ?c0] =>
    destruct (sendMessage_keeps m c0) as (Hs & Hh) end.
  unfold AktuellClient.handleChangeEvent. rewrite Hs, Hh. simpl.
  apply elem_of_app. right. apply list_elem_of_omap.
  exists (subscriptionID, Subscription.mk subscriptionID "" database collection now snapOpts).
  split.
  - apply elem_of_map_to_list. by rewrite lookup_insert_eq.
  - rewrite (matchesSubscription_server change (subscriptionFor clock peer message)); [|done..].
    by rewrite lookup_insert_eq.
Qed.

(** X25. A client that was disconnected and connected again panics at its
    next [Disconnect], which closes [doneCh] a second time; a [Disconnect]
    that follows a [Disconnect] directly does nothing. *)
Theorem disconnect_after_reconnect_panics c c1 (err : option string) :
  AktuellClient.Disconnect Close c = Ok (c1, err) →
  AktuellClient.connected c = true →
  AktuellClient.Disconnect Close c1 = Ok (c1, None) ∧
  ∀ cn, AktuellClient.Disconnect Close (AktuellClient.Connect (inr cn) c1).1
        = Panic "close of closed channel".
Proof.
  unfold AktuellClient.Disconnect. intros Hd Hconn. rewrite Hconn in Hd. simpl in Hd.
  apply bindRes_Ok in Hd as (done & Hclose & Hrest).
  unfold Chan.close in Hclose.
  destruct (Chan.closed (AktuellClient.doneCh c)) eqn:Hopen; [done|].
  injection Hclose as <-.
  assert (AktuellClient.connected c1 = false ∧
          Chan.closed (AktuellClient.doneCh c1) = true) as [Hc1 Hd1].
  { destruct (AktuellClient.conn c); by injection Hrest as <- _. }
  split.
  - by rewrite Hc1.
  - intros cn. simpl. unfold Chan.close. by rewrite Hd1.
Qed.

Lemma Subscribe_subscriptions (subscriptionID requestID : string) (now : Z)
    (database collection : string) c :
  let c' := (AktuellClient.Subscribe WriteJSON subscriptionID requestID now
               database collection c).1 in
  AktuellClient.subscriptions c'
  = <[subscriptionID := Subscription.mk subscriptionID "" database collection now None]>
      (AktuellClient.subscriptions c) ∧
  AktuellClient.handlers c' = AktuellClient.handlers c.
Proof.
  unfold AktuellClient.Subscribe, AktuellClient.SubscribeWithHandler,
    AktuellClient.SubscribeWithOptions.
  match goal with |- context [AktuellClient.sendMessage _ ?m ?c0] =>
    destruct (sendMessage_keeps m c0) as (Hs & Hh) end.
  cbv zeta. by rewrite Hs, Hh.
Qed.

Lemma resubscribeEach_spec (order : list Subscription.t)
    (supply : nat → string * string * Z) :
  ∀ (k : nat) c,
    NoDup (suppliedIDs supply k (length order)) →
    (∀ id, id ∈ suppliedIDs supply k (length order) →
           AktuellClient.subscriptions c !! id = None) →
    let c' := AktuellClient.resubscribeEach WriteJSON order supply k c in
    AktuellClient.handlers c' = AktuellClient.handlers c ∧
    size (AktuellClient.subscriptions c')
    = (size (AktuellClient.subscriptions c) + length order)%nat ∧
    (∀ id sub, AktuellClient.subscriptions c !! id = Some sub →
               AktuellClient.subscriptions c' !! id = Some sub) ∧
    (∀ id sub, AktuellClient.subscriptions c' !! id = Some sub →
       AktuellClient.subscriptions c !! id = Some sub ∨
       (Subscription.SnapshotOptions sub = None ∧
        ∃ old, old ∈ order ∧
          Subscription.Database sub = Subscription.Database old ∧
          Subscription.Collection sub = Subscription.Collection old)).
Proof.
  induction order as [|sub rest IH]; intros k c Hnd Hfresh; simpl.
  { repeat split; auto; lia. }
  unfold suppliedIDs in Hnd, Hfresh. simpl in Hnd, Hfresh.
  destruct (supply k) as [[subscriptionID requestID] now] eqn:Hk. simpl in *.
  apply NoDup_cons in Hnd as [Hnew Hnd].
  destruct (Subscribe_subscriptions subscriptionID requestID now
              (Subscription.Database sub) (Subscription.Collection sub) c) as [Hs Hh].
  set (c1 := (AktuellClient.Subscribe WriteJSON subscriptionID requestID now
                (Subscription.Database sub) (Subscription.Collection sub) c).1) in *.
  assert (AktuellClient.subscriptions c !! subscriptionID = None) as Hfirst.
  { apply Hfresh. by left. }
  destruct (IH (S k) c1) as (Hh' & Hsize & Hold & Hall).
  { exact Hnd. }
  { intros id Hid. rewrite Hs. rewrite lookup_insert_ne.
    - apply Hfresh. by right.
    - intros <-. by apply Hnew. }
  split; [congruence|]. split; [|split].
  - rewrite Hsize, Hs, map_size_insert_None by done. lia.
  - intros id old Hl. apply Hold. rewrite Hs.
    rewrite lookup_insert_ne; [done|]. intros <-. congruence.
  - intros id new Hl. destruct (Hall _ _ Hl) as [Hl1|(Hopts & old & Hin & Hdb & Hcoll)].
    + rewrite Hs in Hl1. destruct (decide (id = subscriptionID)) as [->|Hne].
      * rewrite lookup_insert_eq in Hl1. injection Hl1 as <-.
        right. split; [done|]. exists sub. split; [by left|done].
      * rewrite lookup_insert_ne in Hl1 by done. by left.
    + right. split; [done|]. exists old. split; [by right|done].
Qed.

(** X26. [resubscribe] subscribes every recorded subscription again under a
    new id and keeps the old record: with new ids the number of recorded
    subscriptions doubles at every reconnection, and the new records carry
    the database and collection of an old one, no snapshot options and no
    handler of their own. *)
Theorem resubscribe_doubles (order : list Subscription.t)
    (supply : nat → string * string * Z) c :
  order ≡ₚ (map_to_list (AktuellClient.subscriptions c)).*2 →
  NoDup (suppliedIDs supply 0 (length order)) →
  (∀ id, id ∈ suppliedIDs supply 0 (length order) →
         AktuellClient.subscriptions c !! id = None) →
  let c' := AktuellClient.resubscribe WriteJSON order supply c in
  size (AktuellClient.subscriptions c') = (2 * size (AktuellClient.subscriptions c))%nat ∧
  AktuellClient.handlers c' = AktuellClient.handlers c ∧
  (∀ id sub, AktuellClient.subscriptions c !! id = Some sub →
             AktuellClient.subscriptions c' !! id = Some sub) ∧
  (∀ id sub, AktuellClient.subscriptions c' !! id = Some sub →
     AktuellClient.subscriptions c !! id = None →
     Subscription.SnapshotOptions sub = None ∧
     ∃ id' old, AktuellClient.subscriptions c !! id' = Some old ∧
       Subscription.Database sub = Subscription.Database old ∧
       Subscription.Collection sub = Subscription.Collection old).
Proof.
  intros Hperm Hnd Hfresh. cbv zeta. unfold AktuellClient.resubscribe.
  destruct (resubscribeEach_spec order supply 0 c Hnd Hfresh) as (Hh & Hsize & Hold & Hall).
  split; [|split; [done|split; [done|]]].
  - rewrite Hsize, Hperm, length_fmap, length_map_to_list. lia.
  - intros id sub Hl Hnone.
    destruct (Hall _ _ Hl) as [Hl'|(Hopts & old & Hin & Hdb & Hcoll)]; [congruence|].
    split; [done|]. rewrite Hperm in Hin.
    apply list_elem_of_fmap in Hin as ([id' old'] & -> & Hin%elem_of_map_to_list).
    by exists id', old'.
Qed.

End ClientProperties.

Lemma subscribe_offline_is_recorded_witness :
  ∃ c', AktuellClient.SubscribeWithOptions recording
          "c-1" "r-1" 0 "A" "x" None (Some "handler") None None None offlineClient
        = (c', Some AktuellClient.ErrNotConnected) ∧
    AktuellClient.conn c' = None ∧
    AktuellClient.subscriptions c' !! "c-1"
    = Some (Subscription.mk "c-1" "" "A" "x" 0 None) ∧
    AktuellClient.handlers c' !! "c-1" = Some "handler".
Proof.
  apply (subscribe_offline_is_recorded recording "c-1" "r-1" 0 "A" "x" None "handler"
           offlineClient).
  reflexivity.
Defined.

Lemma delivered_change_reaches_handler_witness :
  AktuellClient.CallChange "handler" (Scenario.insert "A" "x" "d1")
  ∈ AktuellClient.handleChangeEvent (Some (Scenario.insert "A" "x" "d1"))
      (AktuellClient.SubscribeWithOptions recording
         "c-1" "r-1" 0 "A" "x" None (Some "handler") None None None offlineClient).1.
Proof.
  apply (delivered_change_reaches_handler recording "c-1" "r-1" 0 "A" "x" None "handler"
           offlineClient Scenario.clock (Client.new "client-1")
           (Scenario.insert "A" "x" "d1")).
  reflexivity.
Defined.

Lemma disconnect_after_reconnect_panics_witness :
  AktuellClient.Disconnect (λ _ : list ClientMessage.t, None)
    (AktuellClient.Connect (inr [])
       (AktuellClient.mk string () () () (list ClientMessage.t) None false false ∅ ∅ ∅ ∅
          {["c-1" := Subscription.mk "c-1" "" "A" "x" 0 None]}
          (Chan.mk 0 [] true) (Chan.make 1))).1
  = Panic "close of closed channel".
Proof.
  apply (proj2 (disconnect_after_reconnect_panics (λ _, None) connectedClient _ None
                  eq_refl eq_refl)).
Defined.

Lemma resubscribe_doubles_witness :
  size (AktuellClient.subscriptions
          (AktuellClient.resubscribe recording
             [Subscription.mk "c-1" "" "A" "x" 0 None] (λ _, ("c-2", "r-2", 0))
             connectedClient)) = 2%nat.
Proof.
  apply (resubscribe_doubles recording [Subscription.mk "c-1" "" "A" "x" 0 None]
           (λ _, ("c-2", "r-2", 0)) connectedClient).
  - unfold connectedClient. simpl. by rewrite map_to_list_singleton.
  - apply NoDup_singleton.
  - intros id ->%list_elem_of_singleton. reflexivity.
Defined.
